(** * ImageGen: request normalisation for the image API proxy

    A shallow embedding of the server side of the repository:
    - [server/lib/openai.ts]: [generateImage], [editImage],
      [createImageVariations] (payload construction, MIME sniffing of
      uploaded buffers, normalisation of the upstream image list);
    - [shared/schema.ts]: the zod schemas of the request bodies;
    - [shared/templates.ts]: [FLOWER_TEMPLATES] and [processTemplate];
    - [server/routes.ts]: the upload filter and the handlers of
      [/api/generate], [/api/flower-generate], [/api/batch-flower-generate],
      [/api/edit] and [/api/variations];
    - [server/lib/gemini.ts]: [generateImageDescription] and
      [generateImage].

    JavaScript objects built by conditional key insertion are finite maps
    from key names to values; a call that may raise returns a [Result];
    calls to the two vendors are replies of the environment, recorded in a
    log.  Where the model does not follow the JavaScript engine (patterns
    that are more than a literal text, members inherited from
    [Object.prototype], the text of a [TypeError]) the engine answers as
    part of the environment. *)

From Stdlib Require Import ZArith QArith List String Ascii Bool Lia.
From Stdlib Require Import Strings.Byte DecimalString DecimalNat.
From Stdlib Require Import Sorting.Sorted.
From stdpp Require Import base option list gmap strings.

Local Open Scope string_scope.
Local Open Scope list_scope.
#[local] Set Warnings "-register-all".

(** ** JavaScript values used by the server *)

(** A string is the sequence of the bytes of its UTF-8 form.  The server
    compares strings with ASCII literals and copies them; it never cuts
    one inside a character. *)

(** A JavaScript number that went through [z.number().min(a).max(b)] is a
    finite double, hence a rational. *)
Definition number : Set := Q.

(** [if (s)] on an optional string: [undefined] and the empty string are
    falsy. *)
Definition truthy (s : option string) : bool :=
  match s with
  | Some s => negb (String.eqb s "")
  | None => false
  end.

(** [s.startsWith(p)] *)
Definition startsWith (s p : string) : bool := String.prefix p s.

(** A decimal digit. *)
Definition is_digit (c : ascii) : bool :=
  Nat.leb 48 (nat_of_ascii c) && Nat.leb (nat_of_ascii c) 57.

(** A [Buffer] is a sequence of bytes. *)
Definition Buffer : Set := list byte.

(** [new File([bits], name, { type })] *)
Record File := mkFile {
  file_bits : Buffer;
  file_name : string;
  file_type : string
}.

(** [new Blob([bits], { type })] *)
Record Blob := mkBlob {
  blob_bits : Buffer;
  blob_type : string
}.

(** The values stored under the keys of a request body. *)
Inductive jsval :=
| JStr (s : string)
| JNum (q : number)
| JFile (f : File)
| JFiles (fs : list File)
| JBlob (b : Blob)
| JUndefined.

(** A call either returns or raises an [Error] carrying a message. *)
Inductive Result (A : Type) :=
| Ok (a : A)
| Throw (message : string).
Arguments Ok {A} a.
Arguments Throw {A} message.

(** ** Enumerations of [shared/schema.ts] *)

Inductive Model := DallE2 | DallE3 | GptImage1.
Inductive SchemaModel := OpenAIModel (m : Model) | GeminiFlashImagePreview.
Inductive EditModel := EditDallE2 | EditGptImage1.
Inductive Quality := QStandard | QHd | QAuto | QHigh | QMedium | QLow.
Inductive Style := Vivid | Natural.
Inductive ResponseFormat := Url | B64Json.
Inductive OutputFormat := Png | Jpeg | Webp.
Inductive Background := BgAuto | BgTransparent | BgOpaque.
Inductive Moderation := ModAuto | ModLow.
Inductive VariationSize := S256 | S512 | S1024.

Definition Model_str (m : Model) : string :=
  match m with
  | DallE2 => "dall-e-2"
  | DallE3 => "dall-e-3"
  | GptImage1 => "gpt-image-1"
  end.

Definition SchemaModel_str (m : SchemaModel) : string :=
  match m with
  | OpenAIModel m => Model_str m
  | GeminiFlashImagePreview => "gemini-2.5-flash-image-preview"
  end.

Definition EditModel_str (m : EditModel) : string :=
  match m with
  | EditDallE2 => "dall-e-2"
  | EditGptImage1 => "gpt-image-1"
  end.

Definition Quality_str (q : Quality) : string :=
  match q with
  | QStandard => "standard"
  | QHd => "hd"
  | QAuto => "auto"
  | QHigh => "high"
  | QMedium => "medium"
  | QLow => "low"
  end.

Definition Style_str (s : Style) : string :=
  match s with Vivid => "vivid" | Natural => "natural" end.

Definition ResponseFormat_str (r : ResponseFormat) : string :=
  match r with Url => "url" | B64Json => "b64_json" end.

Definition OutputFormat_str (o : OutputFormat) : string :=
  match o with Png => "png" | Jpeg => "jpeg" | Webp => "webp" end.

Definition Background_str (b : Background) : string :=
  match b with
  | BgAuto => "auto"
  | BgTransparent => "transparent"
  | BgOpaque => "opaque"
  end.

Definition Moderation_str (m : Moderation) : string :=
  match m with ModAuto => "auto" | ModLow => "low" end.

Definition VariationSize_str (s : VariationSize) : string :=
  match s with
  | S256 => "256x256"
  | S512 => "512x512"
  | S1024 => "1024x1024"
  end.

Definition Model_eqb (a b : Model) : bool :=
  match a, b with
  | DallE2, DallE2 | DallE3, DallE3 | GptImage1, GptImage1 => true
  | _, _ => false
  end.

(** [["standard", "hd"].includes(q)] *)
Definition quality_in_standard_hd (q : Quality) : bool :=
  match q with QStandard | QHd => true | _ => false end.

(** [["auto", "high", "medium", "low"].includes(q)] *)
Definition quality_in_auto_high_medium_low (q : Quality) : bool :=
  match q with QAuto | QHigh | QMedium | QLow => true | _ => false end.

(** ** [generateImage]: the request body *)

(** The [params] argument of [generateImage]. *)
Record GenerateParams := mkGenerateParams {
  g_prompt : string;
  g_model : Model;
  g_size : string;
  g_n : number;
  g_quality : option Quality;
  g_style : option Style;
  g_response_format : option ResponseFormat;
  g_output_format : option OutputFormat;
  g_output_compression : option number;
  g_background : option Background;
  g_moderation : option Moderation;
  g_user : option string
}.

(** [if (v) requestBody[k] = v] for an optional enumeration value (every
    member of an enumeration is a non-empty string, hence truthy). *)
Definition set_opt {A} (k : string) (str : A → string) (v : option A)
    (rb : gmap string jsval) : gmap string jsval :=
  match v with
  | Some a => <[k := JStr (str a)]> rb
  | None => rb
  end.

(** [if (params.quality && allowed.includes(params.quality))] *)
Definition set_quality (allowed : Quality → bool) (v : option Quality)
    (rb : gmap string jsval) : gmap string jsval :=
  match v with
  | Some q => if allowed q then <["quality" := JStr (Quality_str q)]> rb else rb
  | None => rb
  end.

(** [if (params.output_compression !== undefined)] *)
Definition set_output_compression (v : option number)
    (rb : gmap string jsval) : gmap string jsval :=
  match v with
  | Some c => <["output_compression" := JNum c]> rb
  | None => rb
  end.

(** [if (params.user) requestBody.user = params.user] *)
Definition set_user (v : option string)
    (rb : gmap string jsval) : gmap string jsval :=
  if truthy v then <["user" := JStr (default "" v)]> rb else rb.

Definition generate_base (params : GenerateParams) : gmap string jsval :=
  <["size" := JStr (g_size params)]>
  (<["prompt" := JStr (g_prompt params)]>
  (<["model" := JStr (Model_str (g_model params))]> ∅)).

Definition generate_n (params : GenerateParams)
    (rb : gmap string jsval) : gmap string jsval :=
  if Model_eqb (g_model params) DallE3
  then <["n" := JNum 1%Q]> rb
  else <["n" := JNum (g_n params)]> rb.

Definition generate_dalle3 (params : GenerateParams)
    (rb : gmap string jsval) : gmap string jsval :=
  if Model_eqb (g_model params) DallE3
  then set_opt "style" Style_str (g_style params)
         (set_quality quality_in_standard_hd (g_quality params) rb)
  else rb.

Definition generate_gpt_image_1 (params : GenerateParams)
    (rb : gmap string jsval) : gmap string jsval :=
  if Model_eqb (g_model params) GptImage1
  then set_opt "moderation" Moderation_str (g_moderation params)
         (set_opt "background" Background_str (g_background params)
         (set_output_compression (g_output_compression params)
         (set_opt "output_format" OutputFormat_str (g_output_format params)
         (set_quality quality_in_auto_high_medium_low (g_quality params) rb))))
  else rb.

Definition generate_response_format (params : GenerateParams)
    (rb : gmap string jsval) : gmap string jsval :=
  if negb (Model_eqb (g_model params) GptImage1)
  then set_opt "response_format" ResponseFormat_str (g_response_format params) rb
  else rb.

(** The object passed to [clientOpenai.images.generate]. *)
Definition generate_requestBody (params : GenerateParams) : gmap string jsval :=
  set_user (g_user params)
    (generate_response_format params
    (generate_gpt_image_1 params
    (generate_dalle3 params
    (generate_n params
    (generate_base params))))).

(** ** The response normaliser *)

(** An element of [response.data]: both fields are optional. *)
Record Image := mkImage {
  url : option string;
  b64_json : option string
}.

(** The callback of [response.data?.map(...)]. *)
Definition normalize_image (image : Image) : Result string :=
  if truthy (url image) then Ok (default "" (url image))
  else if truthy (b64_json image)
  then Ok ("data:image/png;base64," +:+ default "" (b64_json image))
  else Throw "Invalid response format from OpenAI API".

(** [Array.prototype.map] with a callback that may raise: the first
    raising element aborts the whole map. *)
Fixpoint map_throwing {A B} (f : A → Result B) (l : list A) : Result (list B) :=
  match l with
  | [] => Ok []
  | x :: l' =>
      match f x with
      | Throw msg => Throw msg
      | Ok y =>
          match map_throwing f l' with
          | Throw msg => Throw msg
          | Ok ys => Ok (y :: ys)
          end
      end
  end.

(** [response.data?.map(...) || []] *)
Definition normalize_response (data : option (list Image)) : Result (list string) :=
  match data with
  | Some images => map_throwing normalize_image images
  | None => Ok []
  end.

(** ** MIME sniffing of uploaded buffers ([editImage]) *)

Definition hex_digit (n : N) : ascii :=
  match n with
  | 0 => "0" | 1 => "1" | 2 => "2" | 3 => "3" | 4 => "4" | 5 => "5"
  | 6 => "6" | 7 => "7" | 8 => "8" | 9 => "9" | 10 => "a" | 11 => "b"
  | 12 => "c" | 13 => "d" | 14 => "e" | _ => "f"
  end%N%char.

Definition byte_hex (b : byte) : string :=
  String (hex_digit (Byte.to_N b / 16))
    (String (hex_digit (Byte.to_N b mod 16)) "").

(** [buffer.toString('hex')] *)
Fixpoint toString_hex (buffer : Buffer) : string :=
  match buffer with
  | [] => ""
  | b :: rest => byte_hex b +:+ toString_hex rest
  end.

Definition sniff_mimeType (buffer : Buffer) : string :=
  if startsWith (toString_hex buffer) "89504e47" then "image/png"
  else if startsWith (toString_hex buffer) "ffd8ffe" then "image/jpeg"
  else "image/webp".

(** [s.split(sep)] for a one-character separator. *)
Fixpoint split (sep : ascii) (s : string) : list string :=
  match s with
  | "" => [""]
  | String c rest =>
      if Ascii.eqb c sep then "" :: split sep rest
      else match split sep rest with
           | piece :: pieces => String c piece :: pieces
           | [] => [String c ""]
           end
  end.

(** A number interpolated in a template literal. *)
Definition index_str (index : nat) : string :=
  NilZero.string_of_uint (Nat.to_uint index).

(** The callback of [imageFiles.map((buffer, index) => ...)]. *)
Definition convert_imageFile (index : nat) (buffer : Buffer) : File :=
  let mimeType := sniff_mimeType buffer in
  mkFile buffer
    ("image" +:+ index_str index +:+ "."
       +:+ default "undefined" (split "/" mimeType !! 1%nat))
    mimeType.

Definition convert_maskFile (maskFile : Buffer) : File :=
  mkFile maskFile "mask.png" "image/png".

(** ** [editImage]: the request body *)

Record EditParams := mkEditParams {
  e_prompt : string;
  e_model : EditModel;
  e_size : string;
  e_n : number;
  e_quality : option Quality;
  e_response_format : option ResponseFormat;
  e_output_format : option OutputFormat;
  e_output_compression : option number;
  e_background : option Background;
  e_user : option string
}.

Definition EditModel_eqb (a b : EditModel) : bool :=
  match a, b with
  | EditDallE2, EditDallE2 | EditGptImage1, EditGptImage1 => true
  | _, _ => false
  end.

(** [imageFiles_converted[0]]: [undefined] on an empty array. *)
Definition first_file (files : list File) : jsval :=
  match files !! 0%nat with
  | Some f => JFile f
  | None => JUndefined
  end.

(** [if (maskFile_converted) requestBody.mask = maskFile_converted] *)
Definition set_mask (mask : option File)
    (rb : gmap string jsval) : gmap string jsval :=
  match mask with
  | Some f => <["mask" := JFile f]> rb
  | None => rb
  end.

Definition edit_base (params : EditParams) : gmap string jsval :=
  <["n" := JNum (e_n params)]>
  (<["size" := JStr (e_size params)]>
  (<["model" := JStr (EditModel_str (e_model params))]>
  (<["prompt" := JStr (e_prompt params)]> ∅))).

Definition edit_image_and_mask (converted : list File) (mask : option File)
    (params : EditParams) (rb : gmap string jsval) : gmap string jsval :=
  if EditModel_eqb (e_model params) EditDallE2
  then set_mask mask (<["image" := first_file converted]> rb)
  else set_mask mask
         (<["image" := if Nat.eqb (length converted) 1
                       then first_file converted
                       else JFiles converted]> rb).

Definition edit_gpt_image_1 (params : EditParams)
    (rb : gmap string jsval) : gmap string jsval :=
  if EditModel_eqb (e_model params) EditGptImage1
  then set_opt "background" Background_str (e_background params)
         (set_output_compression (e_output_compression params)
         (set_opt "output_format" OutputFormat_str (e_output_format params)
         (set_quality quality_in_auto_high_medium_low (e_quality params) rb)))
  else rb.

Definition edit_response_format (params : EditParams)
    (rb : gmap string jsval) : gmap string jsval :=
  if EditModel_eqb (e_model params) EditDallE2
  then set_opt "response_format" ResponseFormat_str (e_response_format params) rb
  else rb.

(** The object passed to [clientOpenai.images.edit]. *)
Definition edit_requestBody (imageFiles : list Buffer) (maskFile : option Buffer)
    (params : EditParams) : gmap string jsval :=
  let imageFiles_converted := imap convert_imageFile imageFiles in
  let maskFile_converted := convert_maskFile <$> maskFile in
  set_user (e_user params)
    (edit_response_format params
    (edit_gpt_image_1 params
    (edit_image_and_mask imageFiles_converted maskFile_converted params
    (edit_base params)))).

(** ** [createImageVariations]: the request body *)

Record VariationParams := mkVariationParams {
  v_n : number;
  v_size : VariationSize;
  v_response_format : ResponseFormat;
  v_user : option string
}.

(** The object passed to [clientOpenai.images.createVariation]. *)
Definition variation_requestBody (imageFile : Buffer)
    (params : VariationParams) : gmap string jsval :=
  let imageBlob := mkBlob imageFile "image/png" in
  set_user (v_user params)
    (<["response_format" := JStr (ResponseFormat_str (v_response_format params))]>
    (<["size" := JStr (VariationSize_str (v_size params))]>
    (<["n" := JNum (v_n params)]>
    (<["image" := JBlob imageBlob]> ∅)))).

(** ** Request bodies and the zod schemas of [shared/schema.ts] *)

(** A parsed JSON document ([req.body]).  An object is the list of its
    properties; a key is bound to the first value listed for it. *)
Inductive json :=
| JSNull
| JSBool (b : bool)
| JSNumber (q : number)
| JSString (s : string)
| JSArray (elements : list json)
| JSObject (properties : list (string * json)).

(** [data[key]]: [None] is [undefined]. *)
Fixpoint get (key : string) (properties : list (string * json)) : option json :=
  match properties with
  | [] => None
  | (k, v) :: rest => if String.eqb k key then Some v else get key rest
  end.

Inductive ZodIssueCode := invalid_type | invalid_enum_value | too_small | too_big.

Inductive PathSegment := Key (k : string) | Index (i : nat).

(** An entry of [ZodError.issues]; [issue_message] is the message given in
    the schema, when there is one. *)
Record ZodIssue := mkIssue {
  issue_code : ZodIssueCode;
  issue_path : list PathSegment;
  issue_message : option string
}.

(** The outcome of a schema on an input: the parsed data, or the issues. *)
Inductive SafeParse (A : Type) :=
| ParseOk (data : A)
| ParseError (issues : list ZodIssue).
Arguments ParseOk {A} data.
Arguments ParseError {A} issues.

(** The properties of an object are all parsed; their issues add up. *)
Definition both {A B} (a : SafeParse A) (b : SafeParse B) : SafeParse (A * B) :=
  match a, b with
  | ParseOk x, ParseOk y => ParseOk (x, y)
  | ParseError i, ParseOk _ => ParseError i
  | ParseOk _, ParseError j => ParseError j
  | ParseError i, ParseError j => ParseError (i ++ j)
  end.

Definition parse_map {A B} (f : A → B) (a : SafeParse A) : SafeParse B :=
  match a with
  | ParseOk x => ParseOk (f x)
  | ParseError i => ParseError i
  end.

Definition issue (code : ZodIssueCode) (path : list PathSegment)
    (message : option string) {A} : SafeParse A :=
  ParseError [mkIssue code path message].

(** [z.string()] *)
Definition z_string (path : list PathSegment) (input : option json) : SafeParse string :=
  match input with
  | Some (JSString s) => ParseOk s
  | _ => issue invalid_type path None
  end.

(** [z.string().min(1, message)] *)
Definition z_string_min1 (message : string) (path : list PathSegment)
    (input : option json) : SafeParse string :=
  match input with
  | Some (JSString s) =>
      if String.eqb s "" then issue too_small path (Some message) else ParseOk s
  | _ => issue invalid_type path None
  end.

(** [z.number().min(lo).max(hi)] *)
Definition z_number_min_max (lo hi : number) (path : list PathSegment)
    (input : option json) : SafeParse number :=
  match input with
  | Some (JSNumber q) =>
      match Qle_bool lo q, Qle_bool q hi with
      | true, true => ParseOk q
      | false, true => issue too_small path None
      | true, false => issue too_big path None
      | false, false =>
          ParseError [mkIssue too_small path None; mkIssue too_big path None]
      end
  | _ => issue invalid_type path None
  end.

(** [z.enum([...])]: [members] lists the accepted strings. *)
Definition z_enum {A} (members : list (string * A)) (path : list PathSegment)
    (input : option json) : SafeParse A :=
  match input with
  | Some (JSString s) =>
      match List.find (λ m, String.eqb (fst m) s) members with
      | Some m => ParseOk (snd m)
      | None => issue invalid_enum_value path None
      end
  | _ => issue invalid_type path None
  end.

(** [schema.optional()] *)
Definition z_optional {A} (schema : list PathSegment → option json → SafeParse A)
    (path : list PathSegment) (input : option json) : SafeParse (option A) :=
  match input with
  | None => ParseOk None
  | Some _ => parse_map Some (schema path input)
  end.

(** [schema.default(d)], for a default the schema accepts. *)
Definition z_default {A} (schema : list PathSegment → option json → SafeParse A)
    (d : A) (path : list PathSegment) (input : option json) : SafeParse A :=
  match input with
  | None => ParseOk d
  | Some _ => schema path input
  end.

(** The elements of an array or the values of a record, parsed one by one. *)
Fixpoint parse_all {A B} (schema : A → SafeParse B) (l : list A) : SafeParse (list B) :=
  match l with
  | [] => ParseOk []
  | x :: rest => parse_map (λ p, fst p :: snd p) (both (schema x) (parse_all schema rest))
  end.

(** [z.record(z.string())] *)
Definition z_record_string (path : list PathSegment) (input : option json)
    : SafeParse (gmap string string) :=
  match input with
  | Some (JSObject properties) =>
      parse_map list_to_map
        (parse_all
           (λ kv, parse_map (pair (fst kv))
                    (z_string (path ++ [Key (fst kv)]) (Some (snd kv))))
           properties)
  | _ => issue invalid_type path None
  end.

(** [z.array(z.string())] *)
Definition z_array_string (path : list PathSegment) (input : option json)
    : SafeParse (list string) :=
  match input with
  | Some (JSArray elements) =>
      parse_all (λ iv, z_string (path ++ [Index (fst iv)]) (Some (snd iv)))
        (imap pair elements)
  | _ => issue invalid_type path None
  end.

Definition model_members : list (string * SchemaModel) :=
  [("dall-e-2", OpenAIModel DallE2); ("dall-e-3", OpenAIModel DallE3);
   ("gpt-image-1", OpenAIModel GptImage1);
   ("gemini-2.5-flash-image-preview", GeminiFlashImagePreview)].

Definition quality_members : list (string * Quality) :=
  [("standard", QStandard); ("hd", QHd); ("auto", QAuto); ("high", QHigh);
   ("medium", QMedium); ("low", QLow)].

Definition style_members : list (string * Style) :=
  [("vivid", Vivid); ("natural", Natural)].

Definition response_format_members : list (string * ResponseFormat) :=
  [("url", Url); ("b64_json", B64Json)].

Definition output_format_members : list (string * OutputFormat) :=
  [("png", Png); ("jpeg", Jpeg); ("webp", Webp)].

Definition background_members : list (string * Background) :=
  [("auto", BgAuto); ("transparent", BgTransparent); ("opaque", BgOpaque)].

Definition moderation_members : list (string * Moderation) :=
  [("auto", ModAuto); ("low", ModLow)].

(** The properties that [generateImageSchema], [flowerGenerationSchema] and
    [batchFlowerGenerationSchema] have in common, in the order of the
    schemas. *)
Record ImageFields := mkImageFields {
  f_model : SchemaModel;
  f_size : string;
  f_n : number;
  f_quality : option Quality;
  f_style : option Style;
  f_response_format : option ResponseFormat;
  f_output_format : option OutputFormat;
  f_output_compression : option number;
  f_background : option Background;
  f_moderation : option Moderation;
  f_user : option string
}.

Definition parse_ImageFields (default_size : string)
    (o : list (string * json)) : SafeParse ImageFields :=
  parse_map
    (λ '(model, (size, (n, (quality, (style, (response_format,
        (output_format, (output_compression, (background,
        (moderation, user)))))))))),
       mkImageFields model size n quality style response_format output_format
         output_compression background moderation user)
    (both (z_default (z_enum model_members) (OpenAIModel DallE2) [Key "model"] (get "model" o))
    (both (z_default z_string default_size [Key "size"] (get "size" o))
    (both (z_default (z_number_min_max 1%Q 10%Q) 1%Q [Key "n"] (get "n" o))
    (both (z_optional (z_enum quality_members) [Key "quality"] (get "quality" o))
    (both (z_optional (z_enum style_members) [Key "style"] (get "style" o))
    (both (z_optional (z_enum response_format_members) [Key "response_format"]
             (get "response_format" o))
    (both (z_optional (z_enum output_format_members) [Key "output_format"]
             (get "output_format" o))
    (both (z_optional (z_number_min_max 0%Q 100%Q) [Key "output_compression"]
             (get "output_compression" o))
    (both (z_optional (z_enum background_members) [Key "background"] (get "background" o))
    (both (z_optional (z_enum moderation_members) [Key "moderation"] (get "moderation" o))
          (z_optional z_string [Key "user"] (get "user" o)))))))))))).

Record GenerateImageRequest := mkGenerateImageRequest {
  gi_prompt : string;
  gi_fields : ImageFields
}.

(** [generateImageSchema] *)
Definition generateImageSchema (input : json) : SafeParse GenerateImageRequest :=
  match input with
  | JSObject o =>
      parse_map (λ p, mkGenerateImageRequest (fst p) (snd p))
        (both (z_string_min1 "Prompt is required" [Key "prompt"] (get "prompt" o))
              (parse_ImageFields "512x512" o))
  | _ => issue invalid_type [] None
  end.

Record FlowerGenerationRequest := mkFlowerGenerationRequest {
  fg_templateId : string;
  fg_variables : gmap string string;
  fg_fields : ImageFields;
  fg_referenceImages : option (list string)
}.

(** [flowerGenerationSchema] *)
Definition flowerGenerationSchema (input : json) : SafeParse FlowerGenerationRequest :=
  match input with
  | JSObject o =>
      parse_map (λ '(templateId, (variables, (fields, referenceImages))),
                   mkFlowerGenerationRequest templateId variables fields referenceImages)
        (both (z_string_min1 "Template ID is required" [Key "templateId"]
                 (get "templateId" o))
        (both (z_record_string [Key "variables"] (get "variables" o))
        (both (parse_ImageFields "1024x1024" o)
              (z_optional z_array_string [Key "referenceImages"]
                 (get "referenceImages" o)))))
  | _ => issue invalid_type [] None
  end.

Record BatchFlowerItem := mkBatchFlowerItem {
  referenceImageId : string;
  item_variables : gmap string string
}.

(** [batchFlowerItemSchema] *)
Definition batchFlowerItemSchema (path : list PathSegment) (input : option json)
    : SafeParse BatchFlowerItem :=
  match input with
  | Some (JSObject o) =>
      parse_map (λ p, mkBatchFlowerItem (fst p) (snd p))
        (both (z_string_min1 "Reference image ID is required"
                 (path ++ [Key "referenceImageId"]) (get "referenceImageId" o))
              (z_record_string (path ++ [Key "variables"]) (get "variables" o)))
  | _ => issue invalid_type path None
  end.

(** [z.array(batchFlowerItemSchema).min(1, message)] *)
Definition z_items (path : list PathSegment) (input : option json)
    : SafeParse (list BatchFlowerItem) :=
  match input with
  | Some (JSArray elements) =>
      parse_map snd
        (both (if Nat.eqb (length elements) 0
               then issue too_small path (Some "At least one item is required")
               else ParseOk tt)
              (parse_all (λ iv, batchFlowerItemSchema (path ++ [Index (fst iv)])
                                  (Some (snd iv)))
                 (imap pair elements)))
  | _ => issue invalid_type path None
  end.

Record BatchFlowerGenerationRequest := mkBatchFlowerGenerationRequest {
  bf_templateId : string;
  bf_items : list BatchFlowerItem;
  bf_fields : ImageFields
}.

(** [batchFlowerGenerationSchema] *)
Definition batchFlowerGenerationSchema (input : json)
    : SafeParse BatchFlowerGenerationRequest :=
  match input with
  | JSObject o =>
      parse_map (λ '(templateId, (items, fields)),
                   mkBatchFlowerGenerationRequest templateId items fields)
        (both (z_string_min1 "Template ID is required" [Key "templateId"]
                 (get "templateId" o))
        (both (z_items [Key "items"] (get "items" o))
              (parse_ImageFields "1024x1024" o)))
  | _ => issue invalid_type [] None
  end.

(** ** Calls to the vendors *)

(** A part of the content sent to the text model. *)
Inductive Part := Text (text : string).

(** The requests that leave the server. *)
Inductive Call :=
| ImagesGenerate (apiKey : string) (requestBody : gmap string jsval)
| ImagesEdit (apiKey : string) (requestBody : gmap string jsval)
| ImagesCreateVariation (apiKey : string) (requestBody : gmap string jsval)
| GenerateContent (apiKey : string) (model : string) (parts : list Part).

(** What the outside answers.  The first argument of a reply names the
    task that asks: 0 for a request handled alone, the position of the item
    for the tasks of a batch, which run side by side and may get different
    answers to the same question.  [ZodError_message] is the text zod gives
    to a list of issues.  The last three fields are what the JavaScript
    engine does where the model does not follow it:
    [RegExp_replace source subject replacement] is
    [subject.replace(new RegExp(source, 'g'), replacement)] for a source
    that is more than a literal text (the constructor may raise a
    [SyntaxError]); [member_replace name subject] is the same call for the
    placeholder of [name] when the replacement is the member [name] of
    [Object.prototype]; [TypeError_message key] is the message of the
    [TypeError] raised on reading the property [key] of [undefined]. *)
Record World := mkWorld {
  images_generate : nat → string → gmap string jsval → Result (option (list Image));
  images_edit : nat → string → gmap string jsval → Result (option (list Image));
  images_createVariation : nat → string → gmap string jsval → Result (option (list Image));
  generateContent : nat → string → string → list Part → Result string;
  ZodError_message : list ZodIssue → string;
  RegExp_replace : string → string → string → Result string;
  member_replace : string → string → Result string;
  TypeError_message : string → string
}.

(** A computation of the server: it returns or raises, and adds the calls
    it makes to the log.  The calls of the tasks of a batch are logged task
    after task; the order in which they interleave in time is not kept. *)
Definition IO (A : Type) : Type := list Call → Result A * list Call.

#[global] Instance IO_ret : MRet IO := λ A a log, (Ok a, log).

#[global] Instance IO_bind : MBind IO := λ A B f m log,
  match m log with
  | (Ok a, log') => f a log'
  | (Throw message, log') => (Throw message, log')
  end.

(** [throw new Error(message)] *)
Definition throw {A} (message : string) : IO A := λ log, (Throw message, log).

(** [try { m } catch (error) { handler(error.message) }] *)
Definition try_catch {A} (m : IO A) (handler : string → IO A) : IO A := λ log,
  match m log with
  | (Ok a, log') => (Ok a, log')
  | (Throw message, log') => handler message log'
  end.

(** A step that makes no call. *)
Definition lift {A} (r : Result A) : IO A := λ log, (r, log).

(** [await] of a request to a vendor. *)
Definition call {A} (c : Call) (reply : Result A) : IO A := λ log, (reply, log ++ [c]).

(** [message || fallback] *)
Definition or_else (message fallback : string) : string :=
  if String.eqb message "" then fallback else message.

(** ** Prompt templates ([shared/templates.ts]) *)

Record FlowerVariable := mkFlowerVariable {
  var_name : string;
  var_placeholder : string;
  var_defaultValue : string
}.

Record FlowerTemplate := mkFlowerTemplate {
  tpl_id : string;
  tpl_name : string;
  tpl_description : string;
  tpl_variables : list FlowerVariable;
  tpl_promptTemplate : string
}.

(** The line feed of a multi-line template literal. *)
Definition LF : string := String (ascii_of_nat 10) "".

Definition unlines (lines : list string) : string := String.concat LF lines.

Definition single_branch : FlowerTemplate :=
  mkFlowerTemplate "single-branch" "Gen nhánh hoa"
    "Tạo hình ảnh nhánh hoa đơn với một bông hoa nở"
    [mkFlowerVariable "flower_name"
       "Tên loài hoa (ví dụ: Yellow Lily)"
       "Yellow Lily";
     mkFlowerVariable "petal_color"
       "Màu cánh hoa (ví dụ: golden yellow)"
       "golden yellow";
     mkFlowerVariable "anther_color"
       "Màu nhị hoa (ví dụ: warm brown)"
       "warm brown";
     mkFlowerVariable "filament_color"
       "Màu chỉ nhị (ví dụ: pale yellow)"
       "pale yellow"]
    (unlines
      ["SUBJECT: single [{{flower_name}}] branch; stem have 2 leaves and one bloom flower ";
       "STYLE: semi-realistic; product illustration; clean, perfect surfaces.";
       "COLOR: petals [{{petal_color}}]; leaves fresh green; anthers [{{anther_color}}]; filaments [{{filament_color}}]; saturation even.";
       "FORM: lifelike shape; soft curved tepals; clear layering; visible stamen/pistil; slender lanceolate leaves; visible stem nodes.";
       "SURFACE/TEXTURE: smooth; even color; pristine; no wrinkles/spots/dust/blemishes/wilt.";
       "LIGHTING: neutral studio; softbox key and gentle fill; soft, diffused shadow; no color cast.";
       "CAMERA: minimal perspective; slight 3/4 angle.";
       "COMPOSITION: centered; ample breathing room; clear silhouette; clean edges; easy cutout.";
       "FINISH: smooth highlights; subtle micro-specular; not plastic; not painterly; no grain.";
       "NEGATIVE: imperfections; wilted/torn; insect damage; water droplets; vase/props; colored/gradient bg; harsh/deep shadows; crushed blacks; chromatic aberration; vignette; noise; oversaturation; oversharpening; text/watermark/logo/frame; blur/motion blur; cartoon/toy look."]).

Definition bouquet : FlowerTemplate :=
  mkFlowerTemplate "bouquet" "Gen bó hoa"
    "Tạo hình ảnh bó hoa với nhiều bông hoa nở"
    [mkFlowerVariable "flower_name"
       "Tên loài hoa (ví dụ: Yellow Lily)"
       "Yellow Lily";
     mkFlowerVariable "petal_color"
       "Màu cánh hoa (ví dụ: golden yellow)"
       "golden yellow";
     mkFlowerVariable "anther_color"
       "Màu nhị hoa (ví dụ: warm brown)"
       "warm brown";
     mkFlowerVariable "filament_color"
       "Màu chỉ nhị (ví dụ: pale yellow)"
       "pale yellow"]
    (unlines
      ["SUBJECT: bouquet of [{{flower_name}}] stems; 7–9 open blooms with a few buds; multiple stems with leaves.";
       "STYLE: semi-realistic; product illustration; clean, perfect surfaces.";
       "COLOR: petals [{{petal_color}}]; leaves fresh green; anthers [{{anther_color}}]; filaments [{{filament_color}}]; saturation even.";
       "FORM: lifelike shape; petals show gentle thickness and depth; soft curved tepals; clear layering; visible stamen/pistil; slender lanceolate leaves; mix of front and slight 3/4 bloom angles; natural size variation across flowers.";
       "SURFACE/TEXTURE: smooth; even color; pristine; minimal vein details on petals and leaves (subtle, softened); no wrinkles/spots/dust/blemishes/wilt.";
       "LIGHTING: neutral studio; softbox key and gentle fill; soft, diffused shadow; no color cast.";
       "CAMERA: minimal perspective; product-macro feel; slight 3/4 overall.";
       "COMPOSITION: centered bouquet; fan/triangular silhouette; ample breathing room; clear overlapping hierarchy; clean edges; easy cutout.";
       "FINISH: smooth highlights; subtle micro-specular; not plastic; not painterly; no grain.";
       "NEGATIVE: imperfections; wilted/torn; insect damage; water droplets; ribbon/tie; vase/props; colored/gradient bg; harsh/deep shadows; crushed blacks; chromatic aberration; vignette; noise; oversaturation; oversharpening; text/watermark/logo/frame; blur/motion blur; cartoon/toy look."]).

Definition FLOWER_TEMPLATES : list FlowerTemplate := [single_branch; bouquet].

(** [GetSubstitution] of ECMAScript for a match without capture groups:
    [$$] is a dollar sign, [$&] the matched text, [$`] the text before the
    match, [$'] the text after it; any other dollar sign stands for
    itself. *)
Fixpoint GetSubstitution (matched before after replacement : string) : string :=
  match replacement with
  | "" => ""
  | String c rest =>
      if Ascii.eqb c "$" then
        match rest with
        | String d rest' =>
            if Ascii.eqb d "$"
            then String "$" (GetSubstitution matched before after rest')
            else if Ascii.eqb d "&"
            then matched +:+ GetSubstitution matched before after rest'
            else if Ascii.eqb d "`"
            then before +:+ GetSubstitution matched before after rest'
            else if Ascii.eqb d "'"
            then after +:+ GetSubstitution matched before after rest'
            else String "$" (GetSubstitution matched before after rest)
        | "" => String "$" ""
        end
      else String c (GetSubstitution matched before after rest)
  end.

Fixpoint drop_chars (n : nat) (s : string) : string :=
  match n, s with
  | S k, String _ rest => drop_chars k rest
  | _, _ => s
  end.

(** The matches are found from left to right in the subject and do not
    overlap: [skip] counts the characters of the current match that are
    still to be passed, [before] is the part of the subject already
    passed. *)
Fixpoint replace_from (source replacement before s : string) (skip : nat) : string :=
  match s with
  | "" => ""
  | String c rest =>
      match skip with
      | S k => replace_from source replacement (before +:+ String c "") rest k
      | O =>
          if startsWith s source
          then GetSubstitution source before
                 (drop_chars (String.length source) s) replacement
               +:+ replace_from source replacement (before +:+ String c "") rest
                     (String.length source - 1)
          else String c
                 (replace_from source replacement (before +:+ String c "") rest 0)
      end
  end.

(** The characters that stand for themselves in a pattern: printable
    ASCII characters other than the syntax characters of patterns and the
    braces. *)
Definition name_char (c : ascii) : bool :=
  Nat.leb 32 (nat_of_ascii c) && Nat.leb (nat_of_ascii c) 126
  && negb (existsb (Ascii.eqb c) (list_ascii_of_string "^$\.*+?()[]{}|")).

Definition starts_with_digit (s : string) : bool :=
  match s with
  | "" => false
  | String c _ => is_digit c
  end.

(** A name made of such characters that does not start with a digit:
    between braces it does not read as a quantifier. *)
Definition literal_name (name : string) : bool :=
  forallb name_char (list_ascii_of_string name) && negb (starts_with_digit name).

(** The text after the two opening braces of a placeholder: characters
    that stand for themselves, then two closing braces. *)
Fixpoint name_and_braces (s : string) : bool :=
  match s with
  | "" => false
  | String c rest =>
      if String.eqb s "}}" then true else name_char c && name_and_braces rest
  end.

(** The sources [{{name}}] with a literal name.  Such a pattern has no
    operator: braces that do not form a quantifier stand for themselves,
    so the regular expression matches its own text and nothing else. *)
Definition literal_placeholder (source : string) : bool :=
  match source with
  | String c1 (String c2 rest) =>
      Ascii.eqb c1 "{" && Ascii.eqb c2 "{" && negb (starts_with_digit rest)
      && name_and_braces rest
  | _ => false
  end.

(** [subject.replace(new RegExp(source, 'g'), replacement)] for a string
    [replacement].  The model reads the placeholders with a literal name,
    which is what every template of [FLOWER_TEMPLATES] has.  Any other
    source may hold operators of regular expressions or be refused by the
    constructor: there the engine answers. *)
Definition replace_RegExp_g (w : World) (source subject replacement : string)
    : Result string :=
  if literal_placeholder source
  then Ok (replace_from source replacement "" subject 0)
  else RegExp_replace w source subject replacement.

(** The members that every plain object inherits from
    [Object.prototype]. *)
Definition Object_prototype_members : list string :=
  ["constructor"; "hasOwnProperty"; "isPrototypeOf"; "propertyIsEnumerable";
   "toLocaleString"; "toString"; "valueOf"; "__proto__"; "__defineGetter__";
   "__defineSetter__"; "__lookupGetter__"; "__lookupSetter__"].

(** [variables[name]] is a member of [Object.prototype]: the request does
    not bind [name], which names such a member.  [variables] holds the
    properties of the request's own. *)
Definition inherited (variables : gmap string string) (name : string) : bool :=
  match variables !! name with
  | Some _ => false
  | None => existsb (String.eqb name) Object_prototype_members
  end.

(** A name the model reads whatever the request binds: a literal name
    that is no member of [Object.prototype]. *)
Definition plain_name (name : string) : bool :=
  literal_name name
  && negb (existsb (String.eqb name) Object_prototype_members).

(** [processTemplate]: the variables are substituted one after the other;
    a substitution that raises ends the loop.  [variables[name] ||
    defaultValue] is the value the request gives to [name] when it is not
    empty and the default value otherwise, unless [variables[name]] is an
    inherited member, which is no string: there the engine answers. *)
Definition processTemplate (w : World) (template : FlowerTemplate)
    (variables : gmap string string) : Result string :=
  fold_left
    (λ processed variable,
       match processed with
       | Throw message => Throw message
       | Ok processedPrompt =>
           if inherited variables (var_name variable)
           then member_replace w (var_name variable) processedPrompt
           else
             let value :=
               if truthy (variables !! var_name variable)
               then default "" (variables !! var_name variable)
               else var_defaultValue variable in
             let placeholder := "{{" +:+ var_name variable +:+ "}}" in
             replace_RegExp_g w placeholder processedPrompt value
       end)
    (tpl_variables template)
    (Ok (tpl_promptTemplate template)).

(** ** [server/lib/openai.ts] *)

Definition generateImage (w : World) (task : nat) (params : GenerateParams)
    (apiKey : string) : IO (list string) :=
  try_catch
    (let requestBody := generate_requestBody params in
     response ← call (ImagesGenerate apiKey requestBody)
                  (images_generate w task apiKey requestBody);
     lift (normalize_response response))
    (λ message, throw ("Failed to generate image: " +:+ message)).

Definition editImage (w : World) (task : nat) (imageFiles : list Buffer)
    (maskFile : option Buffer) (params : EditParams)
    (apiKey : string) : IO (list string) :=
  try_catch
    (let requestBody := edit_requestBody imageFiles maskFile params in
     response ← call (ImagesEdit apiKey requestBody)
                  (images_edit w task apiKey requestBody);
     lift (normalize_response response))
    (λ message, throw ("Failed to edit image: " +:+ message)).

Definition createImageVariations (w : World) (task : nat) (imageFile : Buffer)
    (params : VariationParams) (apiKey : string) : IO (list string) :=
  try_catch
    (let requestBody := variation_requestBody imageFile params in
     response ← call (ImagesCreateVariation apiKey requestBody)
                  (images_createVariation w task apiKey requestBody);
     lift (normalize_response response))
    (λ message, throw ("Failed to create image variations: " +:+ message)).

(** ** [server/lib/gemini.ts] *)

Definition description_request (prompt : string) : string :=
  "Create a detailed image generation prompt based on this request: "
  +:+ prompt +:+ ". " +:+ LF
  +:+ "          Include specific details about composition, lighting, colors, style, and technical specifications."
  +:+ LF
  +:+ "          Make it suitable for DALL-E or similar image generation models.".

(** [createGeminiService(apiKey).generateImageDescription(prompt)]: the
    routes pass no options, so no reference image is attached. *)
Definition generateImageDescription (w : World) (task : nat) (apiKey : string)
    (prompt : string) : IO string :=
  try_catch
    (let parts := [Text (description_request prompt)] in
     call (GenerateContent apiKey "gemini-2.5-flash" parts)
       (generateContent w task apiKey "gemini-2.5-flash" parts))
    (λ message, throw ("Gemini description generation failed: " +:+ message)).

(** [GeminiService.generateImage]: the call to the image model, which no
    route uses. *)
Definition Gemini_generateImage (w : World) (task : nat) (apiKey : string)
    (prompt : string) : IO (list string) :=
  try_catch
    (let parts := [Text prompt] in
     _ ← call (GenerateContent apiKey "gemini-2.5-flash-image-preview" parts)
           (generateContent w task apiKey "gemini-2.5-flash-image-preview" parts);
     throw "Gemini image generation not yet fully implemented. Please use OpenAI models for now.")
    (λ message, throw ("Gemini generation failed: " +:+ message)).

(** ** [server/routes.ts] *)

(** [process.env] *)
Record Env := mkEnv {
  OPENAI_API_KEY : option string;
  GEMINI_API_KEY : option string
}.

Record BatchFlowerResult := mkBatchFlowerResult {
  r_referenceImageId : string;
  r_variables : gmap string string;
  r_processedPrompt : string;
  r_imageUrls : list string;
  r_error : option string
}.

Inductive ResponseBody :=
| Message (message : string)
| ImageUrls (imageUrls : list string)
| Results (results : list BatchFlowerResult).

(** [res.status(status).json(body)] *)
Record HttpResponse := mkResponse {
  status : nat;
  body : ResponseBody
}.

(** [schema.parse(data)]: raises the [ZodError] of the issues. *)
Definition parse {A} (w : World) (schema : json → SafeParse A) (data : json) : IO A :=
  match schema data with
  | ParseOk validatedData => mret validatedData
  | ParseError issues => throw (ZodError_message w issues)
  end.

(** [!apiKey || !apiKey.startsWith("sk-")] is false. *)
Definition configured (apiKey : option string) : bool :=
  truthy apiKey && startsWith (default "" apiKey) "sk-".

(** [{ ...fields, prompt, model }] as the [params] of [generateImage]. *)
Definition openaiData (fields : ImageFields) (prompt : string) (model : Model)
    : GenerateParams :=
  mkGenerateParams prompt model (f_size fields) (f_n fields) (f_quality fields)
    (f_style fields) (f_response_format fields) (f_output_format fields)
    (f_output_compression fields) (f_background fields) (f_moderation fields)
    (f_user fields).

(** [app.post("/api/generate", ...)] *)
Definition api_generate (w : World) (env : Env) (data : json) : IO HttpResponse :=
  try_catch
    (validatedData ← parse w generateImageSchema data;
     if negb (configured (OPENAI_API_KEY env))
     then mret (mkResponse 500 (Message "OpenAI API key not configured on server"))
     else
       let apiKey := default "" (OPENAI_API_KEY env) in
       match f_model (gi_fields validatedData) with
       | GeminiFlashImagePreview =>
           mret (mkResponse 400
                   (Message "Gemini model is only available for flower generation"))
       | OpenAIModel model =>
           imageUrls ← generateImage w 0
                         (openaiData (gi_fields validatedData)
                            (gi_prompt validatedData) model) apiKey;
           mret (mkResponse 200 (ImageUrls imageUrls))
       end)
    (λ message,
       mret (mkResponse 500
               (Message (or_else message
                  "Failed to generate image. Please check your prompt and try again.")))).

(** The branch on the model common to the two flower routes, once the
    secondary key is known to be set. *)
Definition enhance_and_generate (w : World) (task : nat) (geminiKey apiKey : string)
    (fields : ImageFields) (processedPrompt : string) : IO (list string) :=
  enhancedPrompt ← generateImageDescription w task geminiKey processedPrompt;
  generateImage w task (openaiData fields enhancedPrompt GptImage1) apiKey.

(** [app.post("/api/flower-generate", ...)] *)
Definition api_flower_generate (w : World) (env : Env) (data : json) : IO HttpResponse :=
  try_catch
    (validatedData ← parse w flowerGenerationSchema data;
     if negb (configured (OPENAI_API_KEY env))
     then mret (mkResponse 500 (Message "OpenAI API key not configured on server"))
     else
       let apiKey := default "" (OPENAI_API_KEY env) in
       match List.find (λ t, String.eqb (tpl_id t) (fg_templateId validatedData))
               FLOWER_TEMPLATES with
       | None => mret (mkResponse 400 (Message "Invalid template ID"))
       | Some template =>
           processedPrompt ← lift (processTemplate w template (fg_variables validatedData));
           match f_model (fg_fields validatedData) with
           | GeminiFlashImagePreview =>
               if negb (truthy (GEMINI_API_KEY env))
               then mret (mkResponse 500
                            (Message "Gemini API key not configured on server"))
               else
                 imageUrls ← enhance_and_generate w 0
                               (default "" (GEMINI_API_KEY env)) apiKey
                               (fg_fields validatedData) processedPrompt;
                 mret (mkResponse 200 (ImageUrls imageUrls))
           | OpenAIModel model =>
               imageUrls ← generateImage w 0
                             (openaiData (fg_fields validatedData) processedPrompt model)
                             apiKey;
               mret (mkResponse 200 (ImageUrls imageUrls))
           end
       end)
    (λ message,
       mret (mkResponse 500
               (Message (or_else message
                  "Failed to generate flower image. Please check your settings and try again.")))).

(** The [try] block of [processGenerationTask]. *)
Definition generation_attempt (w : World) (env : Env) (template : FlowerTemplate)
    (fields : ImageFields) (apiKey : string) (task : nat) (item : BatchFlowerItem)
    : IO BatchFlowerResult :=
  processedPrompt ← lift (processTemplate w template (item_variables item));
  imageUrls ←
    match f_model fields with
    | GeminiFlashImagePreview =>
        if negb (truthy (GEMINI_API_KEY env))
        then throw "Gemini API key not configured on server"
        else enhance_and_generate w task (default "" (GEMINI_API_KEY env)) apiKey
               fields processedPrompt
    | OpenAIModel model =>
        generateImage w task (openaiData fields processedPrompt model) apiKey
    end;
  mret (mkBatchFlowerResult (referenceImageId item) (item_variables item)
          processedPrompt imageUrls None).

(** [processGenerationTask]: the [catch] block computes the prompt again,
    outside of any [try]. *)
Definition processGenerationTask (w : World) (env : Env) (template : FlowerTemplate)
    (fields : ImageFields) (apiKey : string) (task : nat) (item : BatchFlowerItem)
    : IO BatchFlowerResult :=
  try_catch
    (generation_attempt w env template fields apiKey task item)
    (λ message,
       processedPrompt ← lift (processTemplate w template (item_variables item));
       mret (mkBatchFlowerResult (referenceImageId item) (item_variables item)
               processedPrompt
               []
               (Some (or_else message "Failed to generate image")))).

(** [Promise.all(items.map(f))]: [map] starts every task, and each runs
    to its end whatever becomes of the others; the results come in the
    order of the items.  A task that raises makes the whole raise; the
    tasks of this server raise, if at all, before their first [await], so
    that the failure of the first of them in the order of the items is the
    one that [Promise.all] passes on. *)
Fixpoint Promise_all_map {A B} (f : nat → A → IO B) (task : nat) (items : list A)
    : IO (list B) :=
  match items with
  | [] => mret []
  | item :: rest => λ log,
      match f task item log with
      | (Ok result, log') =>
          (results ← Promise_all_map f (S task) rest;
           mret (result :: results)) log'
      | (Throw message, log') =>
          (Throw message, snd (Promise_all_map f (S task) rest log'))
      end
  end.

(** [app.post("/api/batch-flower-generate", ...)] *)
Definition api_batch_flower_generate (w : World) (env : Env) (data : json)
    : IO HttpResponse :=
  try_catch
    (validatedData ← parse w batchFlowerGenerationSchema data;
     if negb (configured (OPENAI_API_KEY env))
     then mret (mkResponse 500 (Message "OpenAI API key not configured on server"))
     else
       let apiKey := default "" (OPENAI_API_KEY env) in
       match List.find (λ t, String.eqb (tpl_id t) (bf_templateId validatedData))
               FLOWER_TEMPLATES with
       | None => mret (mkResponse 400 (Message "Invalid template ID"))
       | Some template =>
           results ← Promise_all_map
                       (processGenerationTask w env template
                          (bf_fields validatedData) apiKey)
                       0 (bf_items validatedData);
           mret (mkResponse 200 (Results results))
       end)
    (λ message,
       mret (mkResponse 500
               (Message (or_else message
                  "Failed to generate batch flower images. Please check your settings and try again.")))).

(** An uploaded file as multer hands it over. *)
Record UploadedFile := mkUploadedFile {
  fieldname : string;
  originalname : string;
  mimetype : string;
  buffer : Buffer
}.

(** The loop of [/api/edit] over [originalImage0] .. [originalImage15]:
    the buffers of the fields that hold a file, in the order of the
    fields. *)
Definition originalImageBuffers (files : gmap string (list UploadedFile)) : list Buffer :=
  omap (λ i, buffer <$> (files !! ("originalImage" +:+ index_str i) ≫= head))
    (seq 0 16).

(** [files.maskImage && files.maskImage[0] ? files.maskImage[0].buffer : null] *)
Definition maskImageBuffer (files : gmap string (list UploadedFile)) : option Buffer :=
  buffer <$> (files !! "maskImage" ≫= head).

(** ** Vocabulary of the specification *)

(** The optional properties of a generation request. *)
Definition optional_keys : list string :=
  ["quality"; "style"; "response_format"; "output_format";
   "output_compression"; "background"; "moderation"; "user"].

(** The optional properties each model accepts. *)
Definition applicable (model : Model) : list string :=
  match model with
  | DallE2 => ["response_format"; "user"]
  | DallE3 => ["quality"; "style"; "response_format"; "user"]
  | GptImage1 =>
      ["quality"; "output_format"; "output_compression"; "background";
       "moderation"; "user"]
  end.

(** The quality words each model accepts. *)
Definition quality_vocabulary (model : Model) : list string :=
  match model with
  | DallE2 => []
  | DallE3 => ["standard"; "hd"]
  | GptImage1 => ["auto"; "high"; "medium"; "low"]
  end.

(** A field that is set to a non-empty string. *)
Definition present (field : option string) (s : string) : Prop :=
  field = Some s ∧ s ≠ "".

(** A field that is missing or set to the empty string. *)
Definition blank (field : option string) : Prop :=
  field = None ∨ field = Some "".

(** The string the normaliser owes for an image: its URL when it has one,
    else the data URL of its base64 payload. *)
Inductive emitted (image : Image) : string → Prop :=
| emitted_url u :
    present (url image) u → emitted image u
| emitted_b64_json b :
    blank (url image) → present (b64_json image) b →
    emitted image ("data:image/png;base64," +:+ b).

(** An image with neither a URL nor a payload. *)
Definition unusable (image : Image) : Prop :=
  blank (url image) ∧ blank (b64_json image).

(** The first four bytes are 89 50 4E 47. *)
Definition png_signature (bytes : Buffer) : Prop :=
  ∃ rest, bytes = x89 :: x50 :: x4e :: x47 :: rest.

(** The first three bytes are FF D8 FF and the fourth is E0 .. EF. *)
Definition jpeg_signature (bytes : Buffer) : Prop :=
  ∃ b rest, bytes = xff :: xd8 :: xff :: b :: rest
            ∧ (Byte.to_N b / 16 = 14)%N.

(** What a library function returns for a reply of the image API: the
    normalised list, or the failure under the function's prefix. *)
Definition wrap (prefix : string) (reply : Result (option (list Image)))
    : Result (list string) :=
  match reply with
  | Ok data =>
      match normalize_response data with
      | Ok imageUrls => Ok imageUrls
      | Throw message => Throw (prefix +:+ message)
      end
  | Throw message => Throw (prefix +:+ message)
  end.

(** The text returned by [generateImageDescription] for a reply of the text
    model. *)
Definition described (reply : Result string) : Result string :=
  match reply with
  | Ok text => Ok text
  | Throw message => Throw ("Gemini description generation failed: " +:+ message)
  end.

(** A schema refuses an input. *)
Definition rejected {A} (a : SafeParse A) : Prop := ∃ issues, a = ParseError issues.





(** ** Sample requests and replies *)

Definition sample_image : Image :=
  mkImage (Some "https://images.example/1.png") None.

(** An engine that refuses the pattern with an unclosed parenthesis, as
    every engine does, and finds no match of any other pattern it is asked
    about. *)
Definition sample_RegExp_replace (source subject replacement : string)
    : Result string :=
  if String.eqb source "{{(}}"
  then Throw "Invalid regular expression: /{{(}}/g: Unterminated group"
  else Ok subject.

(** Every vendor answers; the image API refuses the second task of a
    batch. *)
Definition sample_world : World :=
  mkWorld
    (λ task _ _,
       if Nat.eqb task 1 then Throw "429 Rate limit exceeded"
       else Ok (Some [sample_image]))
    (λ _ _ _, Ok (Some [sample_image]))
    (λ _ _ _, Ok (Some [sample_image]))
    (λ _ _ _ _, Ok "A single yellow lily on a white background")
    (λ _, "[ zod issues ]")
    sample_RegExp_replace
    (λ _ subject, Ok subject)
    (λ key, "Cannot read properties of undefined (reading '" +:+ key +:+ "')").

Definition sample_env : Env := mkEnv (Some "sk-primary") (Some "secondary-key").


Definition sample_variables (flower : string) : json :=
  JSObject [("flower_name", JSString flower)].

(** A flower request that selects the secondary vendor's model. *)
Definition sample_flower_request : json :=
  JSObject [("templateId", JSString "single-branch");
            ("variables", sample_variables "Red Rose");
            ("model", JSString "gemini-2.5-flash-image-preview")].

Definition sample_item (reference flower : string) : json :=
  JSObject [("referenceImageId", JSString reference);
            ("variables", sample_variables flower)].

(** A batch of three items. *)
Definition sample_batch_request : json :=
  JSObject [("templateId", JSString "bouquet");
            ("items", JSArray [sample_item "ref-1" "Red Rose";
                               sample_item "ref-2" "White Tulip";
                               sample_item "ref-3" "Blue Iris"]);
            ("model", JSString "gpt-image-1")].

(** The defaults the two flower schemas give to a request that names the
    model only. *)
Definition sample_fields (model : SchemaModel) : ImageFields :=
  mkImageFields model "1024x1024" 1%Q None None None None None None None None.

Definition sample_flower_validated : FlowerGenerationRequest :=
  mkFlowerGenerationRequest "single-branch" {["flower_name" := "Red Rose"]}
    (sample_fields GeminiFlashImagePreview) None.

Definition sample_batch_validated : BatchFlowerGenerationRequest :=
  mkBatchFlowerGenerationRequest "bouquet"
    [mkBatchFlowerItem "ref-1" {["flower_name" := "Red Rose"]};
     mkBatchFlowerItem "ref-2" {["flower_name" := "White Tulip"]};
     mkBatchFlowerItem "ref-3" {["flower_name" := "Blue Iris"]}]
    (sample_fields (OpenAIModel GptImage1)).

(** The scenarios of the specification. *)
Definition scenario_generate : json :=
  JSObject [("prompt", JSString "x"); ("model", JSString "dall-e-3");
            ("n", JSNumber 5%Q); ("size", JSString "1024x1024")].

Definition scenario_edit : EditParams :=
  mkEditParams "add a hat" EditGptImage1 "1024x1024" 1%Q None None None None
    None None.

Definition scenario_variation : VariationParams :=
  mkVariationParams 3%Q S512 Url None.

(** The image API answers a variation request with three URLs. *)
Definition scenario_world : World :=
  mkWorld
    (λ _ _ _, Ok (Some [sample_image]))
    (λ _ _ _, Ok (Some [sample_image]))
    (λ _ _ _, Ok (Some [mkImage (Some "https://images.example/a.png") None;
                        mkImage (Some "https://images.example/b.png") None;
                        mkImage (Some "https://images.example/c.png") None]))
    (λ _ _ _ _, Ok "A single yellow lily on a white background")
    (λ _, "[ zod issues ]")
    sample_RegExp_replace
    (λ _ subject, Ok subject)
    (λ key, "Cannot read properties of undefined (reading '" +:+ key +:+ "')").

(** A request for gpt-image-1 that carries a response format and a
    style. *)
Definition sample_generate_params : GenerateParams :=
  mkGenerateParams "a lily" GptImage1 "1024x1024" 2%Q (Some QHigh) (Some Vivid)
    (Some B64Json) (Some Webp) (Some 80%Q) (Some BgTransparent) (Some ModLow)
    (Some "user-42").

Definition sample_variation_params : VariationParams :=
  mkVariationParams 2%Q S1024 B64Json (Some "user-42").

(** ** The upload filter of [server/routes.ts] *)

(** [fileFilter] of the multer configuration: [cb(null, true)] is [Ok],
    [cb(new Error(message))] is [Throw]. *)
Definition fileFilter (file : UploadedFile) : Result unit :=
  if String.eqb (fieldname file) "originalImage"
     || String.eqb (fieldname file) "variationImage"
     || startsWith (fieldname file) "originalImage"
  then
    if startsWith (fieldname file) "originalImage"
       && negb (String.eqb (fieldname file) "originalImage")
    then
      if existsb (String.eqb (mimetype file))
           ["image/png"; "image/webp"; "image/jpeg"]
      then Ok tt
      else Throw "Only PNG, WEBP, and JPEG files are allowed for edit images"
    else
      if String.eqb (mimetype file) "image/png"
      then Ok tt
      else Throw "Only PNG files are allowed for original and variation images"
  else if String.eqb (fieldname file) "maskImage"
  then
    if startsWith (mimetype file) "image/"
    then Ok tt
    else Throw "Only image files are allowed for masks"
  else Throw "Unexpected field".

(** ** The form fields of the multipart routes *)

(** The three-byte UTF-8 forms of the white space and line terminators of
    ECMAScript above U+00FF: U+1680, U+2000 to U+200A, U+2028, U+2029,
    U+202F, U+205F, U+3000 and U+FEFF. *)
Definition wide_space (b1 b2 b3 : nat) : bool :=
  (Nat.eqb b1 225 && Nat.eqb b2 154 && Nat.eqb b3 128)
  || (Nat.eqb b1 226 && Nat.eqb b2 128
      && ((Nat.leb 128 b3 && Nat.leb b3 138) || Nat.eqb b3 168
          || Nat.eqb b3 169 || Nat.eqb b3 175))
  || (Nat.eqb b1 226 && Nat.eqb b2 129 && Nat.eqb b3 159)
  || (Nat.eqb b1 227 && Nat.eqb b2 128 && Nat.eqb b3 128)
  || (Nat.eqb b1 239 && Nat.eqb b2 187 && Nat.eqb b3 191).

(** The leading white space [parseInt] passes over: U+0009 to U+000D,
    the space, U+00A0 (bytes C2 A0) and the wide ones. *)
Fixpoint trimStart (s : string) : string :=
  match s with
  | "" => ""
  | String c1 rest1 =>
      let b1 := nat_of_ascii c1 in
      if (Nat.leb 9 b1 && Nat.leb b1 13) || Nat.eqb b1 32 then trimStart rest1
      else
        match rest1 with
        | "" => s
        | String c2 rest2 =>
            let b2 := nat_of_ascii c2 in
            if Nat.eqb b1 194 && Nat.eqb b2 160 then trimStart rest2
            else
              match rest2 with
              | "" => s
              | String c3 rest3 =>
                  if wide_space b1 b2 (nat_of_ascii c3) then trimStart rest3
                  else s
              end
        end
  end.

(** The value of the longest run of decimal digits at the start of [s],
    continuing [acc]; [None] when there is no digit at all. *)
Fixpoint digits_value (s : string) (acc : option Z) : option Z :=
  match s with
  | "" => acc
  | String c rest =>
      if is_digit c
      then digits_value rest
             (Some (10 * default 0%Z acc + Z.of_nat (nat_of_ascii c - 48))%Z)
      else acc
  end.

(** The results of [parseInt]: [NaN], an integer that is a double, or an
    infinity. *)
Inductive ParsedInteger :=
| NaN
| Integer (z : Z)
| Infinity (negative : bool).

(** The double nearest to a natural number [m], ties going to the even
    significand: [m] itself below 2^53; beyond, [m] rounded to 53
    significant bits; [None], for infinity, when the rounding reaches
    2^1024. *)
Definition nearest_double (m : Z) : option Z :=
  if (m <? 2 ^ 53)%Z then Some m
  else
    let e := (Z.log2 m - 52)%Z in
    let q := (m / 2 ^ e)%Z in
    let r := (m mod 2 ^ e)%Z in
    let q' :=
      if (2 ^ (e - 1) <? r)%Z || ((r =? 2 ^ (e - 1))%Z && Z.odd q)
      then (q + 1)%Z else q in
    if (2 ^ 1024 <=? q' * 2 ^ e)%Z then None else Some (q' * 2 ^ e)%Z.

(** The Number value of the integer of magnitude [m]; a zero has no sign
    in the model. *)
Definition to_Number (negative : bool) (m : Z) : ParsedInteger :=
  match nearest_double m with
  | Some d => Integer (if negative then - d else d)
  | None => Infinity negative
  end.

(** [parseInt(s, 10)]: the Number value of the integer that the leading
    digits denote, correctly rounded as V8 does it. *)
Definition parseInt (s : string) : ParsedInteger :=
  match trimStart s with
  | "" => NaN
  | String c rest =>
      if Ascii.eqb c "-"
      then from_option (to_Number true) NaN (digits_value rest None)
      else if Ascii.eqb c "+"
      then from_option (to_Number false) NaN (digits_value rest None)
      else from_option (to_Number false) NaN (digits_value (String c rest) None)
  end.

(** [{ ...data, n: data.n ? parseInt(data.n, 10) : 1,
       size: data.size || "1024x1024" }] for the text fields [data] of a
    multipart request (each field given once, under a plain name). *)
Record TransformedData := mkTransformedData {
  td_fields : gmap string string;
  td_n : ParsedInteger;
  td_size : string
}.

Definition transform (data : gmap string string) : TransformedData :=
  mkTransformedData data
    (if truthy (data !! "n")
     then parseInt (default "" (data !! "n"))
     else Integer 1)
    (if truthy (data !! "size") then default "" (data !! "size")
     else "1024x1024").

(** The text of a form field as an input of a schema. *)
Definition field (data : TransformedData) (k : string) : option json :=
  JSString <$> td_fields data !! k.

(** [z.number().min(lo).max(hi)] on the transformed [n]: [NaN] is no
    number for zod; an infinity is one, beyond the bound on its side. *)
Definition z_number_or_NaN (lo hi : number) (path : list PathSegment)
    (n : ParsedInteger) : SafeParse number :=
  match n with
  | Integer z => z_number_min_max lo hi path (Some (JSNumber (inject_Z z)))
  | NaN => issue invalid_type path None
  | Infinity false => issue too_big path None
  | Infinity true => issue too_small path None
  end.

Definition edit_model_members : list (string * EditModel) :=
  [("dall-e-2", EditDallE2); ("gpt-image-1", EditGptImage1)].

Definition edit_quality_members : list (string * Quality) :=
  [("standard", QStandard); ("high", QHigh); ("medium", QMedium);
   ("low", QLow); ("auto", QAuto)].

Definition variation_size_members : list (string * VariationSize) :=
  [("256x256", S256); ("512x512", S512); ("1024x1024", S1024)].

(** [editImageSchema], on the transformed data of [/api/edit]. *)
Definition editImageSchema (data : TransformedData) : SafeParse EditParams :=
  parse_map
    (λ '(prompt, (model, (size, (n, (quality, (response_format,
        (output_format, (output_compression, (background, user))))))))),
       mkEditParams prompt model size n quality response_format output_format
         output_compression background user)
    (both (z_string_min1 "Edit prompt is required" [Key "prompt"] (field data "prompt"))
    (both (z_default (z_enum edit_model_members) EditDallE2 [Key "model"]
             (field data "model"))
    (both (z_string [Key "size"] (Some (JSString (td_size data))))
    (both (z_number_or_NaN 1%Q 10%Q [Key "n"] (td_n data))
    (both (z_optional (z_enum edit_quality_members) [Key "quality"]
             (field data "quality"))
    (both (z_optional (z_enum response_format_members) [Key "response_format"]
             (field data "response_format"))
    (both (z_optional (z_enum output_format_members) [Key "output_format"]
             (field data "output_format"))
    (both (z_optional (z_number_min_max 0%Q 100%Q) [Key "output_compression"]
             (field data "output_compression"))
    (both (z_optional (z_enum background_members) [Key "background"]
             (field data "background"))
          (z_optional z_string [Key "user"] (field data "user"))))))))))).

(** [createVariationsSchema], on the transformed data of
    [/api/variations]. *)
Definition createVariationsSchema (data : TransformedData)
    : SafeParse VariationParams :=
  parse_map
    (λ '(n, (size, (response_format, user))),
       mkVariationParams n size response_format user)
    (both (z_number_or_NaN 1%Q 10%Q [Key "n"] (td_n data))
    (both (z_enum variation_size_members [Key "size"]
             (Some (JSString (td_size data))))
    (both (z_default (z_enum response_format_members) Url [Key "response_format"]
             (field data "response_format"))
          (z_optional z_string [Key "user"] (field data "user"))))).

(** [schema.parse(data)] for the data of any route. *)
Definition parse_with {D A} (w : World) (schema : D → SafeParse A) (data : D) : IO A :=
  match schema data with
  | ParseOk validatedData => mret validatedData
  | ParseError issues => throw (ZodError_message w issues)
  end.

(** [app.post("/api/edit", ...)] for a request whose body [editData] is
    an object of text fields.  [files] is [req.files]: the files multer
    has let through, field by field, for a multipart request; [None], for
    [undefined], for any other request, where reading [files[fieldName]]
    raises. *)
Definition api_edit (w : World) (env : Env) (editData : gmap string string)
    (files : option (gmap string (list UploadedFile))) : IO HttpResponse :=
  try_catch
    (validatedData ← parse_with w editImageSchema (transform editData);
     if negb (configured (OPENAI_API_KEY env))
     then mret (mkResponse 500 (Message "OpenAI API key not configured on server"))
     else
       let apiKey := default "" (OPENAI_API_KEY env) in
       match files with
       | None => throw (TypeError_message w "originalImage0")
       | Some files =>
           if Nat.eqb (length (originalImageBuffers files)) 0
           then mret (mkResponse 400
                        (Message "At least one original image is required"))
           else
             editedImageUrls ← editImage w 0 (originalImageBuffers files)
                                 (maskImageBuffer files) validatedData apiKey;
             mret (mkResponse 200 (ImageUrls editedImageUrls))
       end)
    (λ message,
       mret (mkResponse 500
               (Message (or_else message
                  "Failed to edit image. Please check your files and prompt.")))).

(** [app.post("/api/variations", ...)]; [file] is [req.file]. *)
Definition api_variations (w : World) (env : Env)
    (variationData : gmap string string) (file : option UploadedFile)
    : IO HttpResponse :=
  try_catch
    (validatedData ← parse_with w createVariationsSchema (transform variationData);
     if negb (configured (OPENAI_API_KEY env))
     then mret (mkResponse 500 (Message "OpenAI API key not configured on server"))
     else
       let apiKey := default "" (OPENAI_API_KEY env) in
       match file with
       | None => mret (mkResponse 400 (Message "Image file is required"))
       | Some f =>
           variationUrls ← createImageVariations w 0 (buffer f) validatedData apiKey;
           mret (mkResponse 200 (ImageUrls variationUrls))
       end)
    (λ message,
       mret (mkResponse 500
               (Message (or_else message
                  "Failed to create image variations. Please check your image file.")))).

(** A parse that fails reports something. *)
Definition reports {A} (a : SafeParse A) : Prop :=
  ∀ issues, a = ParseError issues → issues ≠ [].

(** The character [c] does not occur in [s]. *)
Definition lacks (c : ascii) (s : string) : bool :=
  forallb (λ x, negb (Ascii.eqb x c)) (list_ascii_of_string s).

(** The text [rest] does not go on with a digit. *)
Definition ends_numeral (rest : string) : bool :=
  match rest with
  | "" => true
  | String c _ => negb (is_digit c)
  end.

(** A route answers: it returns a response with one of the three statuses
    of the server and only adds calls to the log, none when the status is
    400. *)
Definition answers (run : IO HttpResponse) : Prop :=
  ∀ log, ∃ response calls,
    run log = (Ok response, log ++ calls)
    ∧ status response ∈ [200; 400; 500]%nat
    ∧ (status response = 400%nat → calls = []).

(** ** Template texts in pieces *)

(** A template text cut into the plain texts and the placeholders it is
    made of. *)
Inductive Segment :=
| Plain (text : string)
| Placeholder (name : string).

Definition segment_text (segment : Segment) : string :=
  match segment with
  | Plain text => text
  | Placeholder name => "{{" +:+ name +:+ "}}"
  end.

Definition segments_text (segments : list Segment) : string :=
  foldr (λ segment text, segment_text segment +:+ text) "" segments.

(** The plain texts have no opening brace; the names are made of
    characters that stand for themselves. *)
Definition well_cut (segment : Segment) : bool :=
  match segment with
  | Plain text => lacks "{" text
  | Placeholder name => forallb name_char (list_ascii_of_string name)
  end.

(** The placeholders of [name] give way to [value]. *)
Definition fill (name value : string) (segment : Segment) : Segment :=
  match segment with
  | Plain text => Plain text
  | Placeholder m => if String.eqb m name then Plain value else Placeholder m
  end.

(** The value a request gives to a variable: its own when it is not empty,
    the default one otherwise. *)
Definition value_of (variables : gmap string string) (variable : FlowerVariable)
    : string :=
  if truthy (variables !! var_name variable)
  then default "" (variables !! var_name variable)
  else var_defaultValue variable.

(** A template text filled in: the placeholder of a name becomes the
    value of the first variable of that name; a placeholder that names no
    variable stays. *)
Definition filled (template_variables : list FlowerVariable)
    (variables : gmap string string) (segment : Segment) : Segment :=
  match segment with
  | Plain text => Plain text
  | Placeholder name =>
      match List.find (λ v, String.eqb name (var_name v)) template_variables with
      | Some v => Plain (value_of variables v)
      | None => Placeholder name
      end
  end.

(** The name of a placeholder, read up to its closing braces. *)
Fixpoint read_name (s : string) : option string :=
  match s with
  | "" => None
  | String c rest =>
      if startsWith s "}}" then Some ""
      else if name_char c then String c <$> read_name rest else None
  end.

(** A text cut at its placeholders: [plain] is the plain text read so
    far, [skip] the number of characters of the current placeholder that
    are still to be passed. *)
Fixpoint cut (s plain : string) (skip : nat) : list Segment :=
  match s with
  | "" => [Plain plain]
  | String c rest =>
      match skip with
      | S k => cut rest plain k
      | O =>
          match (if startsWith s "{{" then read_name (drop_chars 2 s)
                 else None) with
          | Some name =>
              Plain plain :: Placeholder name
              :: cut rest "" (String.length name + 3)
          | None => cut rest (plain +:+ String c "") 0
          end
      end
  end.

(** The texts of the two templates, cut. *)
Definition single_branch_segments : list Segment :=
  Eval vm_compute in cut (tpl_promptTemplate single_branch) "" 0.

Definition bouquet_segments : list Segment :=
  Eval vm_compute in cut (tpl_promptTemplate bouquet) "" 0.

(** ** Further sample requests, forms and uploads *)

(** What [generateImageSchema] makes of [scenario_generate]. *)
Definition scenario_generate_validated : GenerateImageRequest :=
  mkGenerateImageRequest "x"
    (mkImageFields (OpenAIModel DallE3) "1024x1024" 5%Q None None None None None
       None None None).

(** A flower request for a template that does not exist. *)
Definition unknown_template_request : json :=
  JSObject [("templateId", JSString "rose-garden");
            ("variables", sample_variables "Red Rose")].

Definition unknown_template_validated : FlowerGenerationRequest :=
  mkFlowerGenerationRequest "rose-garden" {["flower_name" := "Red Rose"]}
    (sample_fields (OpenAIModel DallE2)) None.






(** The text fields of an edit form: two images of a hat. *)
Definition sample_edit_form : gmap string string :=
  {["prompt" := "add a hat"; "n" := "2"]}.

Definition sample_edit_validated : EditParams :=
  mkEditParams "add a hat" EditDallE2 "1024x1024" 2%Q None None None None None
    None.

(** An upload that starts with the PNG signature. *)
Definition sample_upload (name : string) : UploadedFile :=
  mkUploadedFile name "lily.png" "image/png"
    [x89; x50; x4e; x47; x0d; x0a; x1a; x0a].

(** The files of an edit form: an image under the fourth field and a
    mask. *)
Definition sample_uploads : gmap string (list UploadedFile) :=
  {["originalImage3" := [sample_upload "originalImage3"];
    "maskImage" := [sample_upload "maskImage"]]}.

(** What [createVariationsSchema] makes of a form that asks for two
    variations. *)
Definition sample_variation_validated : VariationParams :=
  mkVariationParams 2%Q S1024 Url None.

(** * Properties *)

(** ** Lookups in a request body under construction *)

Section frames.
Context {A : Type}.
Implicit Types (rb : gmap string jsval) (k : string).

Lemma lookup_set_opt_ne k k' (str : A → string) (v : option A) rb :
  k' ≠ k → set_opt k' str v rb !! k = rb !! k.
Proof. intros Hne. destruct v; simpl; [by rewrite lookup_insert_ne|done]. Qed.

Lemma lookup_set_opt_eq k (str : A → string) (v : option A) rb :
  rb !! k = None → set_opt k str v rb !! k = JStr ∘ str <$> v.
Proof. intros Hk. destruct v; simpl; [by rewrite lookup_insert_eq|done]. Qed.

Lemma lookup_set_quality_ne k allowed v rb :
  k ≠ "quality" → set_quality allowed v rb !! k = rb !! k.
Proof.
  intros Hne. unfold set_quality. repeat case_match; try done.
  by rewrite lookup_insert_ne.
Qed.

Lemma lookup_set_output_compression_ne k v rb :
  k ≠ "output_compression" → set_output_compression v rb !! k = rb !! k.
Proof. intros Hne. destruct v; simpl; [by rewrite lookup_insert_ne|done]. Qed.

Lemma lookup_set_user_ne k v rb :
  k ≠ "user" → set_user v rb !! k = rb !! k.
Proof.
  intros Hne. unfold set_user. case_match; [by rewrite lookup_insert_ne|done].
Qed.

Lemma lookup_set_mask_ne k mask rb :
  k ≠ "mask" → set_mask mask rb !! k = rb !! k.
Proof. intros Hne. destruct mask; simpl; [by rewrite lookup_insert_ne|done]. Qed.
End frames.

(** Pushes a lookup through the steps that write other keys. *)
Ltac frame :=
  repeat first
    [ rewrite lookup_set_user_ne by done
    | rewrite lookup_set_opt_ne by done
    | rewrite lookup_set_quality_ne by done
    | rewrite lookup_set_output_compression_ne by done
    | rewrite lookup_set_mask_ne by done
    | rewrite lookup_insert_ne by done ].

Lemma truthy_Some (v : option string) :
  truthy v = true ↔ ∃ s, v = Some s ∧ s ≠ "".
Proof.
  destruct v as [s|]; simpl.
  - rewrite negb_true_iff, String.eqb_neq. split.
    + intros Hs. by exists s.
    + by intros (s' & [= ->] & Hs).
  - split; [done|]. by intros (s' & [=] & _).
Qed.

(** The value stored under an optional key is a non-empty string or a
    number. *)
Ltac nonempty_value :=
  match goal with
  | |- JNum _ ≠ _ => done
  | H : truthy ?v = true |- JStr (default "" ?v) ≠ JStr "" =>
      let s := fresh "s" in
      let Hs := fresh "Hs" in
      apply truthy_Some in H as (s & -> & Hs); simpl; congruence
  | |- JStr (_ ?a) ≠ JStr "" => by destruct a
  end.

(** ** What each library function sends and returns *)

Lemma generateImage_run w task params apiKey log :
  generateImage w task params apiKey log =
    (wrap "Failed to generate image: "
       (images_generate w task apiKey (generate_requestBody params)),
     log ++ [ImagesGenerate apiKey (generate_requestBody params)]).
Proof.
  unfold generateImage, try_catch, mbind, IO_bind, call, lift, throw, wrap.
  destruct (images_generate _ _ _ _) as [data|msg]; [|done].
  by destruct (normalize_response data).
Qed.

Lemma editImage_run w task imageFiles maskFile params apiKey log :
  editImage w task imageFiles maskFile params apiKey log =
    (wrap "Failed to edit image: "
       (images_edit w task apiKey (edit_requestBody imageFiles maskFile params)),
     log ++ [ImagesEdit apiKey (edit_requestBody imageFiles maskFile params)]).
Proof.
  unfold editImage, try_catch, mbind, IO_bind, call, lift, throw, wrap.
  destruct (images_edit _ _ _ _) as [data|msg]; [|done].
  by destruct (normalize_response data).
Qed.

Lemma createImageVariations_run w task imageFile params apiKey log :
  createImageVariations w task imageFile params apiKey log =
    (wrap "Failed to create image variations: "
       (images_createVariation w task apiKey (variation_requestBody imageFile params)),
     log ++ [ImagesCreateVariation apiKey (variation_requestBody imageFile params)]).
Proof.
  unfold createImageVariations, try_catch, mbind, IO_bind, call, lift, throw, wrap.
  destruct (images_createVariation _ _ _ _) as [data|msg]; [|done].
  by destruct (normalize_response data).
Qed.

(** ** The generation payload *)

(** C1: whatever count the request asks for, the body [generateImage]
    sends upstream has [n] equal to 1 when the model is dall-e-3, and equal
    to the requested count for the two other models. *)
Theorem generate_n_by_model (w : World) (task : nat) (params : GenerateParams)
    (apiKey : string) (log : list Call) :
  snd (generateImage w task params apiKey log)
    = log ++ [ImagesGenerate apiKey (generate_requestBody params)]
  ∧ generate_requestBody params !! "n"
    = Some (JNum (match g_model params with
                  | DallE3 => 1%Q
                  | DallE2 | GptImage1 => g_n params
                  end)).
Proof.
  split; [by rewrite generateImage_run|].
  unfold generate_requestBody, generate_response_format, generate_gpt_image_1,
    generate_dalle3, generate_n.
  destruct (g_model params); simpl; frame; by rewrite lookup_insert_eq.
Qed.

(** What [/api/generate] sends for a valid request that names a model of
    the image API. *)
Lemma api_generate_sends (w : World) (env : Env) (data : json)
    (validatedData : GenerateImageRequest) (model : Model) (log : list Call) :
  generateImageSchema data = ParseOk validatedData →
  configured (OPENAI_API_KEY env) = true →
  f_model (gi_fields validatedData) = OpenAIModel model →
  snd (api_generate w env data log)
  = log ++ [ImagesGenerate (default "" (OPENAI_API_KEY env))
              (generate_requestBody
                 (openaiData (gi_fields validatedData) (gi_prompt validatedData)
                    model))].
Proof.
  intros Hparse Hkey Hmodel.
  unfold api_generate, try_catch, mbind, IO_bind, parse, mret, IO_ret.
  rewrite Hparse, Hkey, Hmodel. cbn [negb]. cbv beta iota.
  rewrite generateImage_run. by destruct (wrap _ _).
Qed.

(** The scenario of the specification: five images asked of dall-e-3, one
    requested upstream. *)
Example scenario_generate_n :
  ∃ requestBody,
    snd (api_generate sample_world sample_env scenario_generate [])
    = [ImagesGenerate "sk-primary" requestBody]
    ∧ requestBody !! "n" = Some (JNum 1%Q).
Proof. vm_compute. eexists. split; reflexivity. Qed.

Lemma generate_optional_absent (params : GenerateParams) (k : string) :
  k ∈ optional_keys → k ∉ applicable (g_model params) →
  generate_requestBody params !! k = None.
Proof.
  intros Hk Hna.
  unfold generate_requestBody, generate_response_format, generate_gpt_image_1,
    generate_dalle3, generate_n, generate_base.
  unfold optional_keys in Hk. unfold applicable in Hna.
  repeat (apply elem_of_cons in Hk as [-> | Hk]); [..|by apply elem_of_nil in Hk];
    destruct (g_model params); simpl in *;
    solve [ exfalso; apply Hna; repeat constructor | frame; done ].
Qed.

Lemma generate_optional_nonempty (params : GenerateParams) (k : string) (v : jsval) :
  k ∈ optional_keys → generate_requestBody params !! k = Some v →
  v ≠ JUndefined ∧ v ≠ JStr "".
Proof.
  intros Hk.
  unfold generate_requestBody, generate_response_format, generate_gpt_image_1,
    generate_dalle3, generate_n, generate_base.
  unfold optional_keys in Hk.
  repeat (apply elem_of_cons in Hk as [-> | Hk]); [..|by apply elem_of_nil in Hk].
  all: destruct (g_model params); simpl; frame.
  all: unfold set_user, set_opt, set_quality, set_output_compression.
  all: repeat case_match; simplify_map_eq; try done.
  all: intros [= <-]; split; [done|nonempty_value].
Qed.

Lemma generate_quality_vocabulary (params : GenerateParams) (v : jsval) :
  generate_requestBody params !! "quality" = Some v →
  ∃ q, v = JStr q ∧ q ∈ quality_vocabulary (g_model params).
Proof.
  unfold generate_requestBody, generate_response_format, generate_gpt_image_1,
    generate_dalle3, generate_n, generate_base.
  destruct (g_model params); simpl; frame.
  all: unfold set_quality; repeat case_match; simplify_map_eq; try done.
  all: intros [= <-]; eexists; split; [done|].
  all: match goal with q : Quality |- _ => destruct q; try done end.
  all: simpl; repeat constructor.
Qed.

(** C2: a body built for gpt-image-1 has no [response_format] key,
    whatever the request carries; for every model, an optional property
    the model does not accept has no key in the body; an optional property
    that is in the body is neither undefined nor the empty string, and a
    [quality] in the body is a word of the model's own vocabulary (so
    dall-e-2 gets none). *)
Theorem generate_omits_inapplicable (params : GenerateParams) :
  (g_model params = GptImage1 →
     generate_requestBody params !! "response_format" = None)
  ∧ (∀ k, k ∈ optional_keys → k ∉ applicable (g_model params) →
       generate_requestBody params !! k = None)
  ∧ (∀ k v, k ∈ optional_keys → generate_requestBody params !! k = Some v →
       v ≠ JUndefined ∧ v ≠ JStr "")
  ∧ (∀ v, generate_requestBody params !! "quality" = Some v →
       ∃ q, v = JStr q ∧ q ∈ quality_vocabulary (g_model params)).
Proof.
  split_and!.
  - intros Hm. apply generate_optional_absent.
    + unfold optional_keys. repeat constructor.
    + rewrite Hm. simpl. rewrite !not_elem_of_cons. split_and!; try done.
      apply not_elem_of_nil.
  - apply generate_optional_absent.
  - apply generate_optional_nonempty.
  - apply generate_quality_vocabulary.
Qed.

(** Witness for C2: the response format and the style of a request for
    gpt-image-1 are left out. *)
Lemma generate_omits_inapplicable_witness :
  generate_requestBody sample_generate_params !! "response_format" = None
  ∧ generate_requestBody sample_generate_params !! "style" = None.
Proof.
  destruct (generate_omits_inapplicable sample_generate_params)
    as (Hformat & Habsent & _).
  split; [by apply Hformat|]. apply Habsent.
  - unfold optional_keys. repeat constructor.
  - simpl. rewrite !not_elem_of_cons. split_and!; try done. apply not_elem_of_nil.
Defined.

(** ** The response normaliser *)

Lemma truthy_false_blank (field : option string) :
  truthy field = false ↔ blank field.
Proof.
  unfold blank. destruct field as [s|]; simpl.
  - rewrite negb_false_iff, String.eqb_eq. split.
    + intros ->. by right.
    + by intros [[=]|[= ->]].
  - split; [by left|done].
Qed.

Lemma truthy_present (field : option string) :
  truthy field = true → present field (default "" field).
Proof. intros (s & -> & Hs)%truthy_Some. by split. Qed.

Lemma present_not_blank (field : option string) (s : string) :
  present field s → ¬ blank field.
Proof. intros [-> Hs] [[=]|[= ->]]. done. Qed.

Lemma normalize_image_spec (image : Image) :
  match normalize_image image with
  | Ok s => emitted image s
  | Throw message =>
      unusable image ∧ message = "Invalid response format from OpenAI API"
  end.
Proof.
  unfold normalize_image.
  destruct (truthy (url image)) eqn:Hurl.
  { apply emitted_url. by apply truthy_present. }
  apply truthy_false_blank in Hurl.
  destruct (truthy (b64_json image)) eqn:Hb64.
  { apply emitted_b64_json; [done|]. by apply truthy_present. }
  apply truthy_false_blank in Hb64. by repeat split.
Qed.

Lemma emitted_usable (image : Image) (s : string) :
  emitted image s → ¬ unusable image.
Proof.
  intros [u Hu|b _ Hb] [Hurl Hb64].
  - by eapply present_not_blank.
  - by eapply present_not_blank.
Qed.

Lemma map_throwing_normalize (images : list Image) :
  match map_throwing normalize_image images with
  | Ok out => Forall2 emitted images out
  | Throw message =>
      Exists unusable images ∧ message = "Invalid response format from OpenAI API"
  end.
Proof.
  induction images as [|image images IH]; simpl; [constructor|].
  pose proof (normalize_image_spec image) as Himage.
  destruct (normalize_image image) as [s|message].
  - destruct (map_throwing normalize_image images) as [out|message'].
    + by constructor.
    + destruct IH as [IH ->]. split; [by apply Exists_cons_tl|done].
  - destruct Himage as [Himage ->]. split; [by apply Exists_cons_hd|done].
Qed.

(** C3, as the code has it: the normaliser keeps length and order; an
    image whose [url] is a non-empty string gives that string unchanged;
    an image whose [url] is missing or empty and whose [b64_json] is a
    non-empty string gives the data URL of the payload; the whole call
    fails with the invalid-response-format error as soon as one image has
    neither ([generateImage] hands the failure on under its own prefix);
    the empty list gives the empty list. *)
Theorem normalize_response_emitted (images : list Image) :
  (Exists unusable images →
     normalize_response (Some images)
       = Throw "Invalid response format from OpenAI API"
     ∧ ∀ w task params apiKey log,
         images_generate w task apiKey (generate_requestBody params)
           = Ok (Some images) →
         fst (generateImage w task params apiKey log)
           = Throw "Failed to generate image: Invalid response format from OpenAI API")
  ∧ (¬ Exists unusable images →
       ∃ out, normalize_response (Some images) = Ok out
              ∧ Forall2 emitted images out
              ∧ length out = length images)
  ∧ normalize_response (Some []) = Ok [].
Proof.
  pose proof (map_throwing_normalize images) as Hspec. simpl.
  destruct (map_throwing normalize_image images) as [out|message] eqn:Hrun.
  - split_and!; [| |done].
    2:{ intros _. exists out. split_and!; [done|done|].
        symmetry. by eapply Forall2_length. }
    intros Hex. exfalso.
    apply Exists_exists in Hex as (image & Hin & Hbad).
    apply list_elem_of_lookup in Hin as [i Hi].
    destruct (Forall2_lookup_l _ _ _ _ _ Hspec Hi) as (s & _ & Hs).
    by eapply emitted_usable.
  - destruct Hspec as [Hex ->]. split_and!; [|done|done].
    intros _. split; [done|]. intros w task params apiKey log Hreply.
    rewrite generateImage_run, Hreply. simpl. by rewrite Hrun.
Qed.

(** Witness for C3: a URL and a payload, in this order. *)
Lemma normalize_response_emitted_witness :
  ∃ out,
    normalize_response
      (Some [sample_image; mkImage None (Some "iVBORw0KGgo=")]) = Ok out
    ∧ Forall2 emitted [sample_image; mkImage None (Some "iVBORw0KGgo=")] out
    ∧ length out = 2%nat.
Proof.
  apply (proj1 (proj2 (normalize_response_emitted
           [sample_image; mkImage None (Some "iVBORw0KGgo=")]))).
  intros Hex. apply Exists_cons in Hex as [[Hurl _]|Hex].
  { by destruct Hurl. }
  apply Exists_cons in Hex as [[_ Hb64]|Hex].
  { by destruct Hb64. }
  by apply Exists_nil in Hex.
Defined.

(** C3 as stated fails on the upstream list of one element whose [url] is
    the empty string and whose [b64_json] is QUJD: the element has a [url]
    property, and the normaliser returns the data URL of the payload, not
    the URL. *)
Lemma normalize_response_empty_url :
  ¬ (∀ images out i image u,
       normalize_response (Some images) = Ok out →
       images !! i = Some image →
       url image = Some u →
       out !! i = Some u).
Proof.
  intros Hclaim.
  specialize (Hclaim [mkImage (Some "") (Some "QUJD")]
                ["data:image/png;base64,QUJD"] 0%nat
                (mkImage (Some "") (Some "QUJD")) ""
                eq_refl eq_refl eq_refl).
  discriminate Hclaim.
Qed.

(** ** Schema violations *)

Lemma both_rejected_l {A B} (a : SafeParse A) (b : SafeParse B) :
  rejected a → rejected (both a b).
Proof. intros [i ->]. destruct b; simpl; by eexists. Qed.

Lemma both_rejected_r {A B} (a : SafeParse A) (b : SafeParse B) :
  rejected b → rejected (both a b).
Proof. intros [j ->]. destruct a; simpl; by eexists. Qed.

Lemma parse_map_rejected {A B} (f : A → B) (a : SafeParse A) :
  rejected a → rejected (parse_map f a).
Proof. intros [i ->]. by eexists. Qed.

Lemma z_number_min_max_rejected lo hi path q :
  ¬ (lo <= q ∧ q <= hi)%Q →
  rejected (z_number_min_max lo hi path (Some (JSNumber q))).
Proof.
  intros Hout. unfold z_number_min_max.
  destruct (Qle_bool lo q) eqn:Hlo, (Qle_bool q hi) eqn:Hhi; try by eexists.
  exfalso. apply Hout. by rewrite <- !Qle_bool_iff.
Qed.

Lemma z_enum_rejected {A} (members : list (string * A)) path s :
  s ∉ members.*1 → rejected (z_enum members path (Some (JSString s))).
Proof.
  intros Hs. unfold z_enum.
  destruct (List.find _ members) as [m|] eqn:Hfind; [|by eexists].
  apply find_some in Hfind as [Hin Heq]. exfalso. apply Hs.
  apply String.eqb_eq in Heq as <-.
  apply list_elem_of_fmap. exists m. split; [done|]. by apply list_elem_of_In.
Qed.

(** The violations the specification lists are violations of
    [generateImageSchema]: a missing prompt, a model outside the
    enumeration, a count outside 1..10, a compression outside 0..100. *)
Lemma generateImageSchema_rejects (o : list (string * json)) :
  (get "prompt" o = None → rejected (generateImageSchema (JSObject o)))
  ∧ (∀ s, get "model" o = Some (JSString s) → s ∉ model_members.*1 →
       rejected (generateImageSchema (JSObject o)))
  ∧ (∀ q, get "n" o = Some (JSNumber q) → ¬ (1 <= q ∧ q <= 10)%Q →
       rejected (generateImageSchema (JSObject o)))
  ∧ (∀ q, get "output_compression" o = Some (JSNumber q) →
       ¬ (0 <= q ∧ q <= 100)%Q →
       rejected (generateImageSchema (JSObject o))).
Proof.
  unfold generateImageSchema, parse_ImageFields. split_and!.
  - intros ->. apply parse_map_rejected, both_rejected_l. by eexists.
  - intros s -> Hs. apply parse_map_rejected, both_rejected_r, parse_map_rejected.
    apply both_rejected_l. unfold z_default. by apply z_enum_rejected.
  - intros q -> Hq. apply parse_map_rejected, both_rejected_r, parse_map_rejected.
    do 2 apply both_rejected_r. apply both_rejected_l. unfold z_default.
    by apply z_number_min_max_rejected.
  - intros q -> Hq. apply parse_map_rejected, both_rejected_r, parse_map_rejected.
    do 7 apply both_rejected_r. apply both_rejected_l. unfold z_optional.
    by apply parse_map_rejected, z_number_min_max_rejected.
Qed.

Lemma or_else_nonempty (message fallback : string) :
  message ≠ "" → or_else message fallback = message.
Proof. intros Hne. unfold or_else. by apply String.eqb_neq in Hne as ->. Qed.

Lemma or_else_is_nonempty (message fallback : string) :
  fallback ≠ "" → or_else message fallback ≠ "".
Proof.
  intros Hne. unfold or_else.
  destruct (String.eqb message "") eqn:Heq; [done|]. by apply String.eqb_neq.
Qed.

(** C5, as the code has it: a body that [generateImageSchema] rejects is
    answered with status 500 and the message of the schema violation, and
    no call leaves the server. *)
Theorem generate_schema_violation (w : World) (env : Env) (data : json)
    (issues : list ZodIssue) (log : list Call) :
  generateImageSchema data = ParseError issues →
  ZodError_message w issues ≠ "" →
  api_generate w env data log
    = (Ok (mkResponse 500 (Message (ZodError_message w issues))), log).
Proof.
  intros Hparse Hmessage.
  unfold api_generate, try_catch, mbind, IO_bind, parse, throw, mret, IO_ret.
  rewrite Hparse. by rewrite or_else_nonempty.
Qed.

(** The two flower routes answer a schema violation in the same way. *)
Lemma flower_schema_violation (w : World) (env : Env) (data : json)
    (issues : list ZodIssue) (log : list Call) :
  flowerGenerationSchema data = ParseError issues →
  ZodError_message w issues ≠ "" →
  api_flower_generate w env data log
    = (Ok (mkResponse 500 (Message (ZodError_message w issues))), log).
Proof.
  intros Hparse Hmessage.
  unfold api_flower_generate, try_catch, mbind, IO_bind, parse, throw, mret, IO_ret.
  rewrite Hparse. by rewrite or_else_nonempty.
Qed.

Lemma batch_schema_violation (w : World) (env : Env) (data : json)
    (issues : list ZodIssue) (log : list Call) :
  batchFlowerGenerationSchema data = ParseError issues →
  ZodError_message w issues ≠ "" →
  api_batch_flower_generate w env data log
    = (Ok (mkResponse 500 (Message (ZodError_message w issues))), log).
Proof.
  intros Hparse Hmessage.
  unfold api_batch_flower_generate, try_catch, mbind, IO_bind, parse, throw,
    mret, IO_ret.
  rewrite Hparse. by rewrite or_else_nonempty.
Qed.

(** Witness for C5: a count of 11. *)
Lemma generate_schema_violation_witness :
  api_generate sample_world sample_env
    (JSObject [("prompt", JSString "a lily"); ("n", JSNumber 11%Q)]) []
    = (Ok (mkResponse 500 (Message "[ zod issues ]")), []).
Proof.
  apply (generate_schema_violation sample_world sample_env
           (JSObject [("prompt", JSString "a lily"); ("n", JSNumber 11%Q)])
           [mkIssue too_big [Key "n"] None] []).
  - reflexivity.
  - discriminate.
Defined.

(** C5 as stated fails on the body [{ "model": "dall-e-3" }], which has no
    prompt: the answer has status 500, not 400. *)
Lemma generate_missing_prompt_status :
  let data := JSObject [("model", JSString "dall-e-3")] in
  generateImageSchema data
    = ParseError [mkIssue invalid_type [Key "prompt"] None]
  ∧ (∃ message,
       api_generate sample_world sample_env data []
         = (Ok (mkResponse 500 (Message message)), []))
  ∧ ¬ (∃ message log',
         api_generate sample_world sample_env data []
           = (Ok (mkResponse 400 (Message message)), log')).
Proof.
  split_and!.
  - reflexivity.
  - eexists. reflexivity.
  - intros (message & log' & Hrun). vm_compute in Hrun. discriminate Hrun.
Qed.

(** ** MIME sniffing *)

Lemma prefix_cons (a c : ascii) (p s : string) :
  String.prefix (String a p) (String c s) = Ascii.eqb a c && String.prefix p s.
Proof.
  simpl. destruct (ascii_dec a c) as [->|Hne].
  - by rewrite Ascii.eqb_refl.
  - by apply Ascii.eqb_neq in Hne as ->.
Qed.

Lemma toString_hex_cons (b : byte) (rest : Buffer) :
  toString_hex (b :: rest)
    = String (hex_digit (Byte.to_N b / 16))
        (String (hex_digit (Byte.to_N b mod 16)) (toString_hex rest)).
Proof. reflexivity. Qed.

Lemma prefix_empty (s : string) : String.prefix "" s = true.
Proof. by destruct s. Qed.

Lemma prefix_of_empty (a : ascii) (p : string) : String.prefix (String a p) "" = false.
Proof. reflexivity. Qed.

Lemma two_digits_89 : ∀ b,
  Ascii.eqb "8" (hex_digit (Byte.to_N b / 16)) = true
  ∧ Ascii.eqb "9" (hex_digit (Byte.to_N b mod 16)) = true ↔ b = x89.
Proof. intros b; destruct b; vm_compute; intuition congruence. Qed.

Lemma two_digits_50 : ∀ b,
  Ascii.eqb "5" (hex_digit (Byte.to_N b / 16)) = true
  ∧ Ascii.eqb "0" (hex_digit (Byte.to_N b mod 16)) = true ↔ b = x50.
Proof. intros b; destruct b; vm_compute; intuition congruence. Qed.

Lemma two_digits_4e : ∀ b,
  Ascii.eqb "4" (hex_digit (Byte.to_N b / 16)) = true
  ∧ Ascii.eqb "e" (hex_digit (Byte.to_N b mod 16)) = true ↔ b = x4e.
Proof. intros b; destruct b; vm_compute; intuition congruence. Qed.

Lemma two_digits_47 : ∀ b,
  Ascii.eqb "4" (hex_digit (Byte.to_N b / 16)) = true
  ∧ Ascii.eqb "7" (hex_digit (Byte.to_N b mod 16)) = true ↔ b = x47.
Proof. intros b; destruct b; vm_compute; intuition congruence. Qed.

Lemma two_digits_ff : ∀ b,
  Ascii.eqb "f" (hex_digit (Byte.to_N b / 16)) = true
  ∧ Ascii.eqb "f" (hex_digit (Byte.to_N b mod 16)) = true ↔ b = xff.
Proof. intros b; destruct b; vm_compute; intuition congruence. Qed.

Lemma two_digits_d8 : ∀ b,
  Ascii.eqb "d" (hex_digit (Byte.to_N b / 16)) = true
  ∧ Ascii.eqb "8" (hex_digit (Byte.to_N b mod 16)) = true ↔ b = xd8.
Proof. intros b; destruct b; vm_compute; intuition congruence. Qed.

Lemma high_digit_e : ∀ b,
  Ascii.eqb "e" (hex_digit (Byte.to_N b / 16)) = true
  ↔ (Byte.to_N b / 16 = 14)%N.
Proof. intros b; destruct b; vm_compute; intuition congruence. Qed.

(** Exposes the character tests of [startsWith] on the hex text of a
    buffer. *)
Ltac hex_tests :=
  unfold startsWith;
  rewrite ?toString_hex_cons; simpl toString_hex;
  rewrite ?prefix_cons, ?prefix_empty, ?prefix_of_empty;
  rewrite ?andb_false_r, ?andb_true_iff.

Lemma startsWith_png (bytes : Buffer) :
  startsWith (toString_hex bytes) "89504e47" = true ↔ png_signature bytes.
Proof.
  unfold png_signature. split.
  - destruct bytes as [|b1 [|b2 [|b3 [|b4 rest]]]]; hex_tests;
      try (intros; intuition discriminate).
    intros (H1 & H1' & H2 & H2' & H3 & H3' & H4 & H4' & _).
    exists rest.
    by rewrite (proj1 (two_digits_89 b1)), (proj1 (two_digits_50 b2)),
      (proj1 (two_digits_4e b3)), (proj1 (two_digits_47 b4)).
  - intros [rest ->]. hex_tests. repeat split; reflexivity.
Qed.

Lemma startsWith_jpeg (bytes : Buffer) :
  startsWith (toString_hex bytes) "ffd8ffe" = true ↔ jpeg_signature bytes.
Proof.
  unfold jpeg_signature. split.
  - destruct bytes as [|b1 [|b2 [|b3 [|b4 rest]]]]; hex_tests;
      try (intros; intuition discriminate).
    intros (H1 & H1' & H2 & H2' & H3 & H3' & H4 & _).
    exists b4, rest. split; [|by apply high_digit_e].
    by rewrite (proj1 (two_digits_ff b1)), (proj1 (two_digits_d8 b2)),
      (proj1 (two_digits_ff b3)).
  - intros (b & rest & -> & Hb). hex_tests.
    apply high_digit_e in Hb. repeat split; first [exact Hb | reflexivity].
Qed.

Lemma sniff_mimeType_cases (bytes : Buffer) :
  sniff_mimeType bytes =
    if startsWith (toString_hex bytes) "89504e47" then "image/png"
    else if startsWith (toString_hex bytes) "ffd8ffe" then "image/jpeg"
    else "image/webp".
Proof. reflexivity. Qed.

Lemma fmap_imap_pointwise {A B C} (f : nat → A → B) (g : B → C) (h : A → C)
    (l : list A) :
  (∀ i x, g (f i x) = h x) → g <$> imap f l = h <$> l.
Proof.
  revert f. induction l as [|x l IH]; intros f Hf; [done|].
  rewrite imap_cons. csimpl. rewrite Hf. f_equal. apply IH. intros i y. apply Hf.
Qed.

Lemma convert_imageFile_bits (imageFiles : list Buffer) :
  file_bits <$> imap convert_imageFile imageFiles = imageFiles.
Proof.
  rewrite (fmap_imap_pointwise _ _ (λ bytes, bytes)); [|done].
  apply list_fmap_id.
Qed.

Lemma convert_imageFile_type (imageFiles : list Buffer) :
  file_type <$> imap convert_imageFile imageFiles = sniff_mimeType <$> imageFiles.
Proof. by apply fmap_imap_pointwise. Qed.

Lemma originalImageBuffers_ext (files files' : gmap string (list UploadedFile)) :
  (∀ field, buffer <$> (files !! field ≫= head)
            = buffer <$> (files' !! field ≫= head)) →
  originalImageBuffers files = originalImageBuffers files'.
Proof.
  intros Hsame. unfold originalImageBuffers.
  apply list_omap_ext, Forall_Forall2_diag, Forall_forall.
  intros i _. apply Hsame.
Qed.

(** C7: every buffer gets one label, by its bytes: image/png when it
    starts with 89 50 4E 47, else image/jpeg when it starts with FF D8 FF
    and a fourth byte E0..EF (the hex text starts with ffd8ffe), else
    image/webp; this is the type of the file built for it.  Two uploads
    that agree on the bytes of every field give the same buffers to
    [editImage], whatever their names and declared types. *)
Theorem sniff_mimeType_by_signature (bytes : Buffer) :
  (png_signature bytes → sniff_mimeType bytes = "image/png")
  ∧ (¬ png_signature bytes → jpeg_signature bytes →
       sniff_mimeType bytes = "image/jpeg")
  ∧ (¬ png_signature bytes → ¬ jpeg_signature bytes →
       sniff_mimeType bytes = "image/webp")
  ∧ (∀ index, file_type (convert_imageFile index bytes) = sniff_mimeType bytes)
  ∧ (∀ files files' : gmap string (list UploadedFile),
       (∀ field, buffer <$> (files !! field ≫= head)
                 = buffer <$> (files' !! field ≫= head)) →
       originalImageBuffers files = originalImageBuffers files').
Proof.
  assert (Hfirst :
    (png_signature bytes → sniff_mimeType bytes = "image/png")
    ∧ (¬ png_signature bytes → jpeg_signature bytes →
         sniff_mimeType bytes = "image/jpeg")
    ∧ (¬ png_signature bytes → ¬ jpeg_signature bytes →
         sniff_mimeType bytes = "image/webp")).
  { rewrite sniff_mimeType_cases.
    pose proof (startsWith_png bytes) as Hpng.
    pose proof (startsWith_jpeg bytes) as Hjpeg.
    destruct (startsWith (toString_hex bytes) "89504e47").
    { split_and!; [done|..]; intros Hn; exfalso; by apply Hn, Hpng. }
    destruct (startsWith (toString_hex bytes) "ffd8ffe").
    - split_and!; [|done|].
      + intros Hp. by apply Hpng in Hp.
      + intros _ Hn. exfalso. by apply Hn, Hjpeg.
    - split_and!; [| |done].
      + intros Hp. by apply Hpng in Hp.
      + intros _ Hj. by apply Hjpeg in Hj. }
  destruct Hfirst as (Hpng & Hjpeg & Hwebp).
  split_and!; [done|done|done|done|apply originalImageBuffers_ext].
Qed.

(** Witness for C7: the first bytes of a JPEG file. *)
Lemma sniff_mimeType_by_signature_witness :
  sniff_mimeType [xff; xd8; xff; xe0; x00; x10] = "image/jpeg".
Proof.
  apply (proj1 (proj2 (sniff_mimeType_by_signature [xff; xd8; xff; xe0; x00; x10]))).
  - intros [rest Heq]. discriminate Heq.
  - exists xe0, [x00; x10]. split; reflexivity.
Defined.

(** ** The edit payload *)

Lemma edit_lookup_image (imageFiles : list Buffer) (maskFile : option Buffer)
    (params : EditParams) :
  edit_requestBody imageFiles maskFile params !! "image"
    = Some (match e_model params, imageFiles with
            | EditDallE2, first :: _ => JFile (convert_imageFile 0 first)
            | EditDallE2, [] => JUndefined
            | EditGptImage1, [single] => JFile (convert_imageFile 0 single)
            | EditGptImage1, _ => JFiles (imap convert_imageFile imageFiles)
            end).
Proof.
  unfold edit_requestBody, edit_response_format, edit_gpt_image_1,
    edit_image_and_mask.
  destruct (e_model params); simpl; frame; rewrite lookup_insert_eq.
  - by destruct imageFiles.
  - by destruct imageFiles as [|? [|? ?]].
Qed.

Lemma edit_lookup_mask (imageFiles : list Buffer) (maskFile : option Buffer)
    (params : EditParams) :
  edit_requestBody imageFiles maskFile params !! "mask"
    = JFile ∘ convert_maskFile <$> maskFile.
Proof.
  unfold edit_requestBody, edit_response_format, edit_gpt_image_1,
    edit_image_and_mask, edit_base.
  destruct (e_model params); simpl; frame.
  all: destruct maskFile; simpl;
    [by rewrite lookup_insert_eq|by frame].
Qed.

Lemma edit_lookup_response_format (imageFiles : list Buffer)
    (maskFile : option Buffer) (params : EditParams) :
  edit_requestBody imageFiles maskFile params !! "response_format"
    = match e_model params with
      | EditDallE2 => JStr ∘ ResponseFormat_str <$> e_response_format params
      | EditGptImage1 => None
      end.
Proof.
  unfold edit_requestBody, edit_response_format, edit_gpt_image_1,
    edit_image_and_mask, edit_base.
  destruct (e_model params); simpl; frame.
  - rewrite lookup_set_opt_eq; [done|]. by frame.
  - done.
Qed.

(** C6: in the body [editImage] sends, [image] is the file of the first
    buffer for dall-e-2 (the other buffers are left out), the file of the
    only buffer for gpt-image-1 with one image, and the list of the files
    of all buffers, in their order, for gpt-image-1 with several; [mask]
    is there exactly when a mask buffer was given; [response_format] is
    there only for dall-e-2, when the request has one. *)
Theorem edit_image_mask_response_format (w : World) (task : nat)
    (imageFiles : list Buffer) (maskFile : option Buffer) (params : EditParams)
    (apiKey : string) (log : list Call) :
  let requestBody := edit_requestBody imageFiles maskFile params in
  snd (editImage w task imageFiles maskFile params apiKey log)
    = log ++ [ImagesEdit apiKey requestBody]
  ∧ requestBody !! "image"
    = Some (match e_model params, imageFiles with
            | EditDallE2, first :: _ => JFile (convert_imageFile 0 first)
            | EditDallE2, [] => JUndefined
            | EditGptImage1, [single] => JFile (convert_imageFile 0 single)
            | EditGptImage1, _ => JFiles (imap convert_imageFile imageFiles)
            end)
  ∧ file_bits <$> imap convert_imageFile imageFiles = imageFiles
  ∧ (is_Some (requestBody !! "mask") ↔ is_Some maskFile)
  ∧ requestBody !! "response_format"
    = match e_model params with
      | EditDallE2 => JStr ∘ ResponseFormat_str <$> e_response_format params
      | EditGptImage1 => None
      end.
Proof.
  simpl. split_and!.
  - by rewrite editImage_run.
  - apply edit_lookup_image.
  - apply convert_imageFile_bits.
  - rewrite edit_lookup_mask. by rewrite fmap_is_Some.
  - apply edit_lookup_response_format.
Qed.

(** C8: the file sent for a mask is named mask.png and typed image/png,
    whatever its bytes; the sniffing of [sniff_mimeType] is not applied to
    it. *)
Theorem mask_is_labelled_png (w : World) (task : nat) (imageFiles : list Buffer)
    (mask : Buffer) (params : EditParams) (apiKey : string) (log : list Call) :
  let requestBody := edit_requestBody imageFiles (Some mask) params in
  snd (editImage w task imageFiles (Some mask) params apiKey log)
    = log ++ [ImagesEdit apiKey requestBody]
  ∧ requestBody !! "mask" = Some (JFile (mkFile mask "mask.png" "image/png")).
Proof.
  simpl. split; [by rewrite editImage_run|]. by rewrite edit_lookup_mask.
Qed.

(** A mask made of JPEG bytes is sent as image/png all the same. *)
Example jpeg_mask_sent_as_png :
  sniff_mimeType [xff; xd8; xff; xe0] = "image/jpeg"
  ∧ edit_requestBody [[x89; x50; x4e; x47]] (Some [xff; xd8; xff; xe0])
      (mkEditParams "add a hat" EditDallE2 "1024x1024" 1%Q None None None None
         None None) !! "mask"
    = Some (JFile (mkFile [xff; xd8; xff; xe0] "mask.png" "image/png")).
Proof. split; [reflexivity|]. by rewrite edit_lookup_mask. Qed.

(** The scenario of the specification: three images and no mask for
    gpt-image-1 give a list of three files, in the order of the buffers, and
    no [mask] key. *)
Example scenario_edit_three_images :
  ∃ f1 f2 f3,
    edit_requestBody [[x89; x50; x4e; x47]; [xff; xd8; xff; xe1]; [x52; x49; x46; x46]]
      None scenario_edit !! "image" = Some (JFiles [f1; f2; f3])
    ∧ (file_name f1, file_type f1) = ("image0.png", "image/png")
    ∧ (file_name f2, file_type f2) = ("image1.jpeg", "image/jpeg")
    ∧ (file_name f3, file_type f3) = ("image2.webp", "image/webp")
    ∧ edit_requestBody [[x89; x50; x4e; x47]; [xff; xd8; xff; xe1]; [x52; x49; x46; x46]]
        None scenario_edit !! "mask" = None.
Proof.
  rewrite edit_lookup_image, edit_lookup_mask. do 3 eexists.
  split_and!; reflexivity.
Qed.

(** ** The variations payload *)

(** C10: the body [createImageVariations] sends holds the uploaded bytes
    as a blob typed image/png, whatever the bytes, together with [n],
    [size] and [response_format]; it has a [user] key exactly when the
    request's [user] is a non-empty string, and then with that string. *)
Theorem variation_body (w : World) (task : nat) (imageFile : Buffer)
    (params : VariationParams) (apiKey : string) (log : list Call) :
  let requestBody := variation_requestBody imageFile params in
  snd (createImageVariations w task imageFile params apiKey log)
    = log ++ [ImagesCreateVariation apiKey requestBody]
  ∧ requestBody !! "image" = Some (JBlob (mkBlob imageFile "image/png"))
  ∧ requestBody !! "n" = Some (JNum (v_n params))
  ∧ requestBody !! "size" = Some (JStr (VariationSize_str (v_size params)))
  ∧ requestBody !! "response_format"
    = Some (JStr (ResponseFormat_str (v_response_format params)))
  ∧ (is_Some (requestBody !! "user") ↔ ∃ u, v_user params = Some u ∧ u ≠ "")
  ∧ (∀ u, v_user params = Some u → u ≠ "" →
       requestBody !! "user" = Some (JStr u)).
Proof.
  simpl. unfold variation_requestBody.
  split_and!; [by rewrite createImageVariations_run|by frame; rewrite ?lookup_insert_eq..| |].
  - rewrite <- truthy_Some. unfold set_user.
    destruct (truthy (v_user params)).
    + rewrite lookup_insert_eq. split; [done|by eexists].
    + frame. split; [by intros [? [=]]|done].
  - intros u Hu Hne. unfold set_user.
    rewrite (proj2 (truthy_Some (v_user params))) by eauto.
    by rewrite lookup_insert_eq, Hu.
Qed.

(** Witness for C10: a request with a user. *)
Lemma variation_body_witness :
  variation_requestBody [xff; xd8; xff; xe0] sample_variation_params !! "user"
  = Some (JStr "user-42").
Proof.
  destruct (variation_body sample_world 0 [xff; xd8; xff; xe0]
              sample_variation_params "sk-primary" [])
    as (_ & _ & _ & _ & _ & _ & Huser).
  by apply Huser.
Defined.

(** The scenario of the specification: three URLs from the image API give
    three strings. *)
Example scenario_variation_three_urls :
  fst (createImageVariations scenario_world 0 [x89; x50; x4e; x47]
         scenario_variation "sk-primary" [])
  = Ok ["https://images.example/a.png"; "https://images.example/b.png";
        "https://images.example/c.png"].
Proof. by rewrite createImageVariations_run. Qed.

(** ** Template substitution *)

Lemma name_and_braces_chars (name : string) :
  forallb name_char (list_ascii_of_string name) = true →
  name_and_braces (name +:+ "}}") = true.
Proof.
  induction name as [|c name IH]; [done|].
  cbn [list_ascii_of_string forallb]. intros [Hc Hname]%andb_true_iff.
  change (name_and_braces (String c name +:+ "}}"))
    with (if String.eqb (String c (name +:+ "}}")) "}}" then true
          else name_char c && name_and_braces (name +:+ "}}")).
  destruct (String.eqb (String c (name +:+ "}}")) "}}"); [done|].
  by rewrite Hc, IH.
Qed.

Lemma literal_placeholder_of_name (name : string) :
  literal_name name = true → literal_placeholder ("{{" +:+ name +:+ "}}") = true.
Proof.
  unfold literal_name. intros [Hchars Hdigit]%andb_true_iff.
  change (literal_placeholder ("{{" +:+ name +:+ "}}"))
    with (negb (starts_with_digit (name +:+ "}}"))
          && name_and_braces (name +:+ "}}")).
  rewrite name_and_braces_chars by done. rewrite andb_true_r.
  destruct name as [|c name]; [reflexivity|exact Hdigit].
Qed.

Lemma plain_name_own (variables : gmap string string) (name : string) :
  plain_name name = true →
  inherited variables name = false
  ∧ literal_placeholder ("{{" +:+ name +:+ "}}") = true.
Proof.
  unfold plain_name, inherited. intros [Hliteral Hown]%andb_true_iff.
  apply negb_true_iff in Hown. rewrite Hown.
  split; [by destruct (variables !! name)|by apply literal_placeholder_of_name].
Qed.


Lemma fold_left_Throw {A B} (f : Result A → B → Result A) (l : list B)
    (message : string) :
  (∀ b, f (Throw message) b = Throw message) →
  fold_left f l (Throw message) = Throw message.
Proof. intros Hf. induction l as [|b l IH]; [done|]. simpl. by rewrite Hf. Qed.

(** It raises as soon as the engine refuses the placeholder of the first
    variable, and does so again each time it is called. *)
Lemma processTemplate_refused (w : World) (template : FlowerTemplate)
    (variables : gmap string string) (v : FlowerVariable) (vs : list FlowerVariable)
    (message : string) :
  tpl_variables template = v :: vs →
  inherited variables (var_name v) = false →
  literal_placeholder ("{{" +:+ var_name v +:+ "}}") = false →
  (∀ subject replacement,
     RegExp_replace w ("{{" +:+ var_name v +:+ "}}") subject replacement
     = Throw message) →
  processTemplate w template variables = Throw message.
Proof.
  intros Hvs Hown Hv Hrefused. unfold processTemplate. rewrite Hvs.
  cbn [fold_left]. rewrite Hown. unfold replace_RegExp_g at 2.
  rewrite Hv, Hrefused. by apply fold_left_Throw.
Qed.



Example processTemplate_substitutes :
  processTemplate sample_world
    (mkFlowerTemplate "t" "t" "t"
       [mkFlowerVariable "flower_name" "" "Yellow Lily";
        mkFlowerVariable "petal_color" "" "golden yellow"]
       "[{{flower_name}}] petals [{{petal_color}}] {{flower_name}}")
    {["flower_name" := "Red $& Rose $$ $1"; "petal_color" := ""]}
  = Ok "[Red {{flower_name}} Rose $ $1] petals [golden yellow] Red {{flower_name}} Rose $ $1".
Proof. vm_compute. reflexivity. Qed.

(** A name with a digit is read as it stands. *)
Example processTemplate_digit_name :
  processTemplate sample_world
    (mkFlowerTemplate "t" "t" "t" [mkFlowerVariable "color1" "" "red"]
       "petals {{color1}}; leaves {{color2}}")
    {["color1" := "blue"]}
  = Ok "petals blue; leaves {{color2}}".
Proof. vm_compute. reflexivity. Qed.

Example processTemplate_single_branch_first_line :
  ∃ rest,
    processTemplate sample_world single_branch {["flower_name" := "Red Rose"]}
    = Ok ("SUBJECT: single [Red Rose] branch; stem have 2 leaves and one bloom flower "
          +:+ LF +:+ rest).
Proof. vm_compute. eexists. reflexivity. Qed.

(** ** The flower routes *)

Lemma generateImageDescription_run w task apiKey prompt log :
  generateImageDescription w task apiKey prompt log =
    (described (generateContent w task apiKey "gemini-2.5-flash"
                  [Text (description_request prompt)]),
     log ++ [GenerateContent apiKey "gemini-2.5-flash"
               [Text (description_request prompt)]]).
Proof.
  unfold generateImageDescription, try_catch, call, throw, described.
  by destruct (generateContent _ _ _ _ _).
Qed.

Lemma enhance_and_generate_run w task geminiKey apiKey fields processedPrompt log :
  let rewrite_call :=
    GenerateContent geminiKey "gemini-2.5-flash"
      [Text (description_request processedPrompt)] in
  enhance_and_generate w task geminiKey apiKey fields processedPrompt log =
    match generateContent w task geminiKey "gemini-2.5-flash"
            [Text (description_request processedPrompt)] with
    | Ok enhancedPrompt =>
        let requestBody :=
          generate_requestBody (openaiData fields enhancedPrompt GptImage1) in
        (wrap "Failed to generate image: "
           (images_generate w task apiKey requestBody),
         log ++ [rewrite_call; ImagesGenerate apiKey requestBody])
    | Throw message =>
        (Throw ("Gemini description generation failed: " +:+ message),
         log ++ [rewrite_call])
    end.
Proof.
  simpl. unfold enhance_and_generate, mbind, IO_bind.
  rewrite generateImageDescription_run.
  destruct (generateContent _ _ _ _ _) as [enhancedPrompt|message]; simpl; [|done].
  rewrite generateImage_run. by rewrite <- app_assoc.
Qed.






(** With a secondary key: the rewrite, then the image generation by
    gpt-image-1 with the rewritten prompt. *)
Example flower_generate_two_hops :
  ∃ prompt requestBody,
    api_flower_generate sample_world sample_env sample_flower_request []
    = (Ok (mkResponse 200 (ImageUrls ["https://images.example/1.png"])),
       [GenerateContent "secondary-key" "gemini-2.5-flash" [Text prompt];
        ImagesGenerate "sk-primary" requestBody])
    ∧ requestBody !! "model" = Some (JStr "gpt-image-1")
    ∧ requestBody !! "prompt"
      = Some (JStr "A single yellow lily on a white background").
Proof. vm_compute. do 2 eexists. split_and!; reflexivity. Qed.

(** ** The batch route *)

Section task.
Context (w : World) (env : Env) (template : FlowerTemplate)
  (fields : ImageFields) (apiKey : string).


Lemma generation_attempt_fields task item log r :
  fst (generation_attempt w env template fields apiKey task item log) = Ok r →
  r_referenceImageId r = referenceImageId item
  ∧ r_variables r = item_variables item
  ∧ processTemplate w template (item_variables item) = Ok (r_processedPrompt r)
  ∧ r_error r = None.
Proof.
  unfold generation_attempt, mbind, IO_bind, mret, IO_ret, lift.
  destruct (processTemplate w template (item_variables item)); [|done].
  destruct (match f_model fields with _ => _ end log)
    as [[imageUrls|message] log']; simpl; [|done].
  by intros [= <-].
Qed.


(** When the substitution raises, the [catch] block raises again and the
    task is rejected. *)
Lemma processGenerationTask_rejected task item log message :
  processTemplate w template (item_variables item) = Throw message →
  processGenerationTask w env template fields apiKey task item log
  = (Throw message, log).
Proof.
  intros Hprompt.
  unfold processGenerationTask, generation_attempt, try_catch, mbind, IO_bind,
    lift.
  by rewrite Hprompt.
Qed.


End task.





(** The three results of the sample batch: the second item carries the
    failure, its neighbours their image. *)
Example batch_isolation :
  ∃ r1 r2 r3 log',
    api_batch_flower_generate sample_world sample_env sample_batch_request []
      = (Ok (mkResponse 200 (Results [r1; r2; r3])), log')
    ∧ (r_referenceImageId r1, r_imageUrls r1, r_error r1)
      = ("ref-1", ["https://images.example/1.png"], None)
    ∧ (r_referenceImageId r2, r_imageUrls r2, r_error r2)
      = ("ref-2", [],
         Some "Failed to generate image: 429 Rate limit exceeded")
    ∧ (r_referenceImageId r3, r_imageUrls r3, r_error r3)
      = ("ref-3", ["https://images.example/1.png"], None).
Proof. vm_compute. do 4 eexists. split_and!; reflexivity. Qed.

(** * Further properties of the server *)

(** ** More on the request bodies *)

Lemma not_elem_of_cons_ne {A} (x y : A) (l : list A) : x ∉ y :: l → y ≠ x ∧ x ∉ l.
Proof. rewrite not_elem_of_cons. by intros [? ?]. Qed.

Lemma edit_lookup_quality (imageFiles : list Buffer) (maskFile : option Buffer)
    (params : EditParams) :
  edit_requestBody imageFiles maskFile params !! "quality"
  = match e_model params, e_quality params with
    | EditGptImage1, Some q =>
        if quality_in_auto_high_medium_low q then Some (JStr (Quality_str q))
        else None
    | _, _ => None
    end.
Proof.
  unfold edit_requestBody, edit_response_format, edit_gpt_image_1,
    edit_image_and_mask, edit_base.
  destruct (e_model params); simpl; frame; [by destruct (e_quality params)|].
  unfold set_quality. destruct (e_quality params) as [q|]; [|by frame].
  destruct (quality_in_auto_high_medium_low q);
    [by rewrite lookup_insert_eq|by frame].
Qed.

(** X1: the body [editImage] sends has a [quality] key exactly when the
    model is gpt-image-1 and the request's quality is one of auto, high,
    medium and low, and then with that word; the word standard, which the
    edit schema accepts, is never sent, and dall-e-2 never gets a
    quality. *)
Theorem edit_quality_sent (imageFiles : list Buffer) (maskFile : option Buffer)
    (params : EditParams) (v : jsval) :
  edit_requestBody imageFiles maskFile params !! "quality" = Some v
  ↔ e_model params = EditGptImage1
    ∧ ∃ q, e_quality params = Some q
           ∧ q ∈ [QAuto; QHigh; QMedium; QLow]
           ∧ v = JStr (Quality_str q).
Proof.
  rewrite edit_lookup_quality. split.
  - destruct (e_model params); [done|].
    destruct (e_quality params) as [q|]; [|done].
    destruct q; simpl; try done.
    all: intros [= <-]; split; [done|]; eexists; split_and!; [done| |done].
    all: repeat constructor.
  - intros (-> & q & -> & Hq & ->).
    repeat (apply elem_of_cons in Hq as [->|Hq]); try done.
    by apply elem_of_nil in Hq.
Qed.

(** X2: [output_compression] is sent exactly as the request has it to
    gpt-image-1, a compression of 0 included, and is never sent to another
    model; this holds for generation and for edits. *)
Theorem output_compression_sent (params : GenerateParams)
    (imageFiles : list Buffer) (maskFile : option Buffer) (edit : EditParams) :
  generate_requestBody params !! "output_compression"
    = match g_model params with
      | GptImage1 => JNum <$> g_output_compression params
      | DallE2 | DallE3 => None
      end
  ∧ edit_requestBody imageFiles maskFile edit !! "output_compression"
    = match e_model edit with
      | EditGptImage1 => JNum <$> e_output_compression edit
      | EditDallE2 => None
      end.
Proof.
  split.
  - unfold generate_requestBody, generate_response_format, generate_gpt_image_1,
      generate_dalle3, generate_n, generate_base.
    destruct (g_model params); simpl; frame; try done.
    destruct (g_output_compression params); simpl;
      [by rewrite lookup_insert_eq|by frame].
  - unfold edit_requestBody, edit_response_format, edit_gpt_image_1,
      edit_image_and_mask, edit_base.
    destruct (e_model edit); simpl; frame; try done.
    destruct (e_output_compression edit); simpl;
      [by rewrite lookup_insert_eq|by frame].
Qed.

(** The keys an edit body can have. *)
Lemma edit_requestBody_keys (imageFiles : list Buffer) (maskFile : option Buffer)
    (params : EditParams) (k : string) :
  k ∉ ["prompt"; "model"; "size"; "n"; "image"; "mask"; "quality";
       "output_format"; "output_compression"; "background";
       "response_format"; "user"] →
  edit_requestBody imageFiles maskFile params !! k = None.
Proof.
  intros Hk.
  repeat (apply not_elem_of_cons_ne in Hk as [? Hk]).
  unfold edit_requestBody, edit_response_format, edit_gpt_image_1,
    edit_image_and_mask, edit_base.
  destruct (e_model params); simpl; frame; done.
Qed.

(** X3: an edit body always has [prompt], [model], [size], [n] and [image],
    with the request's own count (no model forces it to 1), and never has a
    key outside the twelve that [editImage] writes: no [style] and no
    [moderation], in particular. *)
Theorem edit_body_shape (imageFiles : list Buffer) (maskFile : option Buffer)
    (params : EditParams) :
  let requestBody := edit_requestBody imageFiles maskFile params in
  requestBody !! "prompt" = Some (JStr (e_prompt params))
  ∧ requestBody !! "model" = Some (JStr (EditModel_str (e_model params)))
  ∧ requestBody !! "size" = Some (JStr (e_size params))
  ∧ requestBody !! "n" = Some (JNum (e_n params))
  ∧ is_Some (requestBody !! "image")
  ∧ requestBody !! "style" = None
  ∧ requestBody !! "moderation" = None
  ∧ ∀ k, is_Some (requestBody !! k) →
      k ∈ ["prompt"; "model"; "size"; "n"; "image"; "mask"; "quality";
           "output_format"; "output_compression"; "background";
           "response_format"; "user"].
Proof.
  cbv zeta. split_and!.
  1-4: unfold edit_requestBody, edit_response_format, edit_gpt_image_1,
         edit_image_and_mask, edit_base;
       destruct (e_model params); simpl; frame; by rewrite lookup_insert_eq.
  - rewrite edit_lookup_image. by eexists.
  - apply edit_requestBody_keys. rewrite !not_elem_of_cons.
    split_and!; try done. apply not_elem_of_nil.
  - apply edit_requestBody_keys. rewrite !not_elem_of_cons.
    split_and!; try done. apply not_elem_of_nil.
  - intros k Hk.
    destruct (decide (k ∈ ["prompt"; "model"; "size"; "n"; "image"; "mask";
                           "quality"; "output_format"; "output_compression";
                           "background"; "response_format"; "user"]))
      as [Hin|Hout]; [done|].
    rewrite edit_requestBody_keys in Hk by done. by destruct Hk.
Qed.

(** X4: for every model, in generation and in edits, the body has a [user]
    key exactly when the request's [user] is a non-empty string, and then
    with that string unchanged. *)
Theorem user_sent (params : GenerateParams) (imageFiles : list Buffer)
    (maskFile : option Buffer) (edit : EditParams) (v : jsval) :
  (generate_requestBody params !! "user" = Some v
   ↔ ∃ u, g_user params = Some u ∧ u ≠ "" ∧ v = JStr u)
  ∧ (edit_requestBody imageFiles maskFile edit !! "user" = Some v
     ↔ ∃ u, e_user edit = Some u ∧ u ≠ "" ∧ v = JStr u).
Proof.
  assert (Hset : ∀ (user : option string) (rb : gmap string jsval),
            rb !! "user" = None →
            set_user user rb !! "user" = Some v
            ↔ ∃ u, user = Some u ∧ u ≠ "" ∧ v = JStr u).
  { intros user rb Hrb. unfold set_user.
    destruct (truthy user) eqn:Huser.
    - apply truthy_Some in Huser as (u & -> & Hu). rewrite lookup_insert_eq.
      simpl. split.
      + intros [= <-]. by exists u.
      + by intros (u' & [= <-] & _ & ->).
    - rewrite Hrb. split; [done|]. intros (u & -> & Hu & _).
      simpl in Huser. apply negb_false_iff, String.eqb_eq in Huser. done. }
  split; apply Hset.
  - unfold generate_response_format, generate_gpt_image_1, generate_dalle3,
      generate_n, generate_base.
    destruct (g_model params); simpl; by frame.
  - unfold edit_response_format, edit_gpt_image_1, edit_image_and_mask, edit_base.
    destruct (e_model edit); simpl; by frame.
Qed.

(** ** Decimal numerals *)

Lemma string_of_uint_digits (d : Decimal.uint) :
  forallb is_digit (list_ascii_of_string (NilEmpty.string_of_uint d)) = true.
Proof. induction d; simpl; auto. Qed.

Lemma to_uint_not_Nil (k : nat) : Nat.to_uint k ≠ Decimal.Nil.
Proof.
  intros Hnil. pose proof (DecimalNat.Unsigned.of_to k) as Hk.
  rewrite Hnil in Hk. simpl in Hk. subst k. discriminate Hnil.
Qed.

Lemma index_str_NilEmpty (k : nat) :
  index_str k = NilEmpty.string_of_uint (Nat.to_uint k).
Proof.
  unfold index_str, NilZero.string_of_uint.
  pose proof (to_uint_not_Nil k). by destruct (Nat.to_uint k).
Qed.

Lemma index_str_digits (k : nat) :
  forallb is_digit (list_ascii_of_string (index_str k)) = true.
Proof. rewrite index_str_NilEmpty. apply string_of_uint_digits. Qed.

Lemma index_str_inj (i j : nat) : index_str i = index_str j → i = j.
Proof.
  intros Heq. apply DecimalNat.Unsigned.to_uint_inj.
  pose proof (NilZero.usu (Nat.to_uint i) (to_uint_not_Nil i)) as Hi.
  pose proof (NilZero.usu (Nat.to_uint j) (to_uint_not_Nil j)) as Hj.
  unfold index_str in Heq. rewrite Heq in Hi. congruence.
Qed.

(** Two numerals followed by a dot and anything are equal texts only when
    the numerals are equal. *)
Lemma digits_dot_inj (d1 d2 r1 r2 : string) :
  forallb is_digit (list_ascii_of_string d1) = true →
  forallb is_digit (list_ascii_of_string d2) = true →
  d1 +:+ String "." r1 = d2 +:+ String "." r2 → d1 = d2.
Proof.
  revert d2. induction d1 as [|c1 d1 IH]; intros [|c2 d2]; simpl; try done.
  - intros _ [Hc _]%andb_true_iff [= <- _]. done.
  - intros [Hc _]%andb_true_iff _ [= -> _]. done.
  - intros [_ H1]%andb_true_iff [_ H2]%andb_true_iff [= -> Heq].
    f_equal. by eapply IH.
Qed.

(** ** More on the files of an edit *)

Lemma sniff_mimeType_three (bytes : Buffer) :
  sniff_mimeType bytes = "image/png" ∨ sniff_mimeType bytes = "image/jpeg"
  ∨ sniff_mimeType bytes = "image/webp".
Proof.
  rewrite sniff_mimeType_cases.
  destruct (startsWith _ "89504e47"); [by left|].
  destruct (startsWith _ "ffd8ffe"); [by right; left|by right; right].
Qed.

Lemma convert_imageFile_name (index : nat) (bytes : Buffer) :
  ∃ ext, ext ∈ ["png"; "jpeg"; "webp"]
         ∧ convert_imageFile index bytes
           = mkFile bytes ("image" +:+ index_str index +:+ "." +:+ ext)
               ("image/" +:+ ext).
Proof.
  unfold convert_imageFile.
  destruct (sniff_mimeType_three bytes) as [-> | [-> | ->]].
  - exists "png". split; [repeat constructor|done].
  - exists "jpeg". split; [repeat constructor|done].
  - exists "webp". split; [repeat constructor|done].
Qed.

(** X5: the file built for the buffer at position [i] holds the bytes of
    that buffer, is named image[i].[ext] and typed image/[ext], with the
    same [ext] among png, jpeg and webp; the files of one request have
    pairwise distinct names. *)
Theorem converted_files_named (imageFiles : list Buffer) :
  (∀ i bytes, imageFiles !! i = Some bytes →
     ∃ ext, ext ∈ ["png"; "jpeg"; "webp"]
            ∧ imap convert_imageFile imageFiles !! i
              = Some (mkFile bytes ("image" +:+ index_str i +:+ "." +:+ ext)
                        ("image/" +:+ ext)))
  ∧ NoDup (file_name <$> imap convert_imageFile imageFiles).
Proof.
  split.
  - intros i bytes Hi.
    destruct (convert_imageFile_name i bytes) as (ext & Hext & Heq).
    exists ext. split; [done|]. by rewrite list_lookup_imap, Hi, <- Heq.
  - apply NoDup_alt. intros i j name.
    rewrite !list_lookup_fmap, !list_lookup_imap.
    destruct (imageFiles !! i) as [bi|]; [|done].
    destruct (imageFiles !! j) as [bj|]; [|done].
    destruct (convert_imageFile_name i bi) as (ei & _ & Hi).
    destruct (convert_imageFile_name j bj) as (ej & _ & Hj).
    cbn [fmap option_fmap option_map]. rewrite Hi, Hj. cbn [file_name].
    intros [= <-] [= Heq]. symmetry. apply index_str_inj.
    eapply digits_dot_inj; [apply index_str_digits..|exact Heq].
Qed.

(** Witness for X5: the second of two uploads. *)
Lemma converted_files_named_witness :
  ∃ ext, ext ∈ ["png"; "jpeg"; "webp"]
         ∧ imap convert_imageFile [[x89; x50; x4e; x47]; [xff; xd8; xff; xe0]] !! 1%nat
           = Some (mkFile [xff; xd8; xff; xe0]
                     ("image" +:+ index_str 1 +:+ "." +:+ ext) ("image/" +:+ ext)).
Proof.
  apply (proj1 (converted_files_named
                  [[x89; x50; x4e; x47]; [xff; xd8; xff; xe0]]) 1%nat).
  reflexivity.
Defined.

(** X6: the label is always one of image/png, image/jpeg and image/webp; a
    buffer of fewer than four bytes, the empty one included, is labelled
    image/webp, and so is a buffer that starts with FF D8 FF followed by a
    byte outside E0..EF (a JPEG stream whose first segment is not an
    application segment). *)
Theorem sniff_mimeType_fallback (bytes : Buffer) :
  sniff_mimeType bytes ∈ ["image/png"; "image/jpeg"; "image/webp"]
  ∧ (length bytes < 4 → sniff_mimeType bytes = "image/webp")
  ∧ (∀ b rest, bytes = xff :: xd8 :: xff :: b :: rest →
       (Byte.to_N b / 16)%N ≠ 14%N →
       sniff_mimeType bytes = "image/webp").
Proof.
  assert (Hwebp : ¬ png_signature bytes → ¬ jpeg_signature bytes →
                    sniff_mimeType bytes = "image/webp").
  { intros Hpng Hjpeg. rewrite sniff_mimeType_cases.
    destruct (startsWith _ "89504e47") eqn:Hp.
    { by apply startsWith_png in Hp. }
    destruct (startsWith _ "ffd8ffe") eqn:Hj; [|done].
    by apply startsWith_jpeg in Hj. }
  split_and!.
  - destruct (sniff_mimeType_three bytes) as [-> | [-> | ->]]; repeat constructor.
  - intros Hlen. apply Hwebp.
    + intros [rest ->]. simpl in Hlen. lia.
    + intros (b & rest & -> & _). simpl in Hlen. lia.
  - intros b rest -> Hb. apply Hwebp.
    + intros [rest' [=]].
    + intros (b' & rest' & [= <- <-] & Hb'). done.
Qed.

(** Witness for X6: FF D8 FF DB, the start of a JPEG stream without an
    application segment. *)
Lemma sniff_mimeType_fallback_witness :
  sniff_mimeType [xff; xd8; xff; xdb; x00; x43] = "image/webp".
Proof.
  apply (proj2 (proj2 (sniff_mimeType_fallback [xff; xd8; xff; xdb; x00; x43]))
           xdb [x00; x43]).
  - reflexivity.
  - discriminate.
Defined.

(** ** More on the response normaliser *)

Lemma map_throwing_app {A B} (f : A → Result B) (l1 l2 : list A) :
  map_throwing f (l1 ++ l2)
  = match map_throwing f l1 with
    | Throw message => Throw message
    | Ok out1 =>
        match map_throwing f l2 with
        | Throw message => Throw message
        | Ok out2 => Ok (out1 ++ out2)
        end
    end.
Proof.
  induction l1 as [|x l1 IH]; simpl.
  - by destruct (map_throwing f l2).
  - destruct (f x); [|done]. rewrite IH.
    destruct (map_throwing f l1); [|done]. by destruct (map_throwing f l2).
Qed.

Lemma map_throwing_Ok {A B} (f : A → Result B) (g : A → B) (l : list A) :
  Forall (λ x, f x = Ok (g x)) l → map_throwing f l = Ok (g <$> l).
Proof.
  induction 1 as [|x l Hx _ IH]; [done|]. simpl. by rewrite Hx, IH.
Qed.

(** X7: a reply whose images all have a non-empty [url] gives back these
    URLs, unchanged and in order, whatever [b64_json] comes with each of
    them; a reply whose images have no [url], or an empty one, and a
    non-empty [b64_json] gives the payloads behind the 22 characters of
    data:image/png;base64, so that dropping these characters gives the
    payloads back. *)
Theorem normalize_response_round_trip
    (with_url : list (string * option string))
    (with_payload : list (option string * string)) :
  (Forall (λ image, image.1 ≠ "") with_url →
   normalize_response
     (Some ((λ image, mkImage (Some image.1) image.2) <$> with_url))
   = Ok with_url.*1)
  ∧ (Forall (λ image, blank image.1 ∧ image.2 ≠ "") with_payload →
     ∃ out,
       normalize_response
         (Some ((λ image, mkImage image.1 (Some image.2)) <$> with_payload))
       = Ok out
       ∧ drop_chars 22 <$> out = with_payload.*2
       ∧ Forall (λ s, startsWith s "data:image/png;base64," = true) out).
Proof.
  split.
  - intros Hurls. simpl.
    rewrite (map_throwing_Ok _ (λ image, default "" (url image))).
    + by rewrite <- list_fmap_compose.
    + apply Forall_fmap, (Forall_impl _ _ _ Hurls). intros [u b] Hu.
      unfold normalize_image. simpl in *. by apply String.eqb_neq in Hu as ->.
  - intros Hpayloads.
    exists ((λ image, "data:image/png;base64," +:+ image.2) <$> with_payload).
    split_and!.
    + simpl.
      rewrite (map_throwing_Ok _
                 (λ image, "data:image/png;base64," +:+ default "" (b64_json image))).
      * by rewrite <- list_fmap_compose.
      * apply Forall_fmap, (Forall_impl _ _ _ Hpayloads).
        intros [u b] [Hu Hb]. unfold normalize_image. simpl in *.
        apply truthy_false_blank in Hu. rewrite Hu.
        by apply String.eqb_neq in Hb as ->.
    + by rewrite <- list_fmap_compose.
    + apply Forall_fmap, Forall_forall. intros image _. simpl.
      unfold startsWith. simpl. apply prefix_empty.
Qed.

(** Witness for X7: the same URL twice, with and without a payload. *)
Lemma normalize_response_round_trip_witness :
  normalize_response
    (Some [mkImage (Some "https://images.example/a.png") (Some "QUJD");
           mkImage (Some "https://images.example/a.png") None])
  = Ok ["https://images.example/a.png"; "https://images.example/a.png"].
Proof.
  apply (proj1 (normalize_response_round_trip
                  [("https://images.example/a.png", Some "QUJD");
                   ("https://images.example/a.png", None)] [])).
  repeat constructor; discriminate.
Defined.

(** X8: normalising two lists put end to end gives the two results put end
    to end, and fails when one of the two fails, with the failure of the
    first when both do. *)
Theorem normalize_response_app (images1 images2 : list Image) :
  normalize_response (Some (images1 ++ images2))
  = match normalize_response (Some images1), normalize_response (Some images2) with
    | Ok out1, Ok out2 => Ok (out1 ++ out2)
    | Throw message, _ => Throw message
    | Ok _, Throw message => Throw message
    end.
Proof. simpl. apply map_throwing_app. Qed.

(** ** More on the schemas *)

Lemma parse_map_ParseOk {A B} (f : A → B) (a : SafeParse A) (y : B) :
  parse_map f a = ParseOk y → ∃ x, a = ParseOk x ∧ y = f x.
Proof. destruct a as [x|]; [|done]. intros [= <-]. by exists x. Qed.

Lemma both_ParseOk {A B} (a : SafeParse A) (b : SafeParse B) (x : A) (y : B) :
  both a b = ParseOk (x, y) → a = ParseOk x ∧ b = ParseOk y.
Proof. destruct a, b; try done. by intros [= <- <-]. Qed.

Lemma z_number_min_max_ParseOk lo hi path input q :
  z_number_min_max lo hi path input = ParseOk q →
  input = Some (JSNumber q) ∧ (lo <= q ∧ q <= hi)%Q.
Proof.
  unfold z_number_min_max. destruct input as [[]|]; try done.
  destruct (Qle_bool lo _) eqn:Hlo, (Qle_bool _ hi) eqn:Hhi; try done.
  intros [= <-]. by rewrite <- !Qle_bool_iff.
Qed.

Lemma z_string_min1_ParseOk message path input s :
  z_string_min1 message path input = ParseOk s →
  input = Some (JSString s) ∧ s ≠ "".
Proof.
  unfold z_string_min1. destruct input as [[]|]; try done.
  destruct (String.eqb _ "") eqn:Hs; [done|]. intros [= <-].
  by apply String.eqb_neq in Hs.
Qed.

Lemma z_string_ParseOk path input s :
  z_string path input = ParseOk s → input = Some (JSString s).
Proof. unfold z_string. destruct input as [[]|]; try done. by intros [= <-]. Qed.

Lemma z_optional_ParseOk {A} (schema : list PathSegment → option json → SafeParse A)
    path input (v : option A) :
  z_optional schema path input = ParseOk v →
  match v with
  | None => input = None
  | Some a => schema path input = ParseOk a
  end.
Proof.
  unfold z_optional. destruct input; [|by intros [= <-]].
  intros (a & Ha & ->)%parse_map_ParseOk. done.
Qed.

(** Takes a successful parse of an object apart, property by property. *)
Ltac parse_inversion H :=
  apply parse_map_ParseOk in H as (? & H & ->);
  repeat match type of H with
         | both _ _ = ParseOk ?p =>
             let x := fresh "x" in
             let y := fresh "y" in
             let Hx := fresh "Hfield" in
             destruct p as [x y]; apply both_ParseOk in H as [Hx H]
         end.

Lemma parse_ImageFields_bounds default_size o fields :
  parse_ImageFields default_size o = ParseOk fields →
  (1 <= f_n fields ∧ f_n fields <= 10)%Q
  ∧ ∀ c, f_output_compression fields = Some c → (0 <= c ∧ c <= 100)%Q.
Proof.
  unfold parse_ImageFields. intros H. parse_inversion H. simpl. split.
  - unfold z_default in Hfield1. destruct (get "n" o).
    + by apply z_number_min_max_ParseOk in Hfield1 as [_ ?].
    + injection Hfield1 as <-. done.
  - intros c ->. apply z_optional_ParseOk in Hfield6.
    by apply z_number_min_max_ParseOk in Hfield6 as [_ ?].
Qed.

(** X9: what the three JSON schemas let through is within bounds: the
    prompt, the template identifier and the reference identifiers are not
    empty, the count is between 1 and 10, a compression is between 0 and
    100, and a batch has at least one item. *)
Theorem validated_within_bounds (data : json) :
  (∀ v, generateImageSchema data = ParseOk v →
     gi_prompt v ≠ ""
     ∧ (1 <= f_n (gi_fields v) ∧ f_n (gi_fields v) <= 10)%Q
     ∧ ∀ c, f_output_compression (gi_fields v) = Some c → (0 <= c ∧ c <= 100)%Q)
  ∧ (∀ v, flowerGenerationSchema data = ParseOk v →
       fg_templateId v ≠ ""
       ∧ (1 <= f_n (fg_fields v) ∧ f_n (fg_fields v) <= 10)%Q
       ∧ ∀ c, f_output_compression (fg_fields v) = Some c → (0 <= c ∧ c <= 100)%Q)
  ∧ (∀ v, batchFlowerGenerationSchema data = ParseOk v →
       bf_templateId v ≠ ""
       ∧ bf_items v ≠ []
       ∧ (1 <= f_n (bf_fields v) ∧ f_n (bf_fields v) <= 10)%Q
       ∧ ∀ c, f_output_compression (bf_fields v) = Some c → (0 <= c ∧ c <= 100)%Q).
Proof.
  split_and!; intros v H.
  - destruct data as [| | | | |o]; try done. simpl in H.
    apply parse_map_ParseOk in H as ([prompt fields] & H & ->).
    apply both_ParseOk in H as [Hprompt Hfields]. simpl.
    apply z_string_min1_ParseOk in Hprompt as [_ ?].
    by apply parse_ImageFields_bounds in Hfields as [? ?].
  - destruct data as [| | | | |o]; try done. simpl in H.
    parse_inversion H. simpl.
    apply z_string_min1_ParseOk in Hfield as [_ ?].
    by apply parse_ImageFields_bounds in Hfield1 as [? ?].
  - destruct data as [| | | | |o]; try done. simpl in H.
    parse_inversion H. simpl.
    apply z_string_min1_ParseOk in Hfield as [_ ?].
    apply parse_ImageFields_bounds in H as [[? ?] ?]. split_and!; try done.
    unfold z_items in Hfield0.
    destruct (get "items" o) as [[| | | |elements|]|]; try done.
    apply parse_map_ParseOk in Hfield0 as ([[] items] & Hitems & ->).
    apply both_ParseOk in Hitems as [Hmin Hitems]. simpl.
    destruct elements as [|e elements]; [done|].
    rewrite imap_cons in Hitems. simpl in Hitems.
    apply parse_map_ParseOk in Hitems as (? & _ & ->). done.
Qed.

(** Witness for X9: the scenario of the specification. *)
Lemma validated_within_bounds_witness :
  ∃ v, generateImageSchema scenario_generate = ParseOk v
       ∧ gi_prompt v ≠ ""
       ∧ (1 <= f_n (gi_fields v) ∧ f_n (gi_fields v) <= 10)%Q.
Proof.
  eexists. split; [reflexivity|].
  destruct (proj1 (validated_within_bounds scenario_generate) _ eq_refl)
    as (Hprompt & Hn & _).
  by split.
Defined.

(** X10: [generateImageSchema] reads the twelve properties it names and
    nothing else: two bodies that agree on them are parsed alike, so a
    property under any other key changes neither the validated request nor
    the issues. *)
Theorem generateImageSchema_strips (o o' : list (string * json)) :
  (∀ k, k ∈ ["prompt"; "model"; "size"; "n"; "quality"; "style";
             "response_format"; "output_format"; "output_compression";
             "background"; "moderation"; "user"] →
        get k o = get k o') →
  generateImageSchema (JSObject o) = generateImageSchema (JSObject o').
Proof.
  intros Hsame. unfold generateImageSchema, parse_ImageFields.
  rewrite (Hsame "prompt") by repeat constructor.
  rewrite (Hsame "model") by repeat constructor.
  rewrite (Hsame "size") by repeat constructor.
  rewrite (Hsame "n") by repeat constructor.
  rewrite (Hsame "quality") by repeat constructor.
  rewrite (Hsame "style") by repeat constructor.
  rewrite (Hsame "response_format") by repeat constructor.
  rewrite (Hsame "output_format") by repeat constructor.
  rewrite (Hsame "output_compression") by repeat constructor.
  rewrite (Hsame "background") by repeat constructor.
  rewrite (Hsame "moderation") by repeat constructor.
  rewrite (Hsame "user") by repeat constructor.
  done.
Qed.

(** Witness for X10: a property [seed], which the schema does not name. *)
Lemma generateImageSchema_strips_witness :
  generateImageSchema
    (JSObject [("seed", JSNumber 7%Q); ("prompt", JSString "a lily")])
  = generateImageSchema (JSObject [("prompt", JSString "a lily")]).
Proof.
  apply generateImageSchema_strips. intros k Hk.
  repeat (apply elem_of_cons in Hk as [->|Hk]); try reflexivity.
  by apply elem_of_nil in Hk.
Defined.

Lemma issue_reports {A} code path message : reports (@issue code path message A).
Proof. by intros issues [= <-]. Qed.

Lemma both_reports {A B} (a : SafeParse A) (b : SafeParse B) :
  reports a → reports b → reports (both a b).
Proof.
  intros Ha Hb issues. destruct a as [x|i], b as [y|j]; simpl; try done.
  - intros [= <-]. by apply Hb.
  - intros [= <-]. by apply Ha.
  - intros [= <-]. intros [Hi _]%app_eq_nil. by eapply Ha.
Qed.

Lemma parse_map_reports {A B} (f : A → B) (a : SafeParse A) :
  reports a → reports (parse_map f a).
Proof. intros Ha issues. destruct a; [done|]. intros [= <-]. by apply Ha. Qed.

Lemma ParseOk_reports {A} (x : A) : reports (ParseOk x).
Proof. by intros issues. Qed.

Lemma parse_all_reports {A B} (schema : A → SafeParse B) (l : list A) :
  (∀ x, reports (schema x)) → reports (parse_all schema l).
Proof.
  intros Hschema. induction l as [|x l IH]; simpl; [apply ParseOk_reports|].
  by apply parse_map_reports, both_reports.
Qed.

Lemma z_string_reports path input : reports (z_string path input).
Proof. unfold z_string. repeat case_match;
    first [apply ParseOk_reports | apply issue_reports | by intros issues [= <-]].
Qed.

Lemma z_string_min1_reports message path input :
  reports (z_string_min1 message path input).
Proof. unfold z_string_min1. repeat case_match;
    first [apply ParseOk_reports | apply issue_reports | by intros issues [= <-]].
Qed.

Lemma z_number_min_max_reports lo hi path input :
  reports (z_number_min_max lo hi path input).
Proof. unfold z_number_min_max. repeat case_match;
    first [apply ParseOk_reports | apply issue_reports | by intros issues [= <-]].
Qed.

Lemma z_enum_reports {A} (members : list (string * A)) path input :
  reports (z_enum members path input).
Proof. unfold z_enum. repeat case_match;
    first [apply ParseOk_reports | apply issue_reports | by intros issues [= <-]].
Qed.

Lemma z_optional_reports {A}
    (schema : list PathSegment → option json → SafeParse A) path input :
  (∀ path input, reports (schema path input)) →
  reports (z_optional schema path input).
Proof.
  intros Hschema. unfold z_optional.
  destruct input; [by apply parse_map_reports|apply ParseOk_reports].
Qed.

Lemma z_default_reports {A}
    (schema : list PathSegment → option json → SafeParse A) d path input :
  (∀ path input, reports (schema path input)) →
  reports (z_default schema d path input).
Proof.
  intros Hschema. unfold z_default. destruct input; [done|apply ParseOk_reports].
Qed.

Lemma z_record_string_reports path input : reports (z_record_string path input).
Proof.
  unfold z_record_string. destruct input as [[]|]; try apply issue_reports.
  apply parse_map_reports, parse_all_reports. intros kv.
  apply parse_map_reports, z_string_reports.
Qed.

Lemma z_array_string_reports path input : reports (z_array_string path input).
Proof.
  unfold z_array_string. destruct input as [[]|]; try apply issue_reports.
  apply parse_all_reports. intros iv. apply z_string_reports.
Qed.

Lemma z_number_or_NaN_reports lo hi path n : reports (z_number_or_NaN lo hi path n).
Proof.
  unfold z_number_or_NaN.
  destruct n as [|z|[]];
    first [apply z_number_min_max_reports|apply issue_reports].
Qed.

Lemma batchFlowerItemSchema_reports path input :
  reports (batchFlowerItemSchema path input).
Proof.
  unfold batchFlowerItemSchema. destruct input as [[]|]; try apply issue_reports.
  apply parse_map_reports, both_reports;
    [apply z_string_min1_reports|apply z_record_string_reports].
Qed.

Lemma z_items_reports path input : reports (z_items path input).
Proof.
  unfold z_items. destruct input as [[]|]; try apply issue_reports.
  apply parse_map_reports, both_reports.
  - destruct (Nat.eqb _ 0); [apply issue_reports|apply ParseOk_reports].
  - apply parse_all_reports. intros iv. apply batchFlowerItemSchema_reports.
Qed.

(** Closes the goals on the parts of an object schema. *)
Ltac reports_fields :=
  repeat first
    [ apply parse_map_reports
    | apply both_reports
    | apply z_string_min1_reports
    | apply z_string_reports
    | apply z_number_or_NaN_reports
    | apply z_record_string_reports
    | apply z_items_reports
    | apply z_enum_reports
    | apply z_default_reports; intros
    | apply z_optional_reports; intros
    | apply z_number_min_max_reports
    | apply z_array_string_reports
    | apply issue_reports ].

Lemma parse_ImageFields_reports default_size o :
  reports (parse_ImageFields default_size o).
Proof. unfold parse_ImageFields. reports_fields. Qed.

(** X11: a request that one of the five schemas refuses is refused with at
    least one issue (the [ZodError] a route turns into its answer is never
    empty). *)
Theorem schemas_report (data : json) (form : TransformedData) :
  reports (generateImageSchema data)
  ∧ reports (flowerGenerationSchema data)
  ∧ reports (batchFlowerGenerationSchema data)
  ∧ reports (editImageSchema form)
  ∧ reports (createVariationsSchema form).
Proof.
  split_and!.
  - destruct data; try apply issue_reports.
    apply parse_map_reports, both_reports;
      [apply z_string_min1_reports|apply parse_ImageFields_reports].
  - destruct data; try apply issue_reports.
    unfold flowerGenerationSchema.
    repeat first [apply parse_ImageFields_reports | progress reports_fields].
  - destruct data; try apply issue_reports.
    unfold batchFlowerGenerationSchema.
    repeat first [apply parse_ImageFields_reports | progress reports_fields].
  - unfold editImageSchema. reports_fields.
  - unfold createVariationsSchema. reports_fields.
Qed.

Lemma parse_all_ParseOk {A B} (schema : A → SafeParse B) (l : list A)
    (out : list B) :
  parse_all schema l = ParseOk out → Forall2 (λ x y, schema x = ParseOk y) l out.
Proof.
  revert out. induction l as [|x l IH]; intros out; simpl.
  - intros [= <-]. constructor.
  - intros ([y ys] & H & ->)%parse_map_ParseOk.
    apply both_ParseOk in H as [Hx Hl]. constructor; [done|by apply IH].
Qed.

Lemma Forall2_imap_pair {A B} (Q : A → B → Prop) (l : list A) (out : list B) :
  Forall2 (λ iv y, Q (snd iv) y) (imap pair l) out → Forall2 Q l out.
Proof.
  intros H.
  assert (Hsnd : snd <$> imap pair l = l).
  { rewrite (fmap_imap_pointwise pair snd (λ x, x) l) by done.
    apply list_fmap_id. }
  rewrite <- Hsnd. by apply Forall2_fmap_l.
Qed.

(** The record a schema builds from the properties of an object gives each
    key the text of its first binding. *)
Lemma z_record_string_lookup path properties (variables : gmap string string) :
  z_record_string path (Some (JSObject properties)) = ParseOk variables →
  ∀ k, JSString <$> variables !! k = get k properties.
Proof.
  unfold z_record_string.
  intros (pairs & Hall & ->)%parse_map_ParseOk k.
  apply parse_all_ParseOk in Hall.
  induction Hall as [|[k0 v0] [k1 s] properties pairs Hkv _ IH]; [done|].
  apply parse_map_ParseOk in Hkv as (s' & Hs & [= -> ->]).
  apply z_string_ParseOk in Hs. simpl in Hs. injection Hs as ->.
  simpl. destruct (String.eqb_spec k0 k) as [->|Hne].
  - by rewrite lookup_insert_eq.
  - by rewrite lookup_insert_ne.
Qed.

(** X12: the items of a validated batch are those of the [items] array of
    the body, as many and in the same order: each comes from the object at
    its position, with the reference identifier and the variables that
    object binds (for a key bound twice, the first binding). *)
Theorem batch_items_in_order (o : list (string * json))
    (v : BatchFlowerGenerationRequest) :
  batchFlowerGenerationSchema (JSObject o) = ParseOk v →
  ∃ elements,
    get "items" o = Some (JSArray elements)
    ∧ Forall2
        (λ element item,
           ∃ properties variables,
             element = JSObject properties
             ∧ get "referenceImageId" properties
               = Some (JSString (referenceImageId item))
             ∧ get "variables" properties = Some (JSObject variables)
             ∧ ∀ k, JSString <$> item_variables item !! k = get k variables)
        elements (bf_items v).
Proof.
  intros H. simpl in H. parse_inversion H. simpl. clear H Hfield.
  unfold z_items in Hfield0.
  destruct (get "items" o) as [[| | | |elements|]|]; try done.
  exists elements. split; [done|].
  apply parse_map_ParseOk in Hfield0 as ([[] items] & Hitems & ->).
  apply both_ParseOk in Hitems as [_ Hitems]. simpl.
  apply parse_all_ParseOk in Hitems. apply Forall2_imap_pair.
  eapply Forall2_impl; [exact Hitems|].
  intros [i element] item Hitem. simpl in *.
  unfold batchFlowerItemSchema in Hitem.
  destruct element as [| | | | |properties]; try done.
  apply parse_map_ParseOk in Hitem as ([reference variables] & Hitem & ->).
  apply both_ParseOk in Hitem as [Hreference Hvariables]. simpl.
  apply z_string_min1_ParseOk in Hreference as [Hreference _].
  destruct (get "variables" properties) as [[| | | | |bindings]|] eqn:Hget;
    try done.
  exists properties, bindings. split_and!; try done.
  by eapply z_record_string_lookup.
Qed.

(** Witness for X12: the sample batch. *)
Lemma batch_items_in_order_witness :
  ∃ elements,
    get "items"
      [("templateId", JSString "bouquet");
       ("items", JSArray [sample_item "ref-1" "Red Rose";
                          sample_item "ref-2" "White Tulip";
                          sample_item "ref-3" "Blue Iris"]);
       ("model", JSString "gpt-image-1")]
    = Some (JSArray elements)
    ∧ length elements = length (bf_items sample_batch_validated).
Proof.
  destruct (batch_items_in_order _ sample_batch_validated
              (eq_refl : batchFlowerGenerationSchema sample_batch_request
                         = ParseOk sample_batch_validated))
    as (elements & Hget & Hall).
  exists elements. split; [exact Hget|]. by eapply Forall2_length.
Defined.

(** X13: the variables of a validated flower request are the properties of
    the [variables] object of the body: every value is a string, and a key
    has the text of its first binding. *)
Theorem flower_variables_read (o : list (string * json))
    (v : FlowerGenerationRequest) :
  flowerGenerationSchema (JSObject o) = ParseOk v →
  ∃ properties,
    get "variables" o = Some (JSObject properties)
    ∧ ∀ k, JSString <$> fg_variables v !! k = get k properties.
Proof.
  intros H. simpl in H. parse_inversion H. simpl. clear H Hfield Hfield1.
  destruct (get "variables" o) as [[| | | | |properties]|]; try done.
  exists properties. split; [done|]. by eapply z_record_string_lookup.
Qed.

(** Witness for X13: the sample flower request. *)
Lemma flower_variables_read_witness :
  ∃ properties,
    get "variables"
      [("templateId", JSString "single-branch");
       ("variables", sample_variables "Red Rose");
       ("model", JSString "gemini-2.5-flash-image-preview")]
    = Some (JSObject properties)
    ∧ ∀ k, JSString <$> fg_variables sample_flower_validated !! k
           = get k properties.
Proof.
  exact (flower_variables_read _ sample_flower_validated
           (eq_refl : flowerGenerationSchema sample_flower_request
                      = ParseOk sample_flower_validated)).
Defined.

(** ** More on the template substitution *)

Lemma GetSubstitution_plain (matched before after replacement : string) :
  lacks "$" replacement = true →
  GetSubstitution matched before after replacement = replacement.
Proof.
  unfold lacks. induction replacement as [|c r IH]; [done|].
  cbn [list_ascii_of_string forallb]. intros [Hc Hr]%andb_true_iff.
  cbn [GetSubstitution]. apply negb_true_iff in Hc as ->. by rewrite IH.
Qed.

Lemma prefix_app (s t : string) : String.prefix s (s +:+ t) = true.
Proof.
  induction s as [|c s IH]; [apply prefix_empty|].
  change (String c s +:+ t) with (String c (s +:+ t)).
  by rewrite prefix_cons, Ascii.eqb_refl.
Qed.

Lemma drop_chars_app (s t : string) : drop_chars (String.length s) (s +:+ t) = t.
Proof. induction s as [|c s IH]; [by destruct t|done]. Qed.

Lemma append_assoc (a b c : string) : (a +:+ b) +:+ c = a +:+ (b +:+ c).
Proof.
  induction a as [|x a IH]; [done|].
  change (String x ((a +:+ b) +:+ c) = String x (a +:+ (b +:+ c))).
  by rewrite IH.
Qed.

Lemma append_empty (a : string) : a +:+ "" = a.
Proof.
  induction a as [|x a IH]; [done|].
  change (String x (a +:+ "") = String x a). by rewrite IH.
Qed.

(** A text without an opening brace holds no placeholder. *)
Lemma replace_from_no_brace (source replacement before s : string) :
  startsWith source "{" = true → lacks "{" s = true →
  replace_from source replacement before s 0 = s.
Proof.
  intros Hsource. unfold lacks. revert before.
  induction s as [|c s IH]; intros before; [done|].
  cbn [list_ascii_of_string forallb]. intros [Hc Hs]%andb_true_iff.
  cbn [replace_from].
  destruct source as [|c0 source]; [done|].
  unfold startsWith in *. rewrite prefix_cons in *.
  apply andb_true_iff in Hsource as [Hc0 _]. apply Ascii.eqb_eq in Hc0 as <-.
  apply negb_true_iff in Hc. rewrite Ascii.eqb_sym in Hc. rewrite Hc. simpl.
  by rewrite IH.
Qed.

(** The characters of a match are passed over. *)
Lemma replace_from_skip (source replacement before s1 s2 : string) :
  replace_from source replacement before (s1 +:+ s2) (String.length s1)
  = replace_from source replacement (before +:+ s1) s2 0.
Proof.
  revert before. induction s1 as [|c s1 IH]; intros before.
  - change ("" +:+ s2) with s2. cbn [String.length]. by rewrite append_empty.
  - change (String c s1 +:+ s2) with (String c (s1 +:+ s2)).
    cbn [String.length replace_from]. rewrite IH. by rewrite append_assoc.
Qed.

Lemma replace_from_single (source replacement before pre post : string) :
  startsWith source "{" = true → lacks "{" pre = true → lacks "{" post = true →
  replace_from source replacement before (pre +:+ source +:+ post) 0
  = pre +:+ GetSubstitution source (before +:+ pre) post replacement +:+ post.
Proof.
  intros Hsource Hpre Hpost. revert before Hpre. unfold lacks.
  induction pre as [|c pre IH]; intros before Hpre.
  - change ("" +:+ source +:+ post) with (source +:+ post).
    change ("" +:+ ?x) with x.
    rewrite append_empty.
    destruct source as [|c0 source]; [done|].
    change (String c0 source +:+ post) with (String c0 (source +:+ post)).
    cbn [replace_from].
    change (String c0 (source +:+ post)) with (String c0 source +:+ post).
    unfold startsWith at 1. rewrite prefix_app, drop_chars_app.
    cbn [String.length]. rewrite Nat.sub_1_r. cbn [Nat.pred].
    rewrite replace_from_skip. by rewrite replace_from_no_brace.
  - cbn [list_ascii_of_string forallb] in Hpre.
    apply andb_true_iff in Hpre as [Hc Hpre].
    change (String c pre +:+ source +:+ post)
      with (String c (pre +:+ source +:+ post)).
    cbn [replace_from].
    destruct source as [|c0 source]; [done|].
    unfold startsWith in *. rewrite prefix_cons in *.
    apply andb_true_iff in Hsource as [Hc0 Hrest].
    apply Ascii.eqb_eq in Hc0 as <-.
    apply negb_true_iff in Hc. rewrite Ascii.eqb_sym in Hc. rewrite Hc.
    cbn [andb]. rewrite IH by done. by rewrite append_assoc.
Qed.

(** X15: in a text that holds one placeholder and no other opening brace,
    a value without dollar sign takes the place of the placeholder as it
    is; the value [$&] puts the placeholder back, and [$$] leaves one
    dollar sign. *)
Theorem replace_RegExp_g_single (w : World) (name pre post value : string) :
  literal_name name = true →
  lacks "{" pre = true → lacks "{" post = true →
  let placeholder := "{{" +:+ name +:+ "}}" in
  (lacks "$" value = true →
   replace_RegExp_g w placeholder (pre +:+ placeholder +:+ post) value
   = Ok (pre +:+ value +:+ post))
  ∧ replace_RegExp_g w placeholder (pre +:+ placeholder +:+ post) "$&"
    = Ok (pre +:+ placeholder +:+ post)
  ∧ replace_RegExp_g w placeholder (pre +:+ placeholder +:+ post) "$$"
    = Ok (pre +:+ "$" +:+ post).
Proof.
  intros Hname Hpre Hpost placeholder. unfold replace_RegExp_g.
  subst placeholder. rewrite literal_placeholder_of_name by done.
  assert (startsWith ("{{" +:+ name +:+ "}}") "{" = true) as Hbrace by done.
  rewrite !replace_from_single by done.
  split_and!.
  - intros Hvalue. by rewrite GetSubstitution_plain.
  - cbn. by rewrite append_empty.
  - by cbn.
Qed.

(** Witness for X15. *)
Lemma replace_RegExp_g_single_witness :
  replace_RegExp_g sample_world "{{flower_name}}"
    "petals of [{{flower_name}}]; even" "Red Rose"
  = Ok "petals of [Red Rose]; even".
Proof.
  apply (proj1 (replace_RegExp_g_single sample_world "flower_name"
                  "petals of [" "]; even" "Red Rose" eq_refl eq_refl eq_refl)
           eq_refl).
Defined.

(** *** Templates cut into plain texts and placeholders *)

Lemma replace_from_step (source replacement before s : string) (c : ascii) :
  startsWith (String c s) source = false →
  replace_from source replacement before (String c s) 0
  = String c (replace_from source replacement (before +:+ String c "") s 0).
Proof. intros Hno. cbn [replace_from]. by rewrite Hno. Qed.

Lemma no_match_at (source s : string) (c : ascii) :
  startsWith source "{" = true → Ascii.eqb c "{" = false →
  startsWith (String c s) source = false.
Proof.
  intros Hsource Hc. destruct source as [|c0 source]; [done|].
  unfold startsWith in *. rewrite prefix_cons in *.
  apply andb_true_iff in Hsource as [Hc0 _]. apply Ascii.eqb_eq in Hc0 as <-.
  by rewrite Ascii.eqb_sym, Hc.
Qed.

(** A plain text is passed as it is. *)
Lemma replace_from_plain (source replacement before text rest : string) :
  startsWith source "{" = true → lacks "{" text = true →
  replace_from source replacement before (text +:+ rest) 0
  = text +:+ replace_from source replacement (before +:+ text) rest 0.
Proof.
  intros Hsource. unfold lacks. revert before.
  induction text as [|c text IH]; intros before Htext.
  - change ("" +:+ rest) with rest. by rewrite append_empty.
  - cbn [list_ascii_of_string forallb] in Htext.
    apply andb_true_iff in Htext as [Hc Htext]. apply negb_true_iff in Hc.
    change (String c text +:+ rest) with (String c (text +:+ rest)).
    rewrite replace_from_step by (by apply no_match_at).
    rewrite IH by done. by rewrite append_assoc.
Qed.

(** A match is replaced and passed over. *)
Lemma replace_from_match (source replacement before rest : string) :
  source ≠ "" →
  replace_from source replacement before (source +:+ rest) 0
  = GetSubstitution source before rest replacement
    +:+ replace_from source replacement (before +:+ source) rest 0.
Proof.
  intros Hsource. destruct source as [|c0 source]; [done|].
  change (String c0 source +:+ rest) with (String c0 (source +:+ rest)).
  cbn [replace_from].
  change (String c0 (source +:+ rest)) with (String c0 source +:+ rest).
  unfold startsWith. rewrite prefix_app, drop_chars_app.
  cbn [String.length]. rewrite Nat.sub_1_r. cbn [Nat.pred].
  change (String c0 source +:+ rest) with (String c0 (source +:+ rest)).
  rewrite replace_from_skip. by rewrite append_assoc.
Qed.

Lemma name_char_not_brace (c : ascii) :
  name_char c = true → Ascii.eqb c "{" = false ∧ Ascii.eqb c "}" = false.
Proof.
  unfold name_char. intros [_ Hc]%andb_true_iff. apply negb_true_iff in Hc.
  cbn [list_ascii_of_string existsb] in Hc.
  repeat (apply orb_false_iff in Hc as [? Hc]). done.
Qed.

Lemma name_lacks_brace (name : string) :
  forallb name_char (list_ascii_of_string name) = true →
  lacks "{" (name +:+ "}}") = true.
Proof.
  unfold lacks. induction name as [|c name IH]; [done|].
  cbn [list_ascii_of_string forallb]. intros [Hc Hname]%andb_true_iff.
  change (String c name +:+ "}}") with (String c (name +:+ "}}")).
  cbn [list_ascii_of_string forallb]. rewrite IH by done.
  apply name_char_not_brace in Hc as [-> _]. done.
Qed.

(** The placeholders of two names do not match each other. *)
Lemma placeholder_mismatch (m n rest : string) :
  forallb name_char (list_ascii_of_string m) = true →
  forallb name_char (list_ascii_of_string n) = true →
  m ≠ n →
  String.prefix (n +:+ "}}") (m +:+ "}}" +:+ rest) = false.
Proof.
  revert n. induction m as [|c m IH]; intros [|d n] Hm Hn Hne; [done|..].
  - cbn [list_ascii_of_string forallb] in Hn.
    apply andb_true_iff in Hn as [Hd _].
    apply name_char_not_brace in Hd as [_ Hd].
    change (String.prefix (String d (n +:+ "}}")) (String "}" (String "}" rest))
            = false).
    by rewrite prefix_cons, Hd.
  - cbn [list_ascii_of_string forallb] in Hm.
    apply andb_true_iff in Hm as [Hc _].
    apply name_char_not_brace in Hc as [_ Hc].
    change (String.prefix (String "}" "}") (String c (m +:+ "}}" +:+ rest))
            = false).
    by rewrite prefix_cons, Ascii.eqb_sym, Hc.
  - cbn [list_ascii_of_string forallb] in Hm, Hn.
    apply andb_true_iff in Hm as [_ Hm]. apply andb_true_iff in Hn as [_ Hn].
    change (String.prefix (String d (n +:+ "}}"))
              (String c (m +:+ "}}" +:+ rest)) = false).
    rewrite prefix_cons. destruct (Ascii.eqb_spec d c) as [->|]; [|done].
    cbn [andb]. apply IH; [done..|]. by intros ->.
Qed.

(** One pass of [processTemplate] over a cut text. *)
Lemma replace_from_segments (name value : string) (segments : list Segment) :
  forallb name_char (list_ascii_of_string name) = true →
  lacks "$" value = true →
  Forall (λ segment, well_cut segment = true) segments →
  ∀ before,
    replace_from ("{{" +:+ name +:+ "}}") value before (segments_text segments) 0
    = segments_text (fill name value <$> segments).
Proof.
  intros Hname Hvalue Hcut.
  assert (startsWith ("{{" +:+ name +:+ "}}") "{" = true) as Hbrace by done.
  induction Hcut as [|[text|m] segments Hsegment _ IH]; intros before;
    [done|..]; cbn [segments_text foldr fmap list_fmap segment_text fill].
  - fold (segments_text segments).
    fold (segments_text (fill name value <$> segments)).
    rewrite replace_from_plain by done. by rewrite IH.
  - fold (segments_text segments).
    fold (segments_text (fill name value <$> segments)).
    cbn [well_cut] in Hsegment.
    destruct (String.eqb_spec m name) as [->|Hne].
    + rewrite replace_from_match by done. cbn [segment_text].
      by rewrite GetSubstitution_plain, IH.
    + change (("{{" +:+ m +:+ "}}") +:+ segments_text segments)
        with (String "{" (String "{" ((m +:+ "}}") +:+ segments_text segments))).
      rewrite replace_from_step.
      2:{ unfold startsWith.
          change ("{{" +:+ name +:+ "}}")
            with (String "{" (String "{" (name +:+ "}}"))).
          rewrite !prefix_cons, !Ascii.eqb_refl. cbn [andb].
          rewrite append_assoc. by apply placeholder_mismatch. }
      rewrite replace_from_step.
      2:{ unfold startsWith.
          change ("{{" +:+ name +:+ "}}")
            with (String "{" (String "{" (name +:+ "}}"))).
          rewrite prefix_cons, Ascii.eqb_refl. cbn [andb].
          pose proof (name_lacks_brace m Hsegment) as Hm. unfold lacks in Hm.
          destruct (m +:+ "}}") as [|c rest] eqn:Hrest; [by destruct m|].
          change (String c rest +:+ segments_text segments)
            with (String c (rest +:+ segments_text segments)).
          cbn [list_ascii_of_string forallb] in Hm.
          apply andb_true_iff in Hm as [Hc _]. apply negb_true_iff in Hc.
          by rewrite prefix_cons, Ascii.eqb_sym, Hc. }
      rewrite replace_from_plain by (done || by apply name_lacks_brace).
      rewrite IH. cbn [segment_text].
      change (("{{" +:+ m +:+ "}}") +:+ ?x)
        with (String "{" (String "{" ((m +:+ "}}") +:+ x))).
      done.
Qed.

Lemma filled_nil (variables : gmap string string) (segments : list Segment) :
  filled [] variables <$> segments = segments.
Proof.
  induction segments as [|[text|name] segments IH]; [done|..];
    cbn [fmap list_fmap filled find] in *; by f_equal.
Qed.

Lemma filled_cons (v : FlowerVariable) (vs : list FlowerVariable)
    (variables : gmap string string) (segments : list Segment) :
  filled vs variables <$> (fill (var_name v) (value_of variables v) <$> segments)
  = filled (v :: vs) variables <$> segments.
Proof.
  rewrite <- list_fmap_compose. apply list_fmap_ext. intros _ [text|name] _; [done|].
  cbn [compose fill filled find].
  by destruct (String.eqb name (var_name v)).
Qed.

Lemma fill_well_cut (name value : string) (segments : list Segment) :
  lacks "{" value = true →
  Forall (λ segment, well_cut segment = true) segments →
  Forall (λ segment, well_cut segment = true) (fill name value <$> segments).
Proof.
  intros Hvalue Hcut. apply Forall_fmap. eapply Forall_impl; [exact Hcut|].
  intros [text|m] Hsegment; [done|]. cbn [compose fill].
  by destruct (String.eqb m name).
Qed.

Lemma processTemplate_ext (w : World) (template : FlowerTemplate)
    (variables variables' : gmap string string) :
  Forall (λ v, variables !! var_name v = variables' !! var_name v)
    (tpl_variables template) →
  processTemplate w template variables = processTemplate w template variables'.
Proof.
  unfold processTemplate. generalize (Ok (tpl_promptTemplate template)).
  induction (tpl_variables template) as [|v vs IH]; intros processed Hall; [done|].
  apply Forall_cons in Hall as [Hv Hvs]. cbn [fold_left].
  unfold inherited at 2 4. rewrite Hv. by apply IH.
Qed.

(** X14: on a template text made of plain texts without opening brace
    and of placeholders, with variables of plain names,
    [processTemplate] puts in the place of every placeholder of a variable
    the value the request gives to it, or the default value of the
    variable when the request leaves it out or gives the empty string;
    the plain texts and the placeholders that name no variable stay as
    they are.  This holds for values without dollar sign and without
    opening brace.  For every template, a variable of the request that the
    template does not name is ignored. *)
Theorem processTemplate_defaults (w : World) (template : FlowerTemplate)
    (variables : gmap string string) :
  (∀ segments,
     tpl_promptTemplate template = segments_text segments →
     Forall (λ segment, well_cut segment = true) segments →
     Forall (λ v, plain_name (var_name v) = true
                  ∧ lacks "$" (value_of variables v) = true
                  ∧ lacks "{" (value_of variables v) = true)
       (tpl_variables template) →
     processTemplate w template variables
     = Ok (segments_text
             (filled (tpl_variables template) variables <$> segments)))
  ∧ (∀ k value,
       k ∉ var_name <$> tpl_variables template →
       processTemplate w template (<[k := value]> variables)
       = processTemplate w template variables).
Proof.
  split.
  - intros segments Hprompt Hcut Hvariables. unfold processTemplate.
    rewrite Hprompt. clear Hprompt. revert segments Hcut.
    induction Hvariables as [|v vs (Hname & Hdollar & Hbrace) _ IH];
      intros segments Hcut.
    + by rewrite filled_nil.
    + cbn [fold_left]. destruct (plain_name_own variables _ Hname) as [-> Hliteral].
      unfold replace_RegExp_g at 2. rewrite Hliteral.
      fold (value_of variables v).
      rewrite replace_from_segments; [|..|done]; [| |done].
      * rewrite IH by (by apply fill_well_cut). by rewrite filled_cons.
      * unfold plain_name, literal_name in Hname.
        by apply andb_true_iff in Hname as [[? _]%andb_true_iff _].
  - intros k value Hk. apply processTemplate_ext, Forall_forall. intros v Hv.
    rewrite lookup_insert_ne; [done|]. intros ->. apply Hk.
    apply list_elem_of_fmap. by exists v.
Qed.

(** The texts of the two templates are well cut. *)
Lemma FLOWER_TEMPLATES_cut :
  (tpl_promptTemplate single_branch = segments_text single_branch_segments
   ∧ Forall (λ segment, well_cut segment = true) single_branch_segments)
  ∧ (tpl_promptTemplate bouquet = segments_text bouquet_segments
     ∧ Forall (λ segment, well_cut segment = true) bouquet_segments).
Proof. repeat split; first [by vm_compute|repeat constructor]. Qed.

(** Witness for X14: the first template, for a request that names the
    flower and gives an empty petal colour.  The subject line has the
    flower; the colour line has the default colours. *)
Lemma processTemplate_defaults_witness :
  processTemplate sample_world single_branch
    {["flower_name" := "Red Rose"; "petal_color" := ""]}
  = Ok (segments_text
          (filled (tpl_variables single_branch)
             {["flower_name" := "Red Rose"; "petal_color" := ""]}
           <$> single_branch_segments)).
Proof.
  apply (proj1 (processTemplate_defaults sample_world single_branch
                  {["flower_name" := "Red Rose"; "petal_color" := ""]})).
  - by vm_compute.
  - repeat constructor.
  - repeat constructor.
Defined.

(** The lines of that prompt which hold the values. *)
Example processTemplate_defaults_lines :
  ∃ rest,
    segments_text
      (filled (tpl_variables single_branch)
         {["flower_name" := "Red Rose"; "petal_color" := ""]}
       <$> single_branch_segments)
    = "SUBJECT: single [Red Rose] branch; stem have 2 leaves and one bloom flower "
      +:+ LF
      +:+ "STYLE: semi-realistic; product illustration; clean, perfect surfaces."
      +:+ LF
      +:+ "COLOR: petals [golden yellow]; leaves fresh green; anthers [warm brown]; filaments [pale yellow]; saturation even."
      +:+ LF +:+ rest.
Proof. vm_compute. eexists. reflexivity. Qed.

(** ** The routes: keys, templates and replies *)

Lemma or_else_prefixed (c : ascii) (prefix message fallback : string) :
  or_else (String c prefix +:+ message) fallback = String c prefix +:+ message.
Proof. reflexivity. Qed.

Ltac run_route :=
  unfold api_generate, api_flower_generate, api_batch_flower_generate, api_edit,
    api_variations, try_catch, mbind, IO_bind, parse, parse_with, throw, mret,
    IO_ret, lift.

(** X16: on a server whose primary key is missing or does not start with
    [sk-], each of the five routes answers with status 500 and makes no
    call; the message is that of the configuration error as soon as the
    schema accepts the request. *)
Theorem unconfigured_key_no_call (w : World) (env : Env) (log : list Call) :
  configured (OPENAI_API_KEY env) = false →
  let answer (run : IO HttpResponse) (accepted : Prop) :=
    ∃ message,
      run log = (Ok (mkResponse 500 (Message message)), log)
      ∧ (accepted → message = "OpenAI API key not configured on server") in
  (∀ data, answer (api_generate w env data) (¬ rejected (generateImageSchema data)))
  ∧ (∀ data, answer (api_flower_generate w env data)
               (¬ rejected (flowerGenerationSchema data)))
  ∧ (∀ data, answer (api_batch_flower_generate w env data)
               (¬ rejected (batchFlowerGenerationSchema data)))
  ∧ (∀ editData files, answer (api_edit w env editData files)
               (¬ rejected (editImageSchema (transform editData))))
  ∧ (∀ variationData file, answer (api_variations w env variationData file)
               (¬ rejected (createVariationsSchema (transform variationData)))).
Proof.
  intros Hkey answer. subst answer. cbv beta.
  split_and!; intros; run_route; rewrite Hkey; cbn [negb];
    match goal with |- context [match ?schema with _ => _ end] =>
      destruct schema as [validatedData|issues] end;
    eexists; (split; [reflexivity|]); intros Haccepted; try done;
    exfalso; apply Haccepted; by eexists.
Qed.

(** Witness for X16: a key that does not start with [sk-]. *)
Lemma unconfigured_key_no_call_witness :
  ∃ message,
    api_generate sample_world (mkEnv (Some "primary") None) scenario_generate []
    = (Ok (mkResponse 500 (Message message)), [])
    ∧ (¬ rejected (generateImageSchema scenario_generate) →
       message = "OpenAI API key not configured on server").
Proof.
  apply (proj1 (unconfigured_key_no_call sample_world
                  (mkEnv (Some "primary") None) [] eq_refl)).
Defined.

Lemma normalize_image_message (images : list Image) (message : string) :
  map_throwing normalize_image images = Throw message →
  message = "Invalid response format from OpenAI API".
Proof.
  induction images as [|image images IH]; [done|]. cbn [map_throwing].
  unfold normalize_image at 1.
  destruct (truthy (url image)), (truthy (b64_json image));
    destruct (map_throwing normalize_image images); naive_solver.
Qed.

(** X17: what [/api/generate] answers to a valid request on a configured
    server.  The model of the secondary vendor is refused with status 400
    before any call.  For a model of the image API one request is sent; a
    refusal [message] of the image API comes back as status 500 with the
    text [Failed to generate image: message], an unusable image in the reply
    as status 500 too, and a reply without image list as status 200 with
    no image. *)
Theorem api_generate_relays (w : World) (env : Env) (data : json)
    (validatedData : GenerateImageRequest) (log : list Call) :
  generateImageSchema data = ParseOk validatedData →
  configured (OPENAI_API_KEY env) = true →
  let apiKey := default "" (OPENAI_API_KEY env) in
  match f_model (gi_fields validatedData) with
  | GeminiFlashImagePreview =>
      api_generate w env data log
      = (Ok (mkResponse 400
               (Message "Gemini model is only available for flower generation")),
         log)
  | OpenAIModel model =>
      let requestBody :=
        generate_requestBody
          (openaiData (gi_fields validatedData) (gi_prompt validatedData) model) in
      api_generate w env data log
      = (Ok match images_generate w 0 apiKey requestBody with
            | Throw message =>
                mkResponse 500 (Message ("Failed to generate image: " +:+ message))
            | Ok None => mkResponse 200 (ImageUrls [])
            | Ok (Some images) =>
                match map_throwing normalize_image images with
                | Ok imageUrls => mkResponse 200 (ImageUrls imageUrls)
                | Throw _ =>
                    mkResponse 500
                      (Message "Failed to generate image: Invalid response format from OpenAI API")
                end
            end,
         log ++ [ImagesGenerate apiKey requestBody])
  end.
Proof.
  intros Hparse Hkey apiKey. run_route. rewrite Hparse, Hkey. cbn [negb].
  cbv beta iota. destruct (f_model (gi_fields validatedData)) as [model|]; [|done].
  cbv zeta. rewrite generateImage_run. unfold wrap.
  destruct (images_generate _ _ _ _) as [[images|]|message]; try done.
  unfold normalize_response.
  destruct (map_throwing normalize_image images) as [imageUrls|message] eqn:Hmap;
    [done|].
  by rewrite (normalize_image_message _ _ Hmap).
Qed.

(** Witness for X17: the scenario of five images asked of dall-e-3. *)
Lemma api_generate_relays_witness :
  ∃ requestBody,
    api_generate sample_world sample_env scenario_generate []
    = (Ok (mkResponse 200 (ImageUrls ["https://images.example/1.png"])),
       [ImagesGenerate "sk-primary" requestBody]).
Proof.
  eexists.
  exact (api_generate_relays sample_world sample_env scenario_generate
           scenario_generate_validated [] eq_refl eq_refl).
Defined.

Lemma find_template_unknown (templateId : string) :
  templateId ∉ tpl_id <$> FLOWER_TEMPLATES →
  List.find (λ t, String.eqb (tpl_id t) templateId) FLOWER_TEMPLATES = None.
Proof.
  intros Hid.
  destruct (List.find _ FLOWER_TEMPLATES) as [template|] eqn:Hfind; [|done].
  apply find_some in Hfind as [Hin Heq]. apply String.eqb_eq in Heq.
  exfalso. apply Hid. apply list_elem_of_fmap. exists template.
  split; [done|]. by apply list_elem_of_In.
Qed.

(** X18: a valid flower request, single or batch, that names a template
    other than [single-branch] and [bouquet] is answered with status 400
    and the message [Invalid template ID], and no call is made; the model
    and the items play no role. *)
Theorem unknown_template_refused (w : World) (env : Env) (data : json)
    (log : list Call) :
  configured (OPENAI_API_KEY env) = true →
  (∀ validatedData,
     flowerGenerationSchema data = ParseOk validatedData →
     fg_templateId validatedData ∉ ["single-branch"; "bouquet"] →
     api_flower_generate w env data log
     = (Ok (mkResponse 400 (Message "Invalid template ID")), log))
  ∧ (∀ validatedData,
       batchFlowerGenerationSchema data = ParseOk validatedData →
       bf_templateId validatedData ∉ ["single-branch"; "bouquet"] →
       api_batch_flower_generate w env data log
       = (Ok (mkResponse 400 (Message "Invalid template ID")), log)).
Proof.
  intros Hkey.
  split; intros validatedData Hparse Hid; run_route;
    rewrite Hparse, Hkey; cbn [negb]; cbv beta iota;
    by rewrite find_template_unknown.
Qed.

(** Witness for X18: the template [rose-garden]. *)
Lemma unknown_template_refused_witness :
  api_flower_generate sample_world sample_env unknown_template_request []
  = (Ok (mkResponse 400 (Message "Invalid template ID")), []).
Proof.
  apply (proj1 (unknown_template_refused sample_world sample_env
                  unknown_template_request [] eq_refl)
           unknown_template_validated eq_refl).
  intros Hin. repeat (apply elem_of_cons in Hin as [Hin|Hin]; [discriminate Hin|]).
  by apply elem_of_nil in Hin.
Defined.








(** ** [parseInt] on the numerals *)

Lemma digits_value_step (c : ascii) (s : string) (acc : option Z) :
  is_digit c = true →
  digits_value (String c s) acc
  = digits_value s
      (Some (10 * default 0%Z acc + Z.of_nat (nat_of_ascii c - 48))%Z).
Proof. intros Hc. cbn [digits_value]. by rewrite Hc. Qed.

Lemma digits_value_numeral (d : Decimal.uint) (rest : string) (acc : option Z)
    (a : nat) :
  default 0%Z acc = Z.of_nat a →
  digits_value (NilEmpty.string_of_uint d +:+ rest) acc
  = digits_value rest
      match d with
      | Decimal.Nil => acc
      | _ => Some (Z.of_nat (Nat.of_uint_acc d a))
      end.
Proof.
  revert acc a. induction d as [|n IH|n IH|n IH|n IH|n IH|n IH|n IH|n IH|n IH|n IH];
    intros acc a Hacc; [done|..].
  all: cbn [NilEmpty.string_of_uint].
  all: match goal with |- context [String ?c ?s +:+ ?r] =>
         change (String c s +:+ r) with (String c (s +:+ r)) end.
  all: rewrite digits_value_step by done.
  all: match goal with
       | |- digits_value _ (Some ?z)
            = digits_value _ (Some (Z.of_nat (Nat.of_uint_acc (?D _) ?b))) =>
           assert (z = Z.of_nat (Nat.of_uint_acc (D Decimal.Nil) b)) as Hz
             by (cbn [nat_of_ascii Nat.of_uint_acc];
                 rewrite Hacc, Nat.tail_mul_spec; simpl Nat.sub; lia);
           rewrite (IH (Some z) _ Hz)
       end.
  all: destruct n; [by rewrite Hz|done..].
Qed.

Lemma trimStart_visible (c : ascii) (s : string) :
  (32 < nat_of_ascii c < 128)%nat → trimStart (String c s) = String c s.
Proof.
  intros Hc. cbn [trimStart]. unfold wide_space.
  assert (Nat.leb (nat_of_ascii c) 13 = false) as -> by (apply Nat.leb_gt; lia).
  assert (∀ x, (127 < x)%nat → Nat.eqb (nat_of_ascii c) x = false) as Hne
    by (intros x Hx; apply Nat.eqb_neq; lia).
  assert (Nat.eqb (nat_of_ascii c) 32 = false) as ->
    by (apply Nat.eqb_neq; lia).
  rewrite !Hne by lia. rewrite andb_false_r. cbn [orb andb].
  destruct s as [|c2 [|c3 s]]; done.
Qed.

Lemma trimStart_digit (c : ascii) (s : string) :
  is_digit c = true → trimStart (String c s) = String c s.
Proof.
  unfold is_digit. intros [Hlo Hhi]%andb_true_iff.
  apply Nat.leb_le in Hlo, Hhi. apply trimStart_visible. lia.
Qed.

Lemma digit_not_sign (c : ascii) :
  is_digit c = true → Ascii.eqb c "-" = false ∧ Ascii.eqb c "+" = false.
Proof.
  intros Hc. split; apply Ascii.eqb_neq; intros ->; discriminate Hc.
Qed.

Lemma index_str_cons (k : nat) :
  ∃ c s, index_str k = String c s ∧ is_digit c = true.
Proof.
  pose proof (index_str_digits k) as Hdigits.
  pose proof (to_uint_not_Nil k) as Hnil. rewrite index_str_NilEmpty in *.
  destruct (Nat.to_uint k); try done; simpl; eauto.
Qed.

Lemma digits_value_stop (rest : string) (acc : option Z) :
  ends_numeral rest = true → digits_value rest acc = acc.
Proof.
  destruct rest as [|c rest]; [done|]. cbn [ends_numeral digits_value].
  by intros ->%negb_true_iff.
Qed.

Lemma digits_value_index_str (k : nat) (rest : string) :
  ends_numeral rest = true →
  digits_value (index_str k +:+ rest) None = Some (Z.of_nat k).
Proof.
  intros Hrest. rewrite index_str_NilEmpty.
  rewrite (digits_value_numeral _ _ None 0) by done.
  rewrite digits_value_stop by done.
  pose proof (to_uint_not_Nil k) as Hnil.
  pose proof (DecimalNat.Unsigned.of_to k) as Hk. unfold Nat.of_uint in Hk.
  rewrite Hk. by destruct (Nat.to_uint k).
Qed.

Lemma parseInt_index_str (i : nat) (rest : string) :
  ends_numeral rest = true →
  parseInt (index_str i +:+ rest) = to_Number false (Z.of_nat i).
Proof.
  intros Hrest. pose proof (digits_value_index_str i rest Hrest) as Hvalue.
  destruct (index_str_cons i) as (c & s & Hi & Hc).
  destruct (digit_not_sign c Hc) as [Hminus Hplus].
  unfold parseInt. rewrite Hi in *.
  change (String c s +:+ rest) with (String c (s +:+ rest)) in *.
  rewrite trimStart_digit by done. by rewrite Hminus, Hplus, Hvalue.
Qed.

(** Up to 2^53 an integer is its own double. *)
Lemma nearest_double_exact (m : Z) :
  (m ≤ 2 ^ 53)%Z → nearest_double m = Some m.
Proof.
  intros Hm. unfold nearest_double.
  destruct (Z.ltb_spec m (2 ^ 53)) as [|Hge]; [done|].
  assert (m = 2 ^ 53)%Z as -> by lia. by vm_compute.
Qed.

(** Beyond, its double is at least 2^53. *)
Lemma nearest_double_large (m d : Z) :
  (2 ^ 53 ≤ m)%Z → nearest_double m = Some d → (2 ^ 53 ≤ d)%Z.
Proof.
  intros Hm. unfold nearest_double.
  destruct (Z.ltb_spec m (2 ^ 53)) as [|_]; [lia|]. cbv zeta.
  destruct (Z.log2_spec m ltac:(lia)) as [Hlog _].
  assert (53 ≤ Z.log2 m)%Z as He
    by (change 53%Z with (Z.log2 (2 ^ 53)); by apply Z.log2_le_mono).
  set (e := (Z.log2 m - 52)%Z) in *.
  assert (2 ^ Z.log2 m = 2 ^ 52 * 2 ^ e)%Z as Hsplit.
  { rewrite <- Z.pow_add_r by lia. f_equal. lia. }
  assert (0 < 2 ^ e)%Z as Hpos by (apply Z.pow_pos_nonneg; lia).
  assert (2 ^ 52 ≤ m / 2 ^ e)%Z as Hq.
  { apply Z.div_le_lower_bound; lia. }
  assert (2 ≤ 2 ^ e)%Z as Htwo.
  { change 2%Z with (2 ^ 1)%Z at 1. apply Z.pow_le_mono_r; lia. }
  destruct (_ || _); destruct (_ <=? _)%Z; intros [= <-]; nia.
Qed.



(** Beyond 2^53 the numeral is rounded: to the even neighbour in a tie,
    to an infinity from 2^1024 on. *)
Example parseInt_rounds :
  parseInt "9007199254740993" = Integer 9007199254740992
  ∧ parseInt "9007199254740995" = Integer 9007199254740996
  ∧ parseInt "-18014398509481987" = Integer (-18014398509481988)
  ∧ parseInt ("1" +:+ string_of_list_ascii (repeat "0"%char 308)) ≠ Infinity false
  ∧ parseInt ("1" +:+ string_of_list_ascii (repeat "0"%char 309)) = Infinity false
  ∧ parseInt "12.5" = Integer 12 ∧ parseInt "abc" = NaN ∧ parseInt "" = NaN.
Proof. vm_compute. repeat split; try reflexivity. discriminate. Qed.

(** ** The multipart routes *)

Lemma z_number_or_NaN_ParseOk lo hi path n q :
  z_number_or_NaN lo hi path n = ParseOk q →
  ∃ z, n = Integer z ∧ q = inject_Z z ∧ (lo <= q ∧ q <= hi)%Q.
Proof.
  unfold z_number_or_NaN. destruct n as [|z|[]]; try done.
  intros [[= <-] ?]%z_number_min_max_ParseOk. by exists z.
Qed.

Lemma td_n_integer (data : gmap string string) (z : Z) :
  td_n (transform data) = Integer z →
  (blank (data !! "n") → z = 1%Z)
  ∧ ∀ i, data !! "n" = Some (index_str i) → (z < 2 ^ 53)%Z → z = Z.of_nat i.
Proof.
  unfold transform. cbn [td_n].
  destruct (truthy (data !! "n")) eqn:Hn.
  - intros Hz. split.
    + intros Hblank. apply truthy_false_blank in Hblank. congruence.
    + intros i Hi Hsmall. rewrite Hi in Hz.
      change (default "" (Some (index_str i))) with (index_str i) in Hz.
      pose proof (parseInt_index_str i "" eq_refl) as Hp.
      rewrite append_empty, Hz in Hp. unfold to_Number in Hp.
      destruct (nearest_double (Z.of_nat i)) as [d|] eqn:Hd; [|done].
      injection Hp as ->.
      destruct (Z.le_gt_cases (Z.of_nat i) (2 ^ 53)) as [Hle|Hgt].
      * rewrite nearest_double_exact in Hd by done. by injection Hd.
      * apply nearest_double_large in Hd; lia.
  - intros [= <-]. split; [done|].
    intros i Hi. rewrite Hi in Hn.
    destruct (index_str_cons i) as (c & s & Hcs & _). by rewrite Hcs in Hn.
Qed.

Lemma z_default_ParseOk {A} (schema : list PathSegment → option json → SafeParse A)
    (d : A) path input (v : A) :
  z_default schema d path input = ParseOk v →
  match input with
  | None => v = d
  | Some _ => schema path input = ParseOk v
  end.
Proof. unfold z_default. destruct input; [done|]. by intros [= <-]. Qed.

Lemma size_defaulted (data : gmap string string) :
  blank (data !! "size") → td_size (transform data) = "1024x1024".
Proof.
  intros Hblank. apply truthy_false_blank in Hblank.
  unfold transform. cbn [td_size]. by rewrite Hblank.
Qed.

Lemma count_bounds (z : Z) :
  (1 <= inject_Z z ∧ inject_Z z <= 10)%Q → (1 ≤ z ≤ 10)%Z.
Proof.
  change 1%Q with (inject_Z 1). change 10%Q with (inject_Z 10).
  by rewrite <- !Zle_Qle.
Qed.

(** A text field under [output_compression] is no number. *)
Lemma editImageSchema_compression (editData : gmap string string) (v : EditParams) :
  editImageSchema (transform editData) = ParseOk v →
  editData !! "output_compression" = None ∧ e_output_compression v = None.
Proof.
  unfold editImageSchema. intros H. parse_inversion H. cbn [e_output_compression].
  apply z_optional_ParseOk in Hfield6. unfold field, transform in Hfield6.
  cbn [td_fields] in Hfield6.
  destruct (editData !! "output_compression") as [value|];
    by destruct x6 as [compression|].
Qed.

(** X23: what [editImageSchema] and [createVariationsSchema] let through
    of the text fields of a form.  The count is a whole number between 1
    and 10: 1 when the field is missing or empty, the number whose decimal
    numeral the field holds otherwise.  The size is [1024x1024] when the
    field is missing or empty.  An edit has a prompt that is not empty,
    the model dall-e-2 when the field is missing, and never a
    compression; variations have the response format [url] when the field
    is missing. *)
Theorem form_validated (data : gmap string string) :
  (∀ v, editImageSchema (transform data) = ParseOk v →
     data !! "prompt" = Some (e_prompt v) ∧ e_prompt v ≠ ""
     ∧ (∃ z, e_n v = inject_Z z ∧ (1 ≤ z ≤ 10)%Z
             ∧ (blank (data !! "n") → z = 1%Z)
             ∧ ∀ i, data !! "n" = Some (index_str i) → z = Z.of_nat i)
     ∧ (blank (data !! "size") → e_size v = "1024x1024")
     ∧ (data !! "model" = None → e_model v = EditDallE2)
     ∧ e_output_compression v = None)
  ∧ (∀ v, createVariationsSchema (transform data) = ParseOk v →
       (∃ z, v_n v = inject_Z z ∧ (1 ≤ z ≤ 10)%Z
             ∧ (blank (data !! "n") → z = 1%Z)
             ∧ ∀ i, data !! "n" = Some (index_str i) → z = Z.of_nat i)
       ∧ (blank (data !! "size") → v_size v = S1024)
       ∧ (data !! "response_format" = None → v_response_format v = Url)).
Proof.
  split; intros v H.
  - pose proof (editImageSchema_compression _ _ H) as [_ Hcompression].
    unfold editImageSchema in H. parse_inversion H.
    cbn [e_prompt e_n e_size e_model]. split_and!.
    + apply z_string_min1_ParseOk in Hfield as [Hprompt _].
      unfold field, transform in Hprompt. cbn [td_fields] in Hprompt.
      destruct (data !! "prompt"); by simplify_eq/=.
    + by apply z_string_min1_ParseOk in Hfield as [_ ?].
    + apply z_number_or_NaN_ParseOk in Hfield2 as (z & Hn & -> & Hbounds).
      destruct (td_n_integer _ _ Hn) as [Hblank Hnumeral].
      apply count_bounds in Hbounds.
      exists z. split; [done|]. split; [done|]. split; [done|].
      intros i Hi. apply Hnumeral; [done|lia].
    + intros Hblank. apply z_string_ParseOk in Hfield1.
      rewrite size_defaulted in Hfield1 by done. by injection Hfield1.
    + intros Hmodel. apply z_default_ParseOk in Hfield0.
      unfold field, transform in Hfield0. cbn [td_fields] in Hfield0.
      by rewrite Hmodel in Hfield0.
    + done.
  - unfold createVariationsSchema in H. parse_inversion H.
    cbn [v_n v_size v_response_format]. split_and!.
    + apply z_number_or_NaN_ParseOk in Hfield as (z & Hn & -> & Hbounds).
      destruct (td_n_integer _ _ Hn) as [Hblank Hnumeral].
      apply count_bounds in Hbounds.
      exists z. split; [done|]. split; [done|]. split; [done|].
      intros i Hi. apply Hnumeral; [done|lia].
    + intros Hblank. rewrite size_defaulted in Hfield0 by done.
      by injection Hfield0.
    + intros Hformat. apply z_default_ParseOk in Hfield1.
      unfold field, transform in Hfield1. cbn [td_fields] in Hfield1.
      by rewrite Hformat in Hfield1.
Qed.

(** Witness for X23. *)
Lemma form_validated_witness :
  ∃ v, editImageSchema (transform sample_edit_form) = ParseOk v
       ∧ e_prompt v ≠ "" ∧ e_output_compression v = None.
Proof.
  eexists. split; [reflexivity|].
  destruct (proj1 (form_validated sample_edit_form) _ eq_refl)
    as (_ & Hprompt & _ & _ & _ & Hcompression).
  by split.
Defined.

(** X24: an edit form that has a field [output_compression], whatever its
    text, is refused by [editImageSchema], the text field being no number:
    [/api/edit] answers with status 500 and makes no call. *)
Theorem edit_compression_refused (w : World) (env : Env)
    (editData : gmap string string)
    (files : option (gmap string (list UploadedFile))) (log : list Call) :
  is_Some (editData !! "output_compression") →
  rejected (editImageSchema (transform editData))
  ∧ ∃ message,
      api_edit w env editData files log
      = (Ok (mkResponse 500 (Message message)), log).
Proof.
  intros [value Hvalue].
  destruct (editImageSchema (transform editData)) as [v|issues] eqn:Hparse.
  { apply editImageSchema_compression in Hparse as [Hnone _]. congruence. }
  split; [by eexists|]. run_route. rewrite Hparse. by eexists.
Qed.

(** Witness for X24: a compression of 80. *)
Lemma edit_compression_refused_witness :
  ∃ message,
    api_edit sample_world sample_env
      (<["output_compression" := "80"]> sample_edit_form)
      (Some {["originalImage0" := [sample_upload "originalImage0"]]}) []
    = (Ok (mkResponse 500 (Message message)), []).
Proof.
  apply (edit_compression_refused sample_world sample_env
           (<["output_compression" := "80"]> sample_edit_form)
           (Some {["originalImage0" := [sample_upload "originalImage0"]]}) []).
  by exists "80".
Defined.

Lemma omap_length_le {A B} (f : A → option B) (l : list A) :
  (length (omap f l) ≤ length l)%nat.
Proof.
  induction l as [|x l IH]; [done|].
  change (omap f (x :: l))
    with (match f x with Some y => y :: omap f l | None => omap f l end).
  destruct (f x); cbn [length]; lia.
Qed.

Lemma omap_seq_head {B} (f : nat → option B) (a n : nat) (b : B) (bs : list B) :
  omap f (seq a n) = b :: bs →
  ∃ i, (a ≤ i < a + n)%nat ∧ f i = Some b
       ∧ ∀ j, (a ≤ j < i)%nat → f j = None.
Proof.
  revert a. induction n as [|n IH]; intros a; [done|]. cbn [seq omap list_omap].
  destruct (f a) as [b'|] eqn:Ha.
  - intros [= -> _]. exists a. split; [lia|]. split; [done|]. intros j Hj. lia.
  - intros (i & Hi & Hb & Hbefore)%IH. exists i. split; [lia|]. split; [done|].
    intros j Hj. destruct (decide (j = a)) as [->|]; [done|]. apply Hbefore. lia.
Qed.

Lemma filter_seq_sorted (P : nat → Prop) `{!∀ i, Decision (P i)} (a n : nat) :
  StronglySorted lt (filter P (seq a n)).
Proof.
  revert a. induction n as [|n IH]; intros a; [constructor|].
  cbn [seq]. rewrite filter_cons. destruct (decide (P a)); [|apply IH].
  constructor; [apply IH|]. apply Forall_forall. intros j Hj.
  apply list_elem_of_filter in Hj as [_ Hj]. apply elem_of_seq in Hj. lia.
Qed.

Lemma filter_omap {A B} (f : A → option B) (l : list A) :
  Forall2 (λ x y, f x = Some y) (filter (λ x, is_Some (f x)) l) (omap f l).
Proof.
  induction l as [|x l IH]; [constructor|].
  rewrite filter_cons.
  change (omap f (x :: l))
    with (match f x with Some y => y :: omap f l | None => omap f l end).
  destruct (decide (is_Some (f x))) as [[y Hy]|Hnone].
  - rewrite Hy. by constructor.
  - destruct (f x) eqn:Hx; [|done]. exfalso. apply Hnone. by eexists.
Qed.

(** X25: the original images of an edit are read from the sixteen fields
    [originalImage0] to [originalImage15] and from no other field, in the
    order of the fields: the list of buffers goes, buffer by buffer, with
    the increasing list of the numbers of the fields that hold a file, and
    each buffer is that of the first file of its field.  So there are at
    most sixteen buffers and the head is the buffer of the lowest-numbered
    field that holds a file. *)
Theorem edit_uploads_collected (files : gmap string (list UploadedFile)) :
  (∃ fields : list nat,
     StronglySorted lt fields
     ∧ (∀ i, i ∈ fields
             ↔ (i < 16)%nat
               ∧ ∃ f fs, files !! ("originalImage" +:+ index_str i)
                         = Some (f :: fs))
     ∧ Forall2
         (λ i b, ∃ f fs,
            files !! ("originalImage" +:+ index_str i) = Some (f :: fs)
            ∧ buffer f = b)
         fields (originalImageBuffers files))
  ∧ (length (originalImageBuffers files) ≤ 16)%nat
  ∧ (∀ b, b ∈ originalImageBuffers files
          ↔ ∃ i f fs, (i < 16)%nat
              ∧ files !! ("originalImage" +:+ index_str i) = Some (f :: fs)
              ∧ buffer f = b)
  ∧ (∀ b bs, originalImageBuffers files = b :: bs →
       ∃ i f fs, (i < 16)%nat
         ∧ files !! ("originalImage" +:+ index_str i) = Some (f :: fs)
         ∧ buffer f = b
         ∧ ∀ j, (j < i)%nat →
             files !! ("originalImage" +:+ index_str j) ≫= head = None)
  ∧ (∀ k fs, (∀ i, (i < 16)%nat → k ≠ "originalImage" +:+ index_str i) →
       originalImageBuffers (<[k := fs]> files) = originalImageBuffers files).
Proof.
  assert (∀ i b,
            buffer <$> (files !! ("originalImage" +:+ index_str i) ≫= head) = Some b
            ↔ ∃ f fs, files !! ("originalImage" +:+ index_str i) = Some (f :: fs)
                      ∧ buffer f = b) as Hfield.
  { intros i b. destruct (files !! _) as [[|f fs]|]; simpl.
    - split; [done|]. by intros (? & ? & [=] & _).
    - split.
      + intros [= <-]. by exists f, fs.
      + by intros (? & ? & [= <- <-] & <-).
    - split; [done|]. by intros (? & ? & [=] & _). }
  unfold originalImageBuffers. split_and!.
  - exists (filter
              (λ i, is_Some (buffer <$> (files !! ("originalImage" +:+ index_str i)
                                         ≫= head)))
              (seq 0 16)).
    split; [apply filter_seq_sorted|]. split.
    + intros i. rewrite list_elem_of_filter, elem_of_seq. split.
      * intros [[b Hb] Hi]. apply Hfield in Hb as (f & fs & Hf & _).
        split; [lia|]. by exists f, fs.
      * intros (Hi & f & fs & Hf). split; [|lia].
        exists (buffer f). apply Hfield. by exists f, fs.
    + eapply Forall2_impl;
        [apply (filter_omap
                  (λ i, buffer <$> (files !! ("originalImage" +:+ index_str i)
                                    ≫= head)))|].
      intros i b Hb. by apply Hfield.
  - etrans; [apply omap_length_le|]. by rewrite length_seq.
  - intros b. rewrite list_elem_of_omap. split.
    + intros (i & Hi%elem_of_seq & Hb). apply Hfield in Hb as (f & fs & ? & ?).
      exists i, f, fs. split; [lia|]. by split.
    + intros (i & f & fs & Hi & Hf & Hb). exists i. split.
      * apply elem_of_seq. lia.
      * apply Hfield. eauto.
  - intros b bs (i & Hi & Hb & Hbefore)%omap_seq_head.
    apply Hfield in Hb as (f & fs & ? & ?). exists i, f, fs.
    split; [lia|]. do 2 (split; [done|]). intros j Hj.
    specialize (Hbefore j ltac:(lia)).
    by destruct (files !! _ ≫= head).
  - intros k fs Hk. apply list_omap_ext, Forall2_same_length_lookup_2; [done|].
    intros n i j Hi Hj. rewrite Hi in Hj. injection Hj as <-.
    apply lookup_seq in Hi as [-> Hlt]. rewrite lookup_insert_ne; [done|].
    apply Hk. lia.
Qed.

(** Witness for X25: the image of the fourth field. *)
Lemma edit_uploads_collected_witness :
  ∃ i f fs, (i < 16)%nat
    ∧ sample_uploads !! ("originalImage" +:+ index_str i) = Some (f :: fs)
    ∧ buffer f = [x89; x50; x4e; x47; x0d; x0a; x1a; x0a]
    ∧ ∀ j, (j < i)%nat →
        sample_uploads !! ("originalImage" +:+ index_str j) ≫= head = None.
Proof.
  exact (proj1 (proj2 (proj2 (proj2 (edit_uploads_collected sample_uploads))))
           _ _ eq_refl).
Defined.

(** X26: what [/api/edit] answers, on a configured server, to a request
    whose text fields the schema accepts.  When the request is not
    multipart, multer leaves [req.files] undefined: reading the first
    field raises a [TypeError], and the answer is status 500 with its
    message, without any call.  For a multipart request without a file
    under any of the sixteen fields the answer is status 400 and no call
    is made.  Otherwise one edit request is sent, with the images collected
    and the buffer of the mask field; its answer comes back as status 200,
    a refusal as status 500 under [Failed to edit image: ].  Under dall-e-2
    the image sent is that of the lowest-numbered field alone; the mask is
    sent as a PNG file. *)
Theorem api_edit_outcomes (w : World) (env : Env)
    (editData : gmap string string)
    (files : option (gmap string (list UploadedFile)))
    (validatedData : EditParams) (log : list Call) :
  editImageSchema (transform editData) = ParseOk validatedData →
  configured (OPENAI_API_KEY env) = true →
  let apiKey := default "" (OPENAI_API_KEY env) in
  match files with
  | None =>
      api_edit w env editData files log
      = (Ok (mkResponse 500
               (Message (or_else (TypeError_message w "originalImage0")
                           "Failed to edit image. Please check your files and prompt."))),
         log)
  | Some uploads =>
      match originalImageBuffers uploads with
      | [] =>
          api_edit w env editData files log
          = (Ok (mkResponse 400
                   (Message "At least one original image is required")),
             log)
      | first :: others =>
          let requestBody :=
            edit_requestBody (first :: others) (maskImageBuffer uploads)
              validatedData in
          api_edit w env editData files log
          = (Ok match wrap "Failed to edit image: "
                        (images_edit w 0 apiKey requestBody) with
                | Ok imageUrls => mkResponse 200 (ImageUrls imageUrls)
                | Throw message => mkResponse 500 (Message message)
                end,
             log ++ [ImagesEdit apiKey requestBody])
          ∧ (e_model validatedData = EditDallE2 →
             requestBody !! "image" = Some (JFile (convert_imageFile 0 first)))
          ∧ requestBody !! "mask"
            = (λ maskFile, JFile (mkFile maskFile "mask.png" "image/png"))
              <$> maskImageBuffer uploads
      end
  end.
Proof.
  intros Hparse Hkey apiKey. run_route. rewrite Hparse, Hkey. cbn [negb].
  cbv beta iota. destruct files as [uploads|]; [|done].
  destruct (originalImageBuffers uploads) as [|first others]; [done|].
  cbn [length Nat.eqb]. cbv zeta. split_and!.
  - rewrite editImage_run. unfold wrap.
    destruct (images_edit _ _ _ _) as [reply|message]; [|done].
    by destruct (normalize_response reply).
  - intros Hmodel. by rewrite edit_lookup_image, Hmodel.
  - by rewrite edit_lookup_mask.
Qed.

(** Witness for X26: the sample form with its image and mask. *)
Lemma api_edit_outcomes_witness :
  ∃ requestBody,
    api_edit sample_world sample_env sample_edit_form (Some sample_uploads) []
    = (Ok (mkResponse 200 (ImageUrls ["https://images.example/1.png"])),
       [ImagesEdit "sk-primary" requestBody]).
Proof.
  eexists.
  exact (proj1 (api_edit_outcomes sample_world sample_env sample_edit_form
                  (Some sample_uploads) sample_edit_validated [] eq_refl eq_refl)).
Defined.

(** The same form sent as JSON: no files, and the answer of the
    [TypeError]. *)
Example api_edit_not_multipart :
  api_edit sample_world sample_env sample_edit_form None []
  = (Ok (mkResponse 500
           (Message "Cannot read properties of undefined (reading 'originalImage0')")),
     []).
Proof. reflexivity. Qed.

(** X27: what [/api/variations] answers to a valid form on a configured
    server: without a file, status 400 and no call; with one, a single
    variation request with the buffer of the file, whose answer comes back
    as status 200 and whose refusal as status 500 under [Failed to create
    image variations: ]. *)
Theorem api_variations_outcomes (w : World) (env : Env)
    (variationData : gmap string string) (file : option UploadedFile)
    (validatedData : VariationParams) (log : list Call) :
  createVariationsSchema (transform variationData) = ParseOk validatedData →
  configured (OPENAI_API_KEY env) = true →
  let apiKey := default "" (OPENAI_API_KEY env) in
  match file with
  | None =>
      api_variations w env variationData file log
      = (Ok (mkResponse 400 (Message "Image file is required")), log)
  | Some f =>
      let requestBody := variation_requestBody (buffer f) validatedData in
      api_variations w env variationData file log
      = (Ok match wrap "Failed to create image variations: "
                    (images_createVariation w 0 apiKey requestBody) with
            | Ok imageUrls => mkResponse 200 (ImageUrls imageUrls)
            | Throw message => mkResponse 500 (Message message)
            end,
         log ++ [ImagesCreateVariation apiKey requestBody])
  end.
Proof.
  intros Hparse Hkey apiKey. run_route. rewrite Hparse, Hkey. cbn [negb].
  cbv beta iota. destruct file as [f|]; [|done].
  cbv zeta. rewrite createImageVariations_run. unfold wrap.
  destruct (images_createVariation _ _ _ _) as [reply|message]; [|done].
  by destruct (normalize_response reply).
Qed.

(** Witness for X27: two variations asked without a file. *)
Lemma api_variations_outcomes_witness :
  api_variations sample_world sample_env {["n" := "2"]} None []
  = (Ok (mkResponse 400 (Message "Image file is required")), []).
Proof.
  exact (api_variations_outcomes sample_world sample_env {["n" := "2"]} None
           sample_variation_validated [] eq_refl eq_refl).
Defined.

(** ** The upload filter and the image model of the secondary vendor *)

(** X28: the uploads the filter lets through: a mask of any declared
    image type; a file under [originalImage] or [variationImage] declared
    as PNG; a file under a longer name that starts with [originalImage]
    declared as PNG, WEBP or JPEG.  Every accepted file declares an image
    type. *)
Theorem fileFilter_accepted (file : UploadedFile) :
  (fileFilter file = Ok tt
   ↔ (fieldname file = "maskImage" ∧ startsWith (mimetype file) "image/" = true)
     ∨ ((fieldname file = "originalImage" ∨ fieldname file = "variationImage")
        ∧ mimetype file = "image/png")
     ∨ (startsWith (fieldname file) "originalImage" = true
        ∧ fieldname file ≠ "originalImage"
        ∧ mimetype file ∈ ["image/png"; "image/webp"; "image/jpeg"]))
  ∧ (fileFilter file = Ok tt → startsWith (mimetype file) "image/" = true).
Proof.
  assert (∀ s, s ∈ ["image/png"; "image/webp"; "image/jpeg"]
               ↔ existsb (String.eqb s) ["image/png"; "image/webp"; "image/jpeg"]
                 = true) as Hthree.
  { intros s. cbn [existsb]. rewrite orb_false_r, !orb_true_iff, !String.eqb_eq.
    rewrite !elem_of_cons, elem_of_nil. tauto. }
  assert (fileFilter file = Ok tt
          ↔ (fieldname file = "maskImage"
             ∧ startsWith (mimetype file) "image/" = true)
            ∨ ((fieldname file = "originalImage"
                ∨ fieldname file = "variationImage")
               ∧ mimetype file = "image/png")
            ∨ (startsWith (fieldname file) "originalImage" = true
               ∧ fieldname file ≠ "originalImage"
               ∧ mimetype file ∈ ["image/png"; "image/webp"; "image/jpeg"]))
    as Hiff.
  { rewrite Hthree. unfold fileFilter.
    destruct (String.eqb_spec (fieldname file) "originalImage") as [Ho|Ho];
      destruct (String.eqb_spec (fieldname file) "variationImage") as [Hv|Hv];
      destruct (String.eqb_spec (fieldname file) "maskImage") as [Hm|Hm];
      destruct (startsWith (fieldname file) "originalImage") eqn:Hs;
      destruct (String.eqb_spec (mimetype file) "image/png") as [Hp|Hp];
      destruct (startsWith (mimetype file) "image/") eqn:Hi;
      destruct (existsb _ _) eqn:He;
      cbn [orb andb negb]; try congruence.
    all: try (rewrite Ho in Hs; discriminate Hs).
    all: try (rewrite Hv in Hs; discriminate Hs).
    all: try (rewrite Hm in Hs; discriminate Hs).
    all: try (rewrite Hp in Hi; discriminate Hi).
    all: try (rewrite Hp in He; discriminate He).
    all: split; [try done; intros _; tauto|].
    all: try (intros [[? ?]|[[[?|?] ?]|(? & ? & ?)]]; done). }
  split; [exact Hiff|]. intros Hok. apply Hiff in Hok.
  destruct Hok as [[_ ?]|[[_ ->]|(_ & _ & Hin%Hthree)]]; [done..|].
  cbn [existsb] in Hin.
  rewrite orb_false_r, !orb_true_iff, !String.eqb_eq in Hin.
  destruct Hin as [->|[->| ->]]; done.
Qed.

(** Witness for X28: a mask declared as GIF. *)
Lemma fileFilter_accepted_witness :
  fileFilter (mkUploadedFile "maskImage" "mask.gif" "image/gif" []) = Ok tt.
Proof.
  apply (proj1 (fileFilter_accepted
                  (mkUploadedFile "maskImage" "mask.gif" "image/gif" []))).
  left. split; reflexivity.
Defined.

(** X29: [GeminiService.generateImage], called with a prompt alone, never
    returns an image: whatever the image model of the secondary vendor
    answers to the one request it gets, the function raises, with a message
    under [Gemini generation failed: ]. *)
Theorem Gemini_generateImage_raises (w : World) (task : nat) (apiKey prompt : string)
    (log : list Call) :
  Gemini_generateImage w task apiKey prompt log
  = (Throw ("Gemini generation failed: "
            +:+ match generateContent w task apiKey
                        "gemini-2.5-flash-image-preview" [Text prompt] with
                | Ok _ =>
                    "Gemini image generation not yet fully implemented. Please use OpenAI models for now."
                | Throw message => message
                end),
     log ++ [GenerateContent apiKey "gemini-2.5-flash-image-preview"
               [Text prompt]]).
Proof.
  unfold Gemini_generateImage, try_catch, mbind, IO_bind, call, throw.
  by destruct (generateContent _ _ _ _ _) as [text|message].
Qed.

(** ** Every route answers *)

Ltac answer calls :=
  eexists _, calls; rewrite ?app_nil_r;
  (split; [reflexivity|]); (split; [repeat constructor|done]).

Lemma processGenerationTask_appends w env template fields apiKey task item log :
  ∃ calls,
    snd (processGenerationTask w env template fields apiKey task item log)
    = log ++ calls.
Proof.
  unfold processGenerationTask, generation_attempt, try_catch, mbind, IO_bind,
    throw, lift, mret, IO_ret.
  destruct (processTemplate w template (item_variables item)) as [p|message];
    [|by exists []; rewrite app_nil_r].
  destruct (f_model fields) as [model|].
  - rewrite generateImage_run. destruct (wrap _ _); by eexists.
  - destruct (truthy (GEMINI_API_KEY env)); cbn [negb];
      [|by exists []; rewrite app_nil_r].
    rewrite enhance_and_generate_run. cbv zeta.
    destruct (generateContent _ _ _ _ _); [|by eexists].
    destruct (wrap _ _); by eexists.
Qed.

Lemma Promise_all_map_appends {A B} (f : nat → A → IO B) :
  (∀ task item log, ∃ calls, snd (f task item log) = log ++ calls) →
  ∀ items task log,
    ∃ calls, snd (Promise_all_map f task items log) = log ++ calls.
Proof.
  intros Hf. induction items as [|item items IH]; intros task log.
  - exists []. by rewrite app_nil_r.
  - destruct (Hf task item log) as [calls Hcalls].
    cbn [Promise_all_map]. unfold mbind, IO_bind.
    destruct (f task item log) as [[r|message] log1]; simpl in Hcalls; subst log1.
    all: destruct (IH (S task) (log ++ calls)) as [calls' Hcalls'].
    all: destruct (Promise_all_map f (S task) items (log ++ calls))
           as [[results|message'] log2]; simpl in Hcalls'; subst log2.
    all: exists (calls ++ calls'); by rewrite app_assoc.
Qed.

(** X30: no handler lets an error escape.  For a request that has
    reached the handler of its route (any JSON body on the three
    generation routes; on the two upload routes a body of text fields,
    with the files multer has let through, or with [req.files] undefined
    when the request is not multipart), whatever the environment and the
    answers of the vendors and of the engine, the handler returns a
    response with status 200, 400 or 500, and an answer with status 400 is
    given before any call is made.  What multer does with an upload it
    refuses happens before the handler and is not part of the
    statement. *)
Theorem routes_answer (w : World) (env : Env) :
  (∀ data, answers (api_generate w env data))
  ∧ (∀ data, answers (api_flower_generate w env data))
  ∧ (∀ data, answers (api_batch_flower_generate w env data))
  ∧ (∀ editData files, answers (api_edit w env editData files))
  ∧ (∀ variationData file, answers (api_variations w env variationData file)).
Proof.
  split_and!.
  - intros data log. run_route.
    destruct (generateImageSchema data) as [v|issues]; [|answer (@nil Call)].
    destruct (configured (OPENAI_API_KEY env)); cbn [negb];
      [|answer (@nil Call)].
    destruct (f_model (gi_fields v)) as [model|]; [|answer (@nil Call)].
    rewrite generateImage_run.
    destruct (wrap _ _); eexists _, [_]; (split; [reflexivity|]);
      (split; [repeat constructor|done]).
  - intros data log. run_route.
    destruct (flowerGenerationSchema data) as [v|issues]; [|answer (@nil Call)].
    destruct (configured (OPENAI_API_KEY env)); cbn [negb];
      [|answer (@nil Call)].
    destruct (List.find _ FLOWER_TEMPLATES) as [template|]; [|answer (@nil Call)].
    destruct (processTemplate w template (fg_variables v)) as [p|message];
      [|answer (@nil Call)].
    destruct (f_model (fg_fields v)) as [model|].
    + rewrite generateImage_run.
      destruct (wrap _ _); eexists _, [_]; (split; [reflexivity|]);
        (split; [repeat constructor|done]).
    + destruct (truthy (GEMINI_API_KEY env)); cbn [negb];
        [|answer (@nil Call)].
      rewrite enhance_and_generate_run. cbv zeta.
      destruct (generateContent _ _ _ _ _).
      * destruct (wrap _ _); eexists _, [_; _]; (split; [reflexivity|]);
          (split; [repeat constructor|done]).
      * eexists _, [_]; (split; [reflexivity|]);
          (split; [repeat constructor|done]).
  - intros data log. run_route.
    destruct (batchFlowerGenerationSchema data) as [v|issues];
      [|answer (@nil Call)].
    destruct (configured (OPENAI_API_KEY env)); cbn [negb];
      [|answer (@nil Call)].
    destruct (List.find _ FLOWER_TEMPLATES) as [template|]; [|answer (@nil Call)].
    destruct (Promise_all_map_appends
                (processGenerationTask w env template (bf_fields v)
                   (default "" (OPENAI_API_KEY env)))
                (processGenerationTask_appends w env template (bf_fields v)
                   (default "" (OPENAI_API_KEY env)))
                (bf_items v) 0%nat log) as [calls Hcalls].
    destruct (Promise_all_map _ _ _ _) as [[results|message] log'];
      simpl in Hcalls; subst log'; eexists _, calls; (split; [reflexivity|]);
      (split; [repeat constructor|done]).
  - intros editData files log. run_route.
    destruct (editImageSchema (transform editData)) as [v|issues];
      [|answer (@nil Call)].
    destruct (configured (OPENAI_API_KEY env)); cbn [negb];
      [|answer (@nil Call)].
    destruct files as [uploads|]; [|answer (@nil Call)].
    destruct (originalImageBuffers uploads) as [|first others];
      [answer (@nil Call)|].
    cbn [length Nat.eqb]. rewrite editImage_run.
    destruct (wrap _ _); eexists _, [_]; (split; [reflexivity|]);
      (split; [repeat constructor|done]).
  - intros variationData file log. run_route.
    destruct (createVariationsSchema (transform variationData)) as [v|issues];
      [|answer (@nil Call)].
    destruct (configured (OPENAI_API_KEY env)); cbn [negb];
      [|answer (@nil Call)].
    destruct file as [f|]; [|answer (@nil Call)].
    rewrite createImageVariations_run.
    destruct (wrap _ _); eexists _, [_]; (split; [reflexivity|]);
      (split; [repeat constructor|done]).
Qed.
